(** * S2W-H5C: anomaly detector, self-healing controller and OPS session loop

    A shallow embedding of [src/backend/node/src/aiops.ts] and of the OPS
    WebSocket session of [src/backend/node/src/server.ts], with the
    rate-limit middleware, the sample of the monitor source and the
    tokenizer of the shell socket of that file.

    Conventions of the embedding.
    - A JavaScript [number] is an IEEE 754 binary64 value: Rocq's primitive
      [float], whose operations round exactly as JavaScript's do.
    - Mutable objects ([AnomalyDetector], [SelfHealing], the session closure)
      become records that every method takes and returns.
    - [Date.now()] is an argument [now] of the method that reads it; one
      reading serves a whole synchronous run (a method call with the calls it
      makes, the part of a tick after its [await]).
    - The [id], [at] and [message] fields of an event (a random token, a
      wall-clock string and a display text) carry no logic and are left out. *)

From Stdlib Require Import Floats ZArith Bool String Lia PeanoNat List.
From Stdlib Require Uint63.
Import ListNotations.

Set Warnings "-inexact-float".
Open Scope string_scope.
Open Scope list_scope.
Open Scope float_scope.

(* ================================================================== *)
(** * JavaScript numbers *)
(* ================================================================== *)

Module Js.

Definition number := float.

(** [a >= b] and [a > b] of JavaScript are IEEE comparisons with the
    operands exchanged. *)
Definition geb (a b : number) : bool := (b <=? a).
Definition gtb (a b : number) : bool := (b <? a).

(** [Number.isFinite]. *)
Definition isFinite (x : number) : bool := is_finite x.

(** [Math.max(a, b)]: NaN when either operand is NaN; of the two zeros the
    positive one. *)
Definition Math_max (a b : number) : number :=
  if is_nan a || is_nan b then nan
  else if a <? b then b
  else if b <? a then a
  else if get_sign a then b else a.

(** [Math.min(a, b)]: NaN when either operand is NaN; of the two zeros the
    negative one. *)
Definition Math_min (a b : number) : number :=
  if is_nan a || is_nan b then nan
  else if a <? b then a
  else if b <? a then b
  else if get_sign a then a else b.

(** An array length or index as a number. *)
Definition ofNat (n : nat) : number :=
  PrimFloat.of_uint63 (Uint63.of_Z (Z.of_nat n)).

(** [x ?? d]. *)
Definition nullish {A : Type} (x : option A) (d : A) : A :=
  match x with Some v => v | None => d end.

(** [arr.slice(-n)]: the last [n] elements, all of them when there are fewer. *)
Definition sliceLast {A : Type} (n : nat) (l : list A) : list A :=
  skipn (length l - n) l.

(** [arr.slice(0, -1)]. *)
Definition dropLast {A : Type} (l : list A) : list A := removelast l.

(** [arr[arr.length - 1]] of an array that may be empty. *)
Definition lastOf {A : Type} (l : list A) : option A :=
  nth_error l (length l - 1).

End Js.

Notation "a >=? b" := (Js.geb a b) (at level 70, no associativity) : float_scope.
Notation "a >? b" := (Js.gtb a b) (at level 70, no associativity) : float_scope.
Notation "x ?? d" := (Js.nullish x d) (at level 45, left associativity).

Import Js.


(* ================================================================== *)
(** * Data model ([aiops.ts], lines 1-49) *)
(* ================================================================== *)

Record MetricsSample := mkSample {
  cpu : number;
  ram : number;
  disk : number;
  io : number;
  errors : number;
  updatedAt : string;
  source : option string
}.

Inductive AiSeverity := info | warn | critical.

Inductive AiEventType :=
  | cpu_spike | ram_spike | ram_leak | disk_full | io_spike
  | agent_unreachable | rate_limit_enabled | node_isolated | selfheal_noop.

Definition AiEventType_eq_dec (a b : AiEventType) : {a = b} + {a <> b}.
Proof. decide equality. Defined.

Definition AiEventType_eqb (a b : AiEventType) : bool :=
  if AiEventType_eq_dec a b then true else false.

(** The declared type of [seconds] is [number]; [SelfHealing.apply] reads it
    as [a.seconds ?? ...], so an absent value is part of the model. *)
Inductive AiAction :=
  | enable_rate_limit (reason : string) (seconds : option number)
  | isolate_node (reason : string)
  | restart_service (reason : string) (service : string)
  | restart_container (reason : string) (container : string)
  | load_balance_hint (reason : string).

Inductive Mode := dry_run | armed.

Record AiEvent := mkEvent {
  type : AiEventType;
  severity : AiSeverity;
  evSource : string;
  metrics : option MetricsSample;
  actions : option (list AiAction);
  executed : option (Mode * list AiAction)
}.

Record SelfHealConfig := mkConfig {
  enabled : bool;
  mode : Mode;
  rateLimitSeconds : number
}.

Record Stats := mkStats { mean : number; std : number }.

(** [clamp], line 51. *)
Definition clamp (n a b : number) : number := Math_max a (Math_min b n).

(** [meanStd], line 55. *)
Definition meanStd (values : list number) : Stats :=
  match values with
  | [] => mkStats 0 0
  | _ =>
      let mean := fold_left (fun a b => a + b) values 0 / ofNat (length values) in
      let v := fold_left (fun v x => v + (x - mean) * (x - mean)) values 0 in
      let v := v / ofNat (length values) in
      mkStats mean (sqrt v)
  end.

(* ================================================================== *)
(** * AnomalyDetector ([aiops.ts], lines 72-274) *)
(* ================================================================== *)

(** [Partial<Record<AiEventType, number>>]. *)
Definition SpikeTable := AiEventType -> option number.

Definition emptyTable : SpikeTable := fun _ => None.

Record AnomalyDetector := mkDetector {
  window : list MetricsSample;
  lastLeakAtMs : number;
  lastSpikeAtMs : SpikeTable
}.

Definition max : nat := 120.

Definition newDetector : AnomalyDetector := mkDetector [] 0 emptyTable.

(** [while (this.window.length > this.max) this.window.shift()]. *)
Fixpoint shiftWhileOver (w : list MetricsSample) : list MetricsSample :=
  match w with
  | [] => []
  | _ :: w' => if (max <? length w)%nat then shiftWhileOver w' else w
  end.

(** [push], line 78. *)
Definition push (m : MetricsSample) (d : AnomalyDetector) : AnomalyDetector :=
  mkDetector (shiftWhileOver (window d ++ [m])) (lastLeakAtMs d) (lastSpikeAtMs d).

(** [cooldown], line 91. *)
Definition cooldown (now : number) (tbl : SpikeTable) (t : AiEventType) (ms : number) : bool :=
  now - (tbl t ?? 0) <? ms.

(** [mark], line 92. *)
Definition mark (now : number) (t : AiEventType) (tbl : SpikeTable) : SpikeTable :=
  fun t' => if AiEventType_eqb t' t then Some now else tbl t'.

(** The cooldown table and the [out] array as one rule after another sees
    them. *)
Definition Acc := (SpikeTable * list AiEvent)%type.

(** [if (cond) { mark(t); out.push(ev); }]. *)
Definition emit (now : number) (cond : SpikeTable -> bool) (t : AiEventType)
    (ev : AiEvent) (acc : Acc) : Acc :=
  if cond (fst acc) then (mark now t (fst acc), snd acc ++ [ev]) else acc.

Definition spikeActions (reason hint : string) : list AiAction :=
  [ enable_rate_limit reason (Some 30); load_balance_hint hint ].

Definition cpuHint : string := "트래픽 분산/스케일아웃 검토".
Definition ramHint : string := "메모리 누수/프로세스 점검".
Definition diskHint : string := "로그/캐시 정리 또는 볼륨 증설".
Definition leakHint : string := "프로세스 재시작/배포 롤백 검토".

(** Lines 98-159: the rules on absolute thresholds. *)
Definition absoluteLayer (now : number) (src : string) (last : MetricsSample)
    (acc : Acc) : Acc :=
  let acc :=
    emit now (fun tbl => (cpu last >=? 95) && negb (cooldown now tbl cpu_spike 15000))
      cpu_spike
      (mkEvent cpu_spike critical src (Some last)
         (Some (spikeActions "cpu_spike" cpuHint)) None) acc in
  let acc :=
    emit now (fun tbl => (ram last >=? 95) && negb (cooldown now tbl ram_spike 15000))
      ram_spike
      (mkEvent ram_spike critical src (Some last)
         (Some (spikeActions "ram_spike" ramHint)) None) acc in
  let acc :=
    emit now (fun tbl => (io last >=? 95) && negb (cooldown now tbl io_spike 12000))
      io_spike
      (mkEvent io_spike critical src (Some last)
         (Some [enable_rate_limit "io_spike" (Some 20)]) None) acc in
  emit now (fun tbl => (disk last >=? 90) && negb (cooldown now tbl disk_full 30000))
    disk_full
    (mkEvent disk_full (if disk last >=? 97 then critical else warn) src (Some last)
       (Some [load_balance_hint diskHint]) None) acc.

(** [z], line 168. *)
Definition z (x : number) (s : Stats) : number :=
  if std s >? 0.001 then (x - mean s) / std s
  else if x >=? mean s + 5 then 999 else 0.

(** Lines 164-223: the rules on the z-score over the baseline. *)
Definition statisticalLayer (now : number) (src : string) (last : MetricsSample)
    (baseline : list MetricsSample) (acc : Acc) : Acc :=
  let cpuS := meanStd (map cpu baseline) in
  let ramS := meanStd (map ram baseline) in
  let ioS := meanStd (map io baseline) in
  let cpuZ := z (cpu last) cpuS in
  let acc :=
    emit now (fun tbl => (cpu last <? 95) && (cpu last >=? 85) && (cpuZ >=? 2.8)
                         && negb (cooldown now tbl cpu_spike 15000))
      cpu_spike
      (mkEvent cpu_spike (if cpu last >=? 95 then critical else warn) src (Some last)
         (Some (spikeActions "cpu_spike" cpuHint)) None) acc in
  let ramZ := z (ram last) ramS in
  let acc :=
    emit now (fun tbl => (ram last <? 95) && (ram last >=? 85) && (ramZ >=? 2.8)
                         && negb (cooldown now tbl ram_spike 15000))
      ram_spike
      (mkEvent ram_spike (if ram last >=? 95 then critical else warn) src (Some last)
         (Some (spikeActions "ram_spike" ramHint)) None) acc in
  let ioZ := z (io last) ioS in
  emit now (fun tbl => (io last <? 95) && (io last >=? 85) && (ioZ >=? 2.6)
                       && negb (cooldown now tbl io_spike 12000))
    io_spike
    (mkEvent io_spike (if io last >=? 95 then critical else warn) src (Some last)
       (Some [enable_rate_limit "io_spike" (Some 20)]) None) acc.

(** The loop of lines 244-249, with [num] and [den] as a pair. *)
Definition leakSums (xMean yMean : number) (xs ys : list number) : number * number :=
  fold_left
    (fun nd xy =>
       (fst nd + (fst xy - xMean) * (snd xy - yMean),
        snd nd + (fst xy - xMean) * (fst xy - xMean)))
    (combine xs ys) (0, 0).

(** [slope] of line 251, from the RAM readings [ys] of the series. *)
Definition leakSlope (ys : list number) : number :=
  let xs := map ofNat (seq 0 (length ys)) in
  let n := ofNat (length ys) in
  let xMean := fold_left (fun a b => a + b) xs 0 / n in
  let yMean := fold_left (fun a b => a + b) ys 0 / n in
  let '(num, den) := leakSums xMean yMean xs ys in
  if den >? 0 then num / den else 0.

(** [detectRamLeak], line 231. The series has 25 entries where its ends are
    read, so the default of [nth] is never returned. *)
Definition detectRamLeak (now : number) (d : AnomalyDetector)
    : AnomalyDetector * option AiEvent :=
  if now - lastLeakAtMs d <? 20000 then (d, None)
  else
    let series := sliceLast 25 (window d) in
    if (length series <? 25)%nat then (d, None)
    else
      let ys := map ram series in
      let slope := leakSlope ys in
      let yLast := nth (length ys - 1) ys nan in
      let rise := yLast - nth 0 ys nan in
      if (yLast >=? 80) && (rise >=? 8) && (slope >=? 0.22) then
        (mkDetector (window d) now (lastSpikeAtMs d),
         Some (mkEvent ram_leak (if yLast >=? 92 then critical else warn)
                 (match nth_error series (length series - 1) with
                  | Some l => source l ?? "unknown"
                  | None => "unknown"
                  end)
                 (nth_error series (length series - 1))
                 (Some [ enable_rate_limit "ram_leak" (Some 45);
                         load_balance_hint leakHint ])
                 None))
      else (d, None).

(** [detect], line 83. *)
Definition detect (now : number) (src : string) (d : AnomalyDetector)
    : AnomalyDetector * list AiEvent :=
  match lastOf (window d) with
  | None => (d, [])
  | Some last =>
      let recent := sliceLast 60 (window d) in
      let baseline := if (2 <=? length recent)%nat then dropLast recent else recent in
      let acc := absoluteLayer now src last (lastSpikeAtMs d, []) in
      if (length (window d) <? 8)%nat then
        (mkDetector (window d) (lastLeakAtMs d) (fst acc), snd acc)
      else
        let acc := statisticalLayer now src last baseline acc in
        let d' := mkDetector (window d) (lastLeakAtMs d) (fst acc) in
        match detectRamLeak now d' with
        | (d'', Some leak) => (d'', snd acc ++ [leak])
        | (d'', None) => (d'', snd acc)
        end
  end.

(* ================================================================== *)
(** * SelfHealing ([aiops.ts], lines 276-352) *)
(* ================================================================== *)

(** [Partial<SelfHealConfig>]: each field may be absent. *)
Record PartialConfig := mkPartial {
  p_enabled : option bool;
  p_mode : option Mode;
  p_rateLimitSeconds : option number
}.

Record SelfHealing := mkSelfHealing {
  cfg : SelfHealConfig;
  rateLimitUntilMs : number;
  isolated : bool
}.

(** [cfg?.field]. *)
Definition optField {A : Type} (c : option PartialConfig)
    (f : PartialConfig -> option A) : option A :=
  match c with Some c => f c | None => None end.

(** [constructor], line 281. *)
Definition newSelfHealing (c : option PartialConfig) : SelfHealing :=
  mkSelfHealing
    (mkConfig (optField c p_enabled ?? false)
              (optField c p_mode ?? dry_run)
              (optField c p_rateLimitSeconds ?? 30))
    0 false.

(** [getConfig], line 289. *)
Definition getConfig (h : SelfHealing) : SelfHealConfig := cfg h.

(** [setConfig], line 293. *)
Definition setConfig (next : PartialConfig) (h : SelfHealing) : SelfHealing :=
  let c := cfg h in
  let e := match p_enabled next with Some b => b | None => enabled c end in
  let m := match p_mode next with Some m => m | None => mode c end in
  let r := match p_rateLimitSeconds next with
           | Some x => if isFinite x then clamp x 5 300 else rateLimitSeconds c
           | None => rateLimitSeconds c
           end in
  mkSelfHealing (mkConfig e m r) (rateLimitUntilMs h) (isolated h).

(** [isRateLimited], line 301. *)
Definition isRateLimited (now : number) (h : SelfHealing) : bool :=
  now <? rateLimitUntilMs h.

(** [isIsolated], line 305. *)
Definition isIsolated (h : SelfHealing) : bool := isolated h.

Definition notExecutable : string := "실행 불가(설명용)".

(** The body of the loop over [actions], lines 322-342: the controller and
    the [executed] array before and after one action. *)
Definition applyAction (now : number) (a : AiAction)
    (st : SelfHealing * list AiAction) : SelfHealing * list AiAction :=
  let h := fst st in
  match mode (cfg h) with
  | dry_run => (h, snd st ++ [a])
  | armed =>
      match a with
      | enable_rate_limit _ seconds =>
          let sec := clamp (seconds ?? rateLimitSeconds (cfg h)) 5 300 in
          (mkSelfHealing (cfg h)
             (Math_max (rateLimitUntilMs h) (now + sec * 1000))
             (isolated h),
           snd st ++ [a])
      | isolate_node _ =>
          (mkSelfHealing (cfg h) (rateLimitUntilMs h) true, snd st ++ [a])
      | _ => (h, snd st ++ [load_balance_hint notExecutable])
      end
  end.

(** The body of the loop over [events], lines 313-348. *)
Definition applyEvent (now : number) (ev : AiEvent)
    (st : SelfHealing * list AiEvent) : SelfHealing * list AiEvent :=
  match actions ev ?? [] with
  | [] => (fst st, snd st ++ [ev])
  | acts =>
      let r := fold_left (fun s a => applyAction now a s) acts (fst st, []) in
      (fst r,
       snd st ++ [ mkEvent (type ev) (severity ev) (evSource ev) (metrics ev)
                     (actions ev) (Some (mode (cfg (fst r)), snd r)) ])
  end.

(** [apply], line 309. *)
Definition apply (now : number) (events : list AiEvent) (h : SelfHealing)
    : SelfHealing * list AiEvent :=
  if negb (enabled (cfg h)) then (h, events)
  else fold_left (fun s ev => applyEvent now ev s) events (h, []).

(* ================================================================== *)
(** * The OPS session ([server.ts], lines 307-458) *)
(* ================================================================== *)

Module Ops.

Definition sampleSource := source.

Inductive SourceKind := local | monitor.

Inductive Level := level_info | level_error.

(** The texts a status message is built from; [collectFailed] carries the
    streak and the error that the template of line 385 prints. *)
Inductive StatusText :=
  | nodeIsolated
  | monitorUrlInvalid
  | collectFailed (streak : nat) (err : string)
  | switchedToLocal
  | sourceLocal
  | sourceMonitor
  | monitorUrlMalformed.

(** [OpsWsMsg], line 22. A tick is modelled with the list of the messages it
    hands to [send], in order; whether the socket is open when [send] runs is
    outside the model. *)
Inductive OpsWsMsg :=
  | status (level : Level) (message : StatusText)
  | metricsMsg (m : MetricsSample)
  | ai (event : AiEvent)
  | selfheal (enabled : bool) (mode : Mode) (rateLimited isolated : bool).

(** The variables of the connection closure, lines 308-313. *)
Record Session := mkSession {
  source : SourceKind;
  monitorUrl : string;
  errorStreak : nat;
  detector : AnomalyDetector
}.

(** What the awaited collector call of a tick does. *)
Inductive Collected :=
  | resolved (m : MetricsSample)
  | rejected (err : string).

(** A [try] block either runs to its end or throws. *)
Inductive Try (A : Type) :=
  | done (a : A)
  | thrown (err : string).
Arguments done {A} a.
Arguments thrown {A} err.

Definition Step := (Session * SelfHealing * list OpsWsMsg)%type.

(** The policy message of lines 355-361 and 375-381. *)
Definition policySnapshot (now : number) (h : SelfHealing) : OpsWsMsg :=
  selfheal (enabled (getConfig h)) (mode (getConfig h))
           (isRateLimited now h) (isIsolated h).

Section Tick.

Variable isValidHttpUrl : string -> bool.

(** Lines 347-362 and 367-382: what follows a collected sample. *)
Definition onSample (now : number) (dflt : string) (m : MetricsSample)
    (s : Session) (h : SelfHealing) : Step :=
  let d := push m (detector s) in
  let r := detect now (sampleSource m ?? dflt) d in
  let events := snd r in
  let a := apply now events h in
  let applied := snd a in
  (mkSession (source s) (monitorUrl s) 0 (fst r),
   fst a,
   [metricsMsg m] ++ map ai applied
     ++ (if (0 <? length events)%nat then [policySnapshot now (fst a)] else [])).

(** The [try] block of [tick], lines 333-382. *)
Definition tickTry (now : number) (c : Collected) (s : Session) (h : SelfHealing)
    : Try Step :=
  if isIsolated h then done (s, h, [status level_error nodeIsolated])
  else
    match source s with
    | monitor =>
        if (monitorUrl s =? EmptyString)%string || negb (isValidHttpUrl (monitorUrl s)) then
          done (mkSession local (monitorUrl s) 0 (detector s), h,
                [status level_error monitorUrlInvalid])
        else
          match c with
          | rejected e => thrown e
          | resolved m => done (onSample now "monitor" m s h)
          end
    | local =>
        match c with
        | rejected e => thrown e
        | resolved m => done (onSample now "local" m s h)
        end
    end.

Definition unreachableEvent : AiEvent :=
  mkEvent agent_unreachable warn "monitor" None None None.

(** The [catch] block of [tick], lines 383-401. *)
Definition tickCatch (e : string) (s : Session) (h : SelfHealing) : Step :=
  let streak := S (errorStreak s) in
  let out := [status level_error (collectFailed streak e)] in
  match source s with
  | monitor =>
      if (3 <=? streak)%nat then
        (mkSession local (monitorUrl s) 0 (detector s), h,
         out ++ [status level_error switchedToLocal; ai unreachableEvent])
      else (mkSession (source s) (monitorUrl s) streak (detector s), h, out)
  | local => (mkSession (source s) (monitorUrl s) streak (detector s), h, out)
  end.

(** [tick], line 332. *)
Definition tick (now : number) (c : Collected) (s : Session) (h : SelfHealing)
    : Step :=
  match tickTry now c s h with
  | done r => r
  | thrown e => tickCatch e s h
  end.

(** A run of ticks, one after the other, with what each one sent. *)
Fixpoint ticks (inputs : list (number * Collected)) (s : Session) (h : SelfHealing)
    : Session * SelfHealing * list (list OpsWsMsg) :=
  match inputs with
  | [] => (s, h, [])
  | (now, c) :: rest =>
      let '(s1, h1, out) := tick now c s h in
      let '(s2, h2, outs) := ticks rest s1 h1 in
      (s2, h2, out :: outs)
  end.

End Tick.

End Ops.

(* ================================================================== *)
(** * Observations used in the statements *)
(* ================================================================== *)

(** ** Observations on the detector *)

(** The detector after a sequence of [push] calls. *)
Definition pushAll (ms : list MetricsSample) (d : AnomalyDetector) : AnomalyDetector :=
  fold_left (fun d m => push m d) ms d.

(** The events of one kind in a result of [detect]. *)
Definition eventsOfKind (t : AiEventType) (evs : list AiEvent) : list AiEvent :=
  filter (fun e => AiEventType_eqb (type e) t) evs.

Definition hasKind (t : AiEventType) (evs : list AiEvent) : bool :=
  existsb (fun e => AiEventType_eqb (type e) t) evs.

(** The kinds both layers can emit. *)
Definition spikeKinds : list AiEventType := [cpu_spike; ram_spike; io_spike].

(** The condition under which the absolute layer fires kind [t], read on the
    cooldown table [tbl] that [detect] starts from. *)
Definition absFire (now : number) (last : MetricsSample) (tbl : SpikeTable)
    (t : AiEventType) : bool :=
  match t with
  | cpu_spike => (cpu last >=? 95) && negb (cooldown now tbl cpu_spike 15000)
  | ram_spike => (ram last >=? 95) && negb (cooldown now tbl ram_spike 15000)
  | io_spike => (io last >=? 95) && negb (cooldown now tbl io_spike 12000)
  | disk_full => (disk last >=? 90) && negb (cooldown now tbl disk_full 30000)
  | _ => false
  end.

(** The event the absolute layer pushes for kind [t]. *)
Definition absEvent (src : string) (last : MetricsSample) (t : AiEventType) : AiEvent :=
  match t with
  | cpu_spike =>
      mkEvent cpu_spike critical src (Some last)
        (Some (spikeActions "cpu_spike" cpuHint)) None
  | ram_spike =>
      mkEvent ram_spike critical src (Some last)
        (Some (spikeActions "ram_spike" ramHint)) None
  | io_spike =>
      mkEvent io_spike critical src (Some last)
        (Some [enable_rate_limit "io_spike" (Some 20)]) None
  | _ =>
      mkEvent disk_full (if disk last >=? 97 then critical else warn) src (Some last)
        (Some [load_balance_hint diskHint]) None
  end.

(** The critical event of the absolute layer for a CPU reading. *)
Definition cpuCritical (src : string) (m : MetricsSample) : AiEvent :=
  mkEvent cpu_spike critical src (Some m)
    (Some [ enable_rate_limit "cpu_spike" (Some 30); load_balance_hint cpuHint ])
    None.

(** The baseline [detect] computes from the window. *)
Definition baselineOf (w : list MetricsSample) : list MetricsSample :=
  let recent := sliceLast 60 w in
  if (2 <=? length recent)%nat then dropLast recent else recent.

(** The condition under which the statistical layer fires kind [t], read on
    the table [tbl] the layer starts from. *)
Definition statFire (now : number) (last : MetricsSample)
    (baseline : list MetricsSample) (tbl : SpikeTable) (t : AiEventType) : bool :=
  match t with
  | cpu_spike =>
      (cpu last <? 95) && (cpu last >=? 85)
      && (z (cpu last) (meanStd (map cpu baseline)) >=? 2.8)
      && negb (cooldown now tbl cpu_spike 15000)
  | ram_spike =>
      (ram last <? 95) && (ram last >=? 85)
      && (z (ram last) (meanStd (map ram baseline)) >=? 2.8)
      && negb (cooldown now tbl ram_spike 15000)
  | io_spike =>
      (io last <? 95) && (io last >=? 85)
      && (z (io last) (meanStd (map io baseline)) >=? 2.6)
      && negb (cooldown now tbl io_spike 12000)
  | _ => false
  end.

(** The event the statistical layer pushes for kind [t]. *)
Definition statEvent (src : string) (last : MetricsSample) (t : AiEventType) : AiEvent :=
  match t with
  | cpu_spike =>
      mkEvent cpu_spike (if cpu last >=? 95 then critical else warn) src (Some last)
        (Some (spikeActions "cpu_spike" cpuHint)) None
  | ram_spike =>
      mkEvent ram_spike (if ram last >=? 95 then critical else warn) src (Some last)
        (Some (spikeActions "ram_spike" ramHint)) None
  | _ =>
      mkEvent io_spike (if io last >=? 95 then critical else warn) src (Some last)
        (Some [enable_rate_limit "io_spike" (Some 20)]) None
  end.

(** The statistical layer runs from 8 samples on: its condition for kind [t]
    on the detector [d] whose latest sample is [last]. *)
Definition statActive (now : number) (d : AnomalyDetector) (last : MetricsSample)
    (t : AiEventType) : bool :=
  (8 <=? length (window d))%nat
  && statFire now last (baselineOf (window d)) (lastSpikeAtMs d) t.

(** What each part of [detect] appends to [out]. *)
Definition absoluteEvents (now : number) (src : string) (d : AnomalyDetector)
    : list AiEvent :=
  match lastOf (window d) with
  | None => []
  | Some last => snd (absoluteLayer now src last (lastSpikeAtMs d, []))
  end.

Definition statisticalEvents (now : number) (src : string) (d : AnomalyDetector)
    : list AiEvent :=
  match lastOf (window d) with
  | None => []
  | Some last =>
      if (length (window d) <? 8)%nat then []
      else
        snd (statisticalLayer now src last (baselineOf (window d))
               (fst (absoluteLayer now src last (lastSpikeAtMs d, [])), []))
  end.

Definition leakEvents (now : number) (d : AnomalyDetector) : list AiEvent :=
  match window d with
  | [] => []
  | _ =>
      if (length (window d) <? 8)%nat then []
      else match snd (detectRamLeak now d) with Some e => [e] | None => [] end
  end.

(** The last 25 RAM readings of the window. *)
Definition leakSeries (d : AnomalyDetector) : list number :=
  map ram (sliceLast 25 (window d)).

(** The test of line 254 on the RAM readings [ys]. *)
Definition leakTest (ys : list number) : bool :=
  let yLast := nth (length ys - 1) ys nan in
  (yLast >=? 80) && (yLast - nth 0 ys nan >=? 8) && (leakSlope ys >=? 0.22).

(** The condition under which [detectRamLeak] returns an event. *)
Definition leakFire (now : number) (d : AnomalyDetector) : bool :=
  negb (now - lastLeakAtMs d <? 20000)
  && negb (length (sliceLast 25 (window d)) <? 25)%nat
  && leakTest (leakSeries d).

(** The event [detectRamLeak] returns. *)
Definition leakEvent (d : AnomalyDetector) : AiEvent :=
  let series := sliceLast 25 (window d) in
  let ys := map ram series in
  mkEvent ram_leak
    (if nth (length ys - 1) ys nan >=? 92 then critical else warn)
    (match nth_error series (length series - 1) with
     | Some l => source l ?? "unknown"
     | None => "unknown"
     end)
    (nth_error series (length series - 1))
    (Some [ enable_rate_limit "ram_leak" (Some 45); load_balance_hint leakHint ])
    None.

(** ** The statistics in the words of the specification

    These definitions follow the specification, not the code: the theorems
    on the statistical layer and on the leak rule compare what the code
    computes with them. Sums are taken in the order of the list. *)

(** The sum of [acc] and the numbers of [l], added one after the other. *)
Fixpoint sumFrom (acc : number) (l : list number) : number :=
  match l with
  | [] => acc
  | x :: l' => sumFrom (acc + x) l'
  end.

Definition sumOf (l : list number) : number := sumFrom 0 l.

(** The arithmetic mean. *)
Definition meanOf (l : list number) : number := sumOf l / ofNat (length l).

(** The standard deviation (of the whole population): the square root of the
    mean of the squared deviations from the mean. *)
Definition stdOf (l : list number) : number :=
  sqrt (meanOf (map (fun x => (x - meanOf l) * (x - meanOf l)) l)).

(** The z-score of [latest] over [baseline] meets [threshold]: the score is
    [(latest - mean) / std] when [std > 0.001]; over a degenerate baseline it
    is saturated, and so meets every threshold, when [latest] is at least
    [mean + 5], and it meets none otherwise. *)
Definition scoreMeets (latest : number) (baseline : list number)
    (threshold : number) : bool :=
  if stdOf baseline >? 0.001
  then (latest - meanOf baseline) / stdOf baseline >=? threshold
  else latest >=? meanOf baseline + 5.

(** The ordinary-least-squares slope of the line fitted to the readings [ys]
    against their indices 0, 1, ...: the sum of the products of the
    deviations of index and reading from their means, over the sum of the
    squared deviations of the indices. *)
Definition olsSlope (ys : list number) : number :=
  let xs := map ofNat (seq 0 (length ys)) in
  let xMean := meanOf xs in
  let yMean := meanOf ys in
  sumOf (map (fun xy => (fst xy - xMean) * (snd xy - yMean)) (combine xs ys))
  / sumOf (map (fun x => (x - xMean) * (x - xMean)) xs).

(** ** Histories for the concrete scenarios *)

(** A sample with the CPU, RAM and I/O readings given and nothing on the
    other gauges. *)
Definition sampleOf (c r i : number) : MetricsSample :=
  mkSample c r 0 i 0 "2023-11-14T22:13:20.000Z" (Some "local").

(** Sample number [n] of a numbered history, with [n] as its CPU reading. *)
Definition numbered (n : nat) : MetricsSample := sampleOf (ofNat n) 0 0.

(** Seven CPU readings clustered around 40 (mean 40, standard deviation
    about 4.7), then a reading of 90. *)
Definition clusteredHistory : list MetricsSample :=
  map (fun c => sampleOf c 40 10) [35; 45; 40; 33; 47; 38; 42; 90].

(** Seven CPU readings of 80, then a reading of 85: a baseline without
    variance, and a latest value of exactly [mean + 5]. *)
Definition flatHistory : list MetricsSample :=
  map (fun c => sampleOf c 40 10) [80; 80; 80; 80; 80; 80; 80; 85].

(** 25 RAM readings rising linearly from 70 to 90. *)
Definition ramp70to90 : list number :=
  map (fun i => 70 + ofNat i * 20 / 24) (seq 0 25).

(** A session's use of the detector: each sample is pushed at its clock
    reading and [detect] runs on it; the result lists what each call
    returned. *)
Fixpoint feed (src : string) (inputs : list (number * MetricsSample))
    (d : AnomalyDetector) : AnomalyDetector * list (list AiEvent) :=
  match inputs with
  | [] => (d, [])
  | (now, m) :: rest =>
      let r := detect now src (push m d) in
      let r' := feed src rest (fst r) in
      (fst r', snd r :: snd r')
  end.

(** The 25 ramp readings as a session receives them, one every 1.2 s. *)
Definition rampInputs : list (number * MetricsSample) :=
  map (fun i => (1700000000000 + ofNat i * 1200,
                 sampleOf 40 (70 + ofNat i * 20 / 24) 10))
      (seq 0 25).

(** ** Observations on the controller *)

(** An event that proposes the one action [a]. *)
Definition proposing (a : AiAction) : AiEvent :=
  mkEvent cpu_spike critical "local" None (Some [a]) None.

(** A controller with the policy enabled in mode [m] and a rate-limit window
    that ends at [untilMs]. *)
Definition controller (m : Mode) (untilMs : number) : SelfHealing :=
  mkSelfHealing (mkConfig true m 30) untilMs false.

(** The event as [apply] returns it in mode [m] when every proposed action
    is recorded as it stands: an event without actions is passed on, any
    other gets the [executed] field. *)
Definition recorded (m : Mode) (ev : AiEvent) : AiEvent :=
  match actions ev ?? [] with
  | [] => ev
  | acts =>
      mkEvent (type ev) (severity ev) (evSource ev) (metrics ev) (actions ev)
        (Some (m, acts))
  end.

(** [rateLimitSeconds] lies in [5, 300]. *)
Definition inRange (x : number) : bool := (5 <=? x) && (x <=? 300).

(** ** Observations on what a session sends *)

(** The policy snapshots among the messages of a tick. *)
Definition snapshots (out : list Ops.OpsWsMsg) : list Ops.OpsWsMsg :=
  filter (fun m => match m with Ops.selfheal _ _ _ _ => true | _ => false end) out.

(** The events among the messages of a tick. *)
Definition published (out : list Ops.OpsWsMsg) : list AiEvent :=
  flat_map (fun m => match m with Ops.ai e => [e] | _ => [] end) out.

Section TickObservations.

Variable isValidHttpUrl : string -> bool.

(** The tick gets as far as awaiting its collector: the node is not isolated
    and, on the monitor source, the URL is usable. *)
Definition collects (s : Ops.Session) (h : SelfHealing) : bool :=
  negb (isIsolated h)
  && match Ops.source s with
     | Ops.local => true
     | Ops.monitor =>
         negb ((Ops.monitorUrl s =? EmptyString)%string
               || negb (isValidHttpUrl (Ops.monitorUrl s)))
     end.

(** The source name [detect] is given when the sample carries none. *)
Definition sourceName (s : Ops.Session) : string :=
  match Ops.source s with Ops.local => "local" | Ops.monitor => "monitor" end.

(** What [detect] returns in a tick: nothing when it is not run. *)
Definition detected (now : number) (c : Ops.Collected) (s : Ops.Session)
    (h : SelfHealing) : list AiEvent :=
  match c with
  | Ops.resolved m =>
      if collects s h then
        snd (detect now (source m ?? sourceName s) (push m (Ops.detector s)))
      else []
  | Ops.rejected _ => []
  end.

End TickObservations.

(** A session on the local source, and one on the monitor source with a URL,
    each with a new detector. *)
Definition localSession : Ops.Session :=
  Ops.mkSession Ops.local EmptyString 0 newDetector.

Definition monitorSession : Ops.Session :=
  Ops.mkSession Ops.monitor "http://10.0.0.5:8000/monitor" 0 newDetector.

(** A URL check that accepts what starts with [http]. *)
Definition startsWithHttp (u : string) : bool := String.prefix "http" u.

(** ** The order of binary64, read on triples of integers *)

(** Lexicographic comparison of triples. *)
Definition lexCompare (a b : Z * Z * Z) : comparison :=
  match (fst (fst a) ?= fst (fst b))%Z with
  | Eq => match (snd (fst a) ?= snd (fst b))%Z with
          | Eq => (snd a ?= snd b)%Z
          | c => c
          end
  | c => c
  end.

(** Class, exponent and mantissa of a value, signed so that the comparison
    of binary64 is the lexicographic one. *)
Definition rank (x : spec_float) : Z * Z * Z :=
  match x with
  | S754_zero _ => (0, 0, 0)%Z
  | S754_infinity s => (if s then (-2)%Z else 2%Z, 0%Z, 0%Z)
  | S754_nan => (0, 0, 0)%Z
  | S754_finite s m e => if s then ((-1)%Z, (- e)%Z, Zneg m) else (1%Z, e, Zpos m)
  end.

(* ================================================================== *)
(** * Further observations on the detector *)
(* ================================================================== *)

(** The cooldown of the kinds that have one in the table, in milliseconds. *)
Definition cooldownMs (t : AiEventType) : option number :=
  match t with
  | cpu_spike | ram_spike => Some 15000
  | io_spike => Some 12000
  | disk_full => Some 30000
  | _ => None
  end.

(** An action that only limits the rate, for 20, 30 or 45 seconds, or only
    gives a hint. *)
Definition limitOrHint (a : AiAction) : bool :=
  match a with
  | enable_rate_limit _ (Some s) =>
      Leibniz.eqb s 20 || Leibniz.eqb s 30 || Leibniz.eqb s 45
  | load_balance_hint _ => true
  | _ => false
  end.

(** An event as [detect] builds them: a warning or worse about the latest
    sample [last], not yet executed, that proposes at least one action and
    only rate limits and hints. *)
Definition wellProposed (last : MetricsSample) (e : AiEvent) : Prop :=
  severity e <> info
  /\ metrics e = Some last
  /\ executed e = None
  /\ exists a acts, actions e = Some (a :: acts)
       /\ forallb limitOrHint (a :: acts) = true.

(** The reading of the latest sample that the rules of kind [t] look at. *)
Definition gauge (t : AiEventType) (m : MetricsSample) : number :=
  match t with
  | cpu_spike => cpu m
  | ram_spike | ram_leak => ram m
  | io_spike => io m
  | _ => disk m
  end.

(** ** Observations on what the controller records *)

(** The entry [apply] pushes to [executed] for action [a] in mode [m]. *)
Definition recordOf (m : Mode) (a : AiAction) : AiAction :=
  match m with
  | dry_run => a
  | armed =>
      match a with
      | enable_rate_limit _ _ | isolate_node _ => a
      | _ => load_balance_hint notExecutable
      end
  end.

(** The event with its [executed] field filled in mode [m]; an event without
    actions is left as it is. *)
Definition enriched (m : Mode) (ev : AiEvent) : AiEvent :=
  match actions ev ?? [] with
  | [] => ev
  | acts =>
      mkEvent (type ev) (severity ev) (evSource ev) (metrics ev) (actions ev)
        (Some (m, map (recordOf m) acts))
  end.

Definition isArmed (m : Mode) : bool :=
  match m with armed => true | dry_run => false end.

Definition isolates (a : AiAction) : bool :=
  match a with isolate_node _ => true | _ => false end.

(** The event proposes [isolate_node]. *)
Definition proposesIsolation (ev : AiEvent) : bool :=
  existsb isolates (actions ev ?? []).

(** A call of one of the two methods that change a controller. *)
Inductive Call :=
  | call_apply (now : number) (events : list AiEvent)
  | call_setConfig (next : PartialConfig).

Definition call (h : SelfHealing) (c : Call) : SelfHealing :=
  match c with
  | call_apply now events => fst (apply now events h)
  | call_setConfig next => setConfig next h
  end.

(** The controller after a run of calls. *)
Definition calls (cs : list Call) (h : SelfHealing) : SelfHealing :=
  fold_left call cs h.

(* ================================================================== *)
(** * The rate-limit middleware ([server.ts], lines 46-51) *)
(* ================================================================== *)

(** What the middleware does with a request: [next()] or the answer 429. *)
Inductive Handled := passedOn | tooManyRequests.

(** [pathOk], line 48. *)
Definition pathOk (path : string) : bool :=
  String.prefix "/api/" path || String.prefix "/ws/" path
  || String.prefix "/vendor/" path || String.prefix "/dist/" path
  || (path =? "/")%string.

(** The middleware on a request for [path] at clock reading [now]. *)
Definition rateLimitMiddleware (now : number) (path : string) (h : SelfHealing)
    : Handled :=
  if negb (isRateLimited now h) then passedOn
  else if negb (pathOk path) then passedOn
  else tooManyRequests.

(** What becomes of a request. [express.json] (line 33) and [express.static]
    (line 38) are registered before the rate-limit middleware (line 46), so a
    request that one of them answers (a body that is no JSON, a file that the
    frontend directory holds) never reaches it; [answeredBefore] says whether
    that is the case. The routes come after it. *)
Inductive Served := answeredEarlier | rejected429 | reachesRoutes.

Definition request (answeredBefore : bool) (now : number) (path : string)
    (h : SelfHealing) : Served :=
  if answeredBefore then answeredEarlier
  else match rateLimitMiddleware now path h with
       | tooManyRequests => rejected429
       | passedOn => reachesRoutes
       end.

(** The paths a rate limit covers: [/] and what starts with one of four
    prefixes. *)
Definition limitedPrefixes : list string := ["/api/"; "/ws/"; "/vendor/"; "/dist/"].

Definition limited (path : string) : bool :=
  (path =? "/")%string || existsb (fun p => String.prefix p path) limitedPrefixes.

(** The seconds of the rate limit that the events of kind [t] propose. *)
Definition limitSeconds (t : AiEventType) : option number :=
  match t with
  | cpu_spike | ram_spike => Some 30
  | io_spike => Some 20
  | ram_leak => Some 45
  | _ => None
  end.

(* ================================================================== *)
(** * The messages of an OPS client ([server.ts], lines 307-330, 404-452) *)
(* ================================================================== *)

Module OpsClient.

(** A value of a parsed JSON text. An object or an array carries the string
    that [String] gives for it, which is all the handlers read of it. *)
Inductive JsValue :=
  | js_undefined
  | js_null
  | js_boolean (b : bool)
  | js_number (x : number)
  | js_string (s : string)
  | js_object (asString : string).

(** What the handler reads of the parsed message: [msg?.type],
    [msg?.source], [msg?.url], [msg?.enabled], [msg?.mode] and
    [msg?.rateLimitSeconds]; a field the message lacks, and every field of a
    message that is no object, reads as [undefined]. *)
Record ClientMsg := mkMsg {
  msg_type : JsValue;
  msg_source : JsValue;
  msg_url : JsValue;
  msg_enabled : JsValue;
  msg_mode : JsValue;
  msg_rateLimitSeconds : JsValue
}.

(** [JSON.parse(String(raw))] throws or gives a value. *)
Inductive Raw :=
  | unparsable
  | parsed (msg : ClientMsg).

(** [v === s] for a string literal [s]. *)
Definition isString (v : JsValue) (s : string) : bool :=
  match v with js_string t => (t =? s)%string | _ => false end.

(** [Boolean(v)]. *)
Definition Boolean (v : JsValue) : bool :=
  match v with
  | js_undefined | js_null => false
  | js_boolean b => b
  | js_number x => negb ((x =? 0)%float || is_nan x)
  | js_string s => negb (s =? EmptyString)%string
  | js_object _ => true
  end.

(** What a handler hands to [send]: the two notices that are no part of a
    tick, or a message as a tick sends them. *)
Inductive Sent :=
  | streamConnected
  | parseFailed
  | wire (m : Ops.OpsWsMsg).

Definition Outcome := (Ops.Session * SelfHealing * list Sent)%type.

(** What happens to a session: the timer fires, or a message arrives. Each
    comes with the clock reading and with what the collector would answer if
    a tick got to call it. *)
Inductive Input :=
  | timerTick (now : number) (c : Ops.Collected)
  | clientMessage (now : number) (raw : Raw) (c : Ops.Collected).

Section Handlers.

Variable isValidHttpUrl : string -> bool.

(** [String.prototype.trim], and [String] of a number. *)
Variable trim : string -> string.
Variable numberToString : number -> string.

(** [String(v)]. *)
Definition String_ (v : JsValue) : string :=
  match v with
  | js_undefined => "undefined"
  | js_null => "null"
  | js_boolean b => if b then "true" else "false"
  | js_number x => numberToString x
  | js_string s => s
  | js_object s => s
  end.

(** [v ?? ""] of line 425. *)
Definition orEmpty (v : JsValue) : JsValue :=
  match v with
  | js_undefined | js_null => js_string EmptyString
  | _ => v
  end.

(** The connection handler up to the first tick, lines 308-330: the session
    variables and the two messages sent. [envUrl] is
    [process.env.EC2_MONITOR_URL]. *)
Definition connect (now : number) (envUrl : option string) (h : SelfHealing)
    : Ops.Session * list Sent :=
  (Ops.mkSession Ops.local (envUrl ?? EmptyString) 0 newDetector,
   [streamConnected; wire (Ops.policySnapshot now h)]).

(** [ws.on("message")], lines 408-452. The tick that [setSource] starts runs
    here to its end. *)
Definition onMessage (now : number) (raw : Raw) (c : Ops.Collected)
    (s : Ops.Session) (h : SelfHealing) : Outcome :=
  match raw with
  | unparsable => (s, h, [parseFailed])
  | parsed msg =>
      if isString (msg_type msg) "setSource" && isString (msg_source msg) "local" then
        (Ops.mkSession Ops.local (Ops.monitorUrl s) 0 (Ops.detector s), h,
         [wire (Ops.status Ops.level_info Ops.sourceLocal)])
      else if isString (msg_type msg) "setSource" && isString (msg_source msg) "monitor" then
        let url := trim (String_ (orEmpty (msg_url msg))) in
        if negb (isValidHttpUrl url) then
          (s, h, [wire (Ops.status Ops.level_error Ops.monitorUrlMalformed)])
        else
          let s1 := Ops.mkSession Ops.monitor url 0 (Ops.detector s) in
          let r := Ops.tick isValidHttpUrl now c s1 h in
          (fst (fst r), snd (fst r),
           wire (Ops.status Ops.level_info Ops.sourceMonitor) :: map wire (snd r))
      else if isString (msg_type msg) "setSelfHeal" then
        let enabled := Boolean (msg_enabled msg) in
        let mode := if isString (msg_mode msg) "armed" then armed else dry_run in
        let rateLimitSeconds :=
          match msg_rateLimitSeconds msg with
          | js_number x => Some x
          | _ => None
          end in
        let h1 := setConfig (mkPartial (Some enabled) (Some mode) rateLimitSeconds) h in
        (s, h1, [wire (Ops.policySnapshot now h1)])
      else (s, h, [])
  end.

(** One input. *)
Definition step (i : Input) (s : Ops.Session) (h : SelfHealing) : Outcome :=
  match i with
  | timerTick now c =>
      let r := Ops.tick isValidHttpUrl now c s h in
      (fst (fst r), snd (fst r), map wire (snd r))
  | clientMessage now raw c => onMessage now raw c s h
  end.

(** A run of inputs, one handled after the other, with what each one sent. *)
Fixpoint run (inputs : list Input) (s : Ops.Session) (h : SelfHealing)
    : Ops.Session * SelfHealing * list (list Sent) :=
  match inputs with
  | [] => (s, h, [])
  | i :: rest =>
      let r := step i s h in
      let r' := run rest (fst (fst r)) (snd (fst r)) in
      (fst (fst r'), snd (fst r'), snd r :: snd r')
  end.

End Handlers.

End OpsClient.

(** ** Observations on a session *)

(** The message is the status of a tick on an isolated node, and the status
    of a tick that finds the monitor URL unusable. *)
Definition saysIsolated (m : OpsClient.Sent) : bool :=
  match m with
  | OpsClient.wire (Ops.status _ Ops.nodeIsolated) => true
  | _ => false
  end.

Definition saysUrlInvalid (m : OpsClient.Sent) : bool :=
  match m with
  | OpsClient.wire (Ops.status _ Ops.monitorUrlInvalid) => true
  | _ => false
  end.

(** The message reports a sample or an event. *)
Definition reportsMonitoring (m : OpsClient.Sent) : bool :=
  match m with
  | OpsClient.wire (Ops.metricsMsg _) | OpsClient.wire (Ops.ai _) => true
  | _ => false
  end.

(** The invariant of a session on the monitor source. *)
Definition monitorReady (isValidHttpUrl : string -> bool) (s : Ops.Session) : Prop :=
  Ops.source s = Ops.monitor ->
  isValidHttpUrl (Ops.monitorUrl s) = true /\ (Ops.errorStreak s <= 2)%nat.

(** The message [{type: "setSource", source: "monitor", url}]. *)
Definition setSourceMonitor (url : string) : OpsClient.Raw :=
  OpsClient.parsed
    (OpsClient.mkMsg (OpsClient.js_string "setSource") (OpsClient.js_string "monitor")
       (OpsClient.js_string url) OpsClient.js_undefined OpsClient.js_undefined
       OpsClient.js_undefined).

(** A [setSelfHeal] message with the three fields as given. *)
Definition setSelfHeal (enabled mode rateLimitSeconds : OpsClient.JsValue)
    : OpsClient.ClientMsg :=
  OpsClient.mkMsg (OpsClient.js_string "setSelfHeal") OpsClient.js_undefined
    OpsClient.js_undefined enabled mode rateLimitSeconds.

(** Timer ticks whose collector call fails, one for each clock reading and
    error text. *)
Definition failures (inputs : list (number * string)) : list (number * Ops.Collected) :=
  map (fun p => (fst p, Ops.rejected (snd p))) inputs.

(* ================================================================== *)
(** * The tokenizer of the shell socket ([server.ts], lines 460-492) *)
(* ================================================================== *)

Module Tokenizer.

(** A JavaScript string as the loop reads it: its UTF-16 code units, with
    [line[i]] the unit at index [i]. *)
Definition CodeUnit := N.
Definition JsString := list CodeUnit.

Definition doubleQuote : CodeUnit := 34%N.
Definition singleQuote : CodeUnit := 39%N.
Definition backslash : CodeUnit := 92%N.
Definition space : CodeUnit := 32%N.

(** [/\s/.test(ch)] for a string of one code unit: the white space and line
    terminator characters of ECMAScript. *)
Definition isSpace (c : CodeUnit) : bool :=
  ((9 <=? c) && (c <=? 13) || (c =? 32) || (c =? 160) || (c =? 5760)
   || (8192 <=? c) && (c <=? 8202) || (c =? 8232) || (c =? 8233)
   || (c =? 8239) || (c =? 8287) || (c =? 12288) || (c =? 65279))%N.

(** [if (cur)]: a string is truthy when it is not empty. *)
Definition truthy (cur : JsString) : bool :=
  match cur with [] => false | _ => true end.

(** The loop of lines 464-489 on what is left of the line, and line 490
    when nothing is left. The escape of line 469 consumes two units. *)
Fixpoint scan (line : JsString) (out : list JsString) (cur : JsString)
    (quote : option CodeUnit) : list JsString :=
  match line with
  | [] => if truthy cur then out ++ [cur] else out
  | ch :: rest =>
      match quote with
      | Some q =>
          if (ch =? q)%N then scan rest out cur None
          else if (ch =? backslash)%N && (q =? doubleQuote)%N then
            match rest with
            | next :: rest' => scan rest' out (cur ++ [next]) quote
            | [] => scan rest out (cur ++ [ch]) quote
            end
          else scan rest out (cur ++ [ch]) quote
      | None =>
          if (ch =? doubleQuote)%N || (ch =? singleQuote)%N then
            scan rest out cur (Some ch)
          else if isSpace ch then
            if truthy cur then scan rest (out ++ [cur]) [] None
            else scan rest out cur None
          else scan rest out (cur ++ [ch]) None
      end
  end.

(** [tokenize], line 460. *)
Definition tokenize (line : JsString) : list JsString := scan line [] [] None.

(** [words.join(" ")]. *)
Fixpoint join (words : list JsString) : JsString :=
  match words with
  | [] => []
  | [w] => w
  | w :: ws => w ++ space :: join ws
  end.

(** A code unit that is neither white space nor a quote, and a word of such
    units that is not empty. *)
Definition plain (c : CodeUnit) : bool :=
  negb (isSpace c) && negb (c =? doubleQuote)%N && negb (c =? singleQuote)%N.

Definition plainWord (w : JsString) : bool := truthy w && forallb plain w.

(** The one token of a line that holds [cur], none when [cur] is empty. *)
Definition token (cur : JsString) : list JsString :=
  if truthy cur then [cur] else [].

End Tokenizer.

(* ================================================================== *)
(** * The sample of the monitor source ([server.ts], lines 200-228, 276-279) *)
(* ================================================================== *)

Module Monitor.

Import OpsClient.

Section Sample.

(** [Number(s)] of a string. An object or an array is converted through the
    string [String] gives for it. *)
Variable stringToNumber : string -> number.




End Sample.

End Monitor.


(** The controller with [rateLimitSeconds] set to [x] and all else as it is. *)
Definition withSeconds (x : number) (h : SelfHealing) : SelfHealing :=
  mkSelfHealing (mkConfig (enabled (cfg h)) (mode (cfg h)) x)
    (rateLimitUntilMs h) (isolated h).

(* ================================================================== *)
(** * Properties *)
(* ================================================================== *)

(** ** Order facts about binary64 *)

Section FloatOrder.

(** The specification-level comparison is antisymmetric. *)
Lemma SFcompare_antisym (x y : spec_float) (c : comparison) :
  SFcompare x y = Some c -> SFcompare y x = Some (CompOpp c).
Proof.
  destruct x as [s1 | s1 | | s1 m1 e1], y as [s2 | s2 | | s2 m2 e2];
    simpl; intros H; try discriminate; injection H as <-;
    try (destruct s1; reflexivity); try (destruct s2; reflexivity);
    try (destruct s1, s2; reflexivity).
  destruct s1, s2; try reflexivity;
    rewrite (Z.compare_antisym e1 e2); destruct (e1 ?= e2)%Z; simpl;
    try reflexivity;
    rewrite (Pos.compare_cont_antisym m1 m2 Eq); simpl;
    destruct (Pos.compare_cont Eq m1 m2); reflexivity.
Qed.

(** Two values that are not NaN are comparable. *)
Lemma SFcompare_total (x y : spec_float) :
  x <> S754_nan -> y <> S754_nan -> exists c, SFcompare x y = Some c.
Proof.
  destruct x, y; simpl; intros Hx Hy; try congruence; eauto.
Qed.

Lemma SFcompare_refl (x : spec_float) :
  x <> S754_nan -> SFcompare x x = Some Eq.
Proof.
  destruct x as [s | s | | s m e]; simpl; intros Hx; try congruence.
  - destruct s; reflexivity.
  - rewrite Z.compare_refl.
    assert (Hm : Pos.compare_cont Eq m m = Eq) by apply Pos.compare_refl.
    rewrite Hm. destruct s; reflexivity.
Qed.

Lemma is_nan_false_spec (x : float) :
  is_nan x = false -> Prim2SF x <> S754_nan.
Proof.
  unfold is_nan. rewrite FloatAxioms.eqb_spec. unfold SFeqb.
  intros H E. rewrite E in H. simpl in H. discriminate.
Qed.

Lemma ltb_leb (x y : float) : (x <? y) = true -> (x <=? y) = true.
Proof.
  rewrite FloatAxioms.ltb_spec, FloatAxioms.leb_spec. unfold SFltb, SFleb.
  destruct (SFcompare (Prim2SF x) (Prim2SF y)) as [[ | | ] | ];
    intros H; try discriminate; reflexivity.
Qed.

(** [x < y] excludes [x >= y]. *)
Lemma ltb_geb_excl (x y : float) : (x <? y) = true -> (x >=? y) = false.
Proof.
  unfold geb. rewrite FloatAxioms.ltb_spec, FloatAxioms.leb_spec. unfold SFltb, SFleb.
  destruct (SFcompare (Prim2SF x) (Prim2SF y)) as [c | ] eqn:E;
    [ | intros H; discriminate ].
  apply SFcompare_antisym in E. rewrite E.
  destruct c; intros H; try discriminate; reflexivity.
Qed.

Lemma geb_ltb_excl (x y : float) : (x >=? y) = true -> (x <? y) = false.
Proof.
  intros H. destruct (x <? y) eqn:E; [ | reflexivity ].
  apply ltb_geb_excl in E. congruence.
Qed.

Lemma leb_refl (x : float) : is_nan x = false -> (x <=? x) = true.
Proof.
  intros H. apply is_nan_false_spec in H.
  rewrite FloatAxioms.leb_spec. unfold SFleb. rewrite (SFcompare_refl _ H). reflexivity.
Qed.

(** Among numbers, [not (x < y)] gives [y <= x]. *)
Lemma nltb_leb (x y : float) :
  is_nan x = false -> is_nan y = false -> (x <? y) = false -> (y <=? x) = true.
Proof.
  intros Hx Hy. apply is_nan_false_spec in Hx. apply is_nan_false_spec in Hy.
  rewrite FloatAxioms.ltb_spec, FloatAxioms.leb_spec. unfold SFltb, SFleb.
  destruct (SFcompare_total _ _ Hx Hy) as [c E]. rewrite E.
  apply SFcompare_antisym in E. rewrite E.
  destruct c; intros H; try discriminate; reflexivity.
Qed.

Lemma leb_not_nan (x y : float) :
  (x <=? y) = true -> is_nan x = false /\ is_nan y = false.
Proof.
  rewrite FloatAxioms.leb_spec. unfold SFleb, is_nan. rewrite !FloatAxioms.eqb_spec. unfold SFeqb.
  destruct (SFcompare (Prim2SF x) (Prim2SF y)) as [c | ] eqn:E;
    [ | intros H; discriminate ].
  intros _.
  assert (Hx : Prim2SF x <> S754_nan)
    by (intros N; rewrite N in E; simpl in E; discriminate).
  assert (Hy : Prim2SF y <> S754_nan)
    by (intros N; rewrite N in E; destruct (Prim2SF x); simpl in E; discriminate).
  rewrite (SFcompare_refl _ Hx), (SFcompare_refl _ Hy). split; reflexivity.
Qed.

Lemma is_finite_not_nan (x : float) : is_finite x = true -> is_nan x = false.
Proof.
  unfold is_finite. destruct (is_nan x); simpl; intros H;
    [ discriminate | reflexivity ].
Qed.

Lemma SFcompare_rank (x y : spec_float) (c : comparison) :
  SFcompare x y = Some c -> c = lexCompare (rank x) (rank y).
Proof.
  destruct x as [s1 | s1 | | s1 m1 e1], y as [s2 | s2 | | s2 m2 e2];
    simpl; intros H; try discriminate; injection H as <-;
    try (destruct s1; reflexivity); try (destruct s2; reflexivity);
    try (destruct s1, s2; reflexivity).
  destruct s1, s2; try reflexivity; unfold lexCompare; cbn [rank fst snd].
  rewrite Z.compare_opp, (Z.compare_antisym e1 e2).
  change (-1 ?= -1)%Z with Eq. cbv iota.
  destruct (e1 ?= e2)%Z; reflexivity.
Qed.

Lemma lexCompare_trans (a b c : Z * Z * Z) :
  lexCompare a b <> Gt -> lexCompare b c <> Gt -> lexCompare a c <> Gt.
Proof.
  destruct a as [[a1 a2] a3], b as [[b1 b2] b3], c as [[c1 c2] c3].
  unfold lexCompare. cbn [fst snd].
  destruct (Z.compare_spec a1 b1), (Z.compare_spec b1 c1), (Z.compare_spec a1 c1);
    try lia; try congruence;
    destruct (Z.compare_spec a2 b2), (Z.compare_spec b2 c2), (Z.compare_spec a2 c2);
    try lia; try congruence;
    destruct (Z.compare_spec a3 b3), (Z.compare_spec b3 c3), (Z.compare_spec a3 c3);
    try lia; try congruence.
Qed.

Lemma leb_compare (x y : float) :
  (x <=? y) = true <->
  exists c, SFcompare (Prim2SF x) (Prim2SF y) = Some c /\ c <> Gt.
Proof.
  rewrite FloatAxioms.leb_spec. unfold SFleb.
  destruct (SFcompare (Prim2SF x) (Prim2SF y)) as [[ | | ] | ]; split;
    try (intros H; discriminate H);
    try (intros _; eexists; split; [ reflexivity | discriminate ]);
    try reflexivity;
    intros [c [E N]]; congruence.
Qed.

Lemma leb_trans (x y w : float) :
  (x <=? y) = true -> (y <=? w) = true -> (x <=? w) = true.
Proof.
  intros H1 H2.
  destruct (leb_not_nan _ _ H1) as [Nx _]. destruct (leb_not_nan _ _ H2) as [_ Nw].
  apply leb_compare in H1. apply leb_compare in H2.
  destruct H1 as [c1 [E1 N1]]. destruct H2 as [c2 [E2 N2]].
  apply leb_compare.
  destruct (SFcompare_total _ _ (is_nan_false_spec _ Nx) (is_nan_false_spec _ Nw))
    as [c3 E3].
  exists c3. split; [ exact E3 | ].
  rewrite (SFcompare_rank _ _ _ E3).
  apply (lexCompare_trans _ (rank (Prim2SF y))).
  - rewrite <- (SFcompare_rank _ _ _ E1). exact N1.
  - rewrite <- (SFcompare_rank _ _ _ E2). exact N2.
Qed.

Lemma is_nan_spec_false (x : float) :
  Prim2SF x <> S754_nan -> is_nan x = false.
Proof.
  intros H. unfold is_nan. rewrite FloatAxioms.eqb_spec. unfold SFeqb.
  rewrite (SFcompare_refl _ H). reflexivity.
Qed.

Lemma is_finite_spec (x : float) :
  is_finite x = true ->
  Prim2SF x <> S754_nan /\ forall s, Prim2SF x <> S754_infinity s.
Proof.
  unfold is_finite. intros H. apply negb_true_iff, orb_false_iff in H.
  destruct H as [N I]. split; [ apply is_nan_false_spec; exact N | ].
  intros s E. unfold is_infinity in I.
  rewrite FloatAxioms.eqb_spec, abs_spec, E in I. vm_compute in I. discriminate.
Qed.

(** ** Rounding never produces NaN *)

Section Rounding.

Variables prec emax : Z.

Lemma shr_1_nonneg (mrs : shr_record) :
  (0 <= shr_m mrs)%Z -> (0 <= shr_m (shr_1 mrs))%Z.
Proof.
  destruct mrs as [m r s]. cbn [shr_m]. intros H.
  destruct m as [ | [p | p | ] | p]; cbn; lia.
Qed.

Lemma iter_shr_1_nonneg (p : positive) (mrs : shr_record) :
  (0 <= shr_m mrs)%Z -> (0 <= shr_m (SpecFloat.iter_pos shr_1 p mrs))%Z.
Proof.
  revert mrs. induction p as [p IH | p IH | ]; intros mrs H;
    cbn [SpecFloat.iter_pos].
  - apply IH, IH, shr_1_nonneg, H.
  - apply IH, IH, H.
  - apply shr_1_nonneg, H.
Qed.

Lemma shr_fexp_nonneg (m e : Z) (l : location) :
  (0 <= m)%Z -> (0 <= shr_m (fst (shr_fexp prec emax m e l)))%Z.
Proof.
  intros H. unfold shr_fexp, shr.
  assert (R : (0 <= shr_m (shr_record_of_loc m l))%Z)
    by (destruct l as [ | [ | | ]]; exact H).
  destruct (fexp prec emax (Zdigits2 m + e) - e)%Z; cbn [fst];
    [ exact R | apply iter_shr_1_nonneg, R | exact R ].
Qed.

Lemma round_nearest_even_nonneg (m : Z) (l : location) :
  (0 <= m)%Z -> (0 <= round_nearest_even m l)%Z.
Proof.
  intros H. destruct l as [ | [ | | ]]; cbn; try lia.
  destruct (Z.even m); lia.
Qed.

Lemma binary_round_aux_not_nan (sx : bool) (mx ex : Z) (lx : location) :
  (0 <= mx)%Z -> binary_round_aux prec emax sx mx ex lx <> S754_nan.
Proof.
  intros H. unfold binary_round_aux.
  pose proof (shr_fexp_nonneg mx ex lx H) as H1.
  destruct (shr_fexp prec emax mx ex lx) as [mrs' e']. cbn [fst] in H1.
  pose proof (shr_fexp_nonneg _ e' loc_Exact
                (round_nearest_even_nonneg _ (loc_of_shr_record mrs') H1)) as H2.
  destruct (shr_fexp prec emax
              (round_nearest_even (shr_m mrs') (loc_of_shr_record mrs')) e' loc_Exact)
    as [mrs'' e'']. cbn [fst] in H2.
  destruct (shr_m mrs''); try lia; try discriminate.
  destruct (e'' <=? emax - prec)%Z; discriminate.
Qed.

Lemma binary_normalize_not_nan (m e : Z) (sz : bool) :
  binary_normalize prec emax m e sz <> S754_nan.
Proof.
  unfold binary_normalize, binary_round.
  destruct m as [ | p | p]; [ discriminate | | ];
    destruct (shl_align _ _ _) as [mz ez]; apply binary_round_aux_not_nan; lia.
Qed.

End Rounding.

(** A finite number plus a number is a number. *)
Lemma add_is_number (x y : float) :
  is_finite x = true -> is_nan y = false -> is_nan (x + y) = false.
Proof.
  intros Fx Ny. destruct (is_finite_spec x Fx) as [Nx Ix].
  apply is_nan_false_spec in Ny. apply is_nan_spec_false.
  rewrite add_spec. unfold SF64add, SFadd.
  destruct (Prim2SF x) as [sx | sx | | sx mx ex]; try congruence;
    try (exfalso; apply (Ix sx); reflexivity);
    destruct (Prim2SF y) as [sy | sy | | sy my ey]; try congruence;
    try discriminate.
  - destruct sx, sy; discriminate.
  - apply binary_normalize_not_nan.
Qed.

(** A number times 1000 is a number. *)
Lemma mul_1000_is_number (x : float) :
  is_nan x = false -> is_nan (x * 1000) = false.
Proof.
  intros Nx. apply is_nan_false_spec in Nx. apply is_nan_spec_false.
  rewrite mul_spec. unfold SF64mul.
  replace (Prim2SF 1000) with (S754_finite false 8796093022208000 (-43))
    by (vm_compute; reflexivity).
  unfold SFmul.
  destruct (Prim2SF x) as [sx | sx | | sx mx ex]; try congruence;
    try discriminate.
  apply binary_round_aux_not_nan. lia.
Qed.

End FloatOrder.

(** ** The cooldown table *)

Section Table.

Variable now : number.

Lemma mark_same (t : AiEventType) (tbl : SpikeTable) : mark now t tbl t = Some now.
Proof.
  unfold mark, AiEventType_eqb. destruct (AiEventType_eq_dec t t); congruence.
Qed.

Lemma mark_other (t t' : AiEventType) (tbl : SpikeTable) :
  t' <> t -> mark now t tbl t' = tbl t'.
Proof.
  intros H. unfold mark, AiEventType_eqb.
  destruct (AiEventType_eq_dec t' t); congruence.
Qed.

Lemma emit_fst cond t ev (acc : Acc) :
  fst (emit now cond t ev acc)
  = if cond (fst acc) then mark now t (fst acc) else fst acc.
Proof. unfold emit. destruct (cond (fst acc)); reflexivity. Qed.

Lemma emit_snd cond t ev (acc : Acc) :
  snd (emit now cond t ev acc)
  = snd acc ++ (if cond (fst acc) then [ev] else []).
Proof.
  unfold emit. destruct (cond (fst acc)); simpl; [ | rewrite app_nil_r ]; reflexivity.
Qed.

End Table.

(** ** The layers of [detect], rule by rule *)

Lemma cooldown_mark_other (now : number) (t t' : AiEventType) (tbl : SpikeTable)
    (ms : number) :
  t' <> t -> cooldown now (mark now t tbl) t' ms = cooldown now tbl t' ms.
Proof. intros H. unfold cooldown. rewrite mark_other by exact H. reflexivity. Qed.

(** Takes the outermost condition that holds no other condition and splits
    on it; a cooldown read behind a mark of another kind is the cooldown of
    the table before the mark. *)
Ltac split_rule :=
  match goal with
  | |- context [if ?c then _ else _] =>
      lazymatch c with
      | context [if _ then _ else _] => fail
      | _ => destruct c eqn:?
      end
  end;
  rewrite ?cooldown_mark_other by discriminate.

Section Layers.

Variables (now : number) (src : string) (last : MetricsSample).

Lemma absoluteLayer_snd (acc : Acc) :
  snd (absoluteLayer now src last acc)
  = snd acc
    ++ flat_map (fun t => if absFire now last (fst acc) t then [absEvent src last t] else [])
         (spikeKinds ++ [disk_full]).
Proof.
  destruct acc as [tbl out]. unfold absoluteLayer. rewrite !emit_snd, !emit_fst. cbn [fst snd].
  unfold absFire, absEvent, spikeKinds. cbn [flat_map app].
  rewrite <- !app_assoc, app_nil_r.
  repeat split_rule; reflexivity.
Qed.

Lemma absoluteLayer_fst (acc : Acc) (t : AiEventType) :
  fst (absoluteLayer now src last acc) t
  = if absFire now last (fst acc) t then Some now else fst acc t.
Proof.
  destruct acc as [tbl out]. unfold absoluteLayer. rewrite !emit_fst. cbn [fst snd].
  destruct t; cbn [absFire]; repeat split_rule; reflexivity.
Qed.

Variable baseline : list MetricsSample.

Lemma statisticalLayer_snd (acc : Acc) :
  snd (statisticalLayer now src last baseline acc)
  = snd acc
    ++ flat_map
         (fun t => if statFire now last baseline (fst acc) t
                   then [statEvent src last t] else [])
         spikeKinds.
Proof.
  destruct acc as [tbl out]. unfold statisticalLayer. rewrite !emit_snd, !emit_fst. cbn [fst snd].
  unfold statFire, statEvent, spikeKinds. cbn [flat_map app].
  rewrite <- !app_assoc, app_nil_r.
  repeat split_rule; reflexivity.
Qed.

Lemma statisticalLayer_fst (acc : Acc) (t : AiEventType) :
  fst (statisticalLayer now src last baseline acc) t
  = if statFire now last baseline (fst acc) t then Some now else fst acc t.
Proof.
  destruct acc as [tbl out]. unfold statisticalLayer. rewrite !emit_fst. cbn [fst snd].
  destruct t; cbn [statFire]; repeat split_rule; reflexivity.
Qed.

(** The statistical condition reads the table at its own kind only. *)
Lemma statFire_ext (tbl tbl' : SpikeTable) (t : AiEventType) :
  tbl t = tbl' t -> statFire now last baseline tbl t = statFire now last baseline tbl' t.
Proof.
  intros H. destruct t; try reflexivity; unfold statFire, cooldown; rewrite H;
    reflexivity.
Qed.

(** A value of 95 or more is outside the band of the statistical layer. *)
Lemma absFire_statFire_excl (tbl tbl' : SpikeTable) (t : AiEventType) :
  absFire now last tbl t = true -> statFire now last baseline tbl' t = false.
Proof.
  destruct t; try reflexivity; unfold absFire, statFire; intros H;
    apply andb_true_iff in H; destruct H as [H _];
    apply geb_ltb_excl in H; rewrite H; reflexivity.
Qed.

(** So the table the absolute layer leaves decides the statistical rules as
    the table it started from does. *)
Lemma statFire_after_absolute (acc : Acc) (t : AiEventType) :
  statFire now last baseline (fst (absoluteLayer now src last acc)) t
  = statFire now last baseline (fst acc) t.
Proof.
  destruct (absFire now last (fst acc) t) eqn:E.
  - rewrite !(absFire_statFire_excl (fst acc) _ t E). reflexivity.
  - apply statFire_ext. rewrite absoluteLayer_fst, E. reflexivity.
Qed.

End Layers.

(** ** [detectRamLeak] and [detect] as a whole *)

Lemma detectRamLeak_spec (now : number) (d : AnomalyDetector) :
  detectRamLeak now d
  = if leakFire now d
    then (mkDetector (window d) now (lastSpikeAtMs d), Some (leakEvent d))
    else (d, None).
Proof.
  unfold detectRamLeak, leakFire, leakTest, leakSeries, leakEvent.
  destruct (now - lastLeakAtMs d <? 20000); [ reflexivity | ].
  destruct (length (sliceLast 25 (window d)) <? 25)%nat; [ reflexivity | ].
  cbn [negb andb].
  match goal with |- context [if ?c then (_, Some _) else _] => destruct c end;
    reflexivity.
Qed.

(** [detectRamLeak] does not read the cooldown table. *)
Lemma leakFire_table (now : number) (w : list MetricsSample) (l : number)
    (tbl tbl' : SpikeTable) :
  leakFire now (mkDetector w l tbl) = leakFire now (mkDetector w l tbl').
Proof. reflexivity. Qed.

Lemma lastOf_None {A : Type} (l : list A) : lastOf l = None -> l = [].
Proof.
  unfold lastOf. intros H. apply nth_error_None in H.
  destruct l; [ reflexivity | simpl in H; lia ].
Qed.

Lemma lastOf_Some {A : Type} (l : list A) (x : A) : lastOf l = Some x -> l <> [].
Proof. intros H E. subst l. discriminate. Qed.

(** The events of [detect] are those of the absolute layer, then those of
    the statistical layer, then the leak event. *)
Lemma detect_snd (now : number) (src : string) (d : AnomalyDetector) :
  snd (detect now src d)
  = absoluteEvents now src d ++ statisticalEvents now src d ++ leakEvents now d.
Proof.
  unfold detect, absoluteEvents, statisticalEvents, leakEvents.
  destruct (lastOf (window d)) as [last | ] eqn:L.
  - apply lastOf_Some in L.
    destruct (window d) as [ | m w] eqn:W; [ congruence | ]. rewrite <- W.
    fold (baselineOf (window d)).
    destruct (length (window d) <? 8)%nat.
    + cbn [snd]. rewrite app_nil_r. reflexivity.
    + rewrite !statisticalLayer_snd. cbn [fst snd app].
      rewrite !detectRamLeak_spec.
      match goal with
      | |- context [leakFire now (mkDetector ?w ?l ?t)] =>
          rewrite (leakFire_table now w l t (lastSpikeAtMs d))
      end.
      replace (mkDetector (window d) (lastLeakAtMs d) (lastSpikeAtMs d)) with d
        by (destruct d; reflexivity).
      destruct (leakFire now d); cbn [snd fst app];
        rewrite <- ?app_assoc, ?app_nil_r; reflexivity.
  - apply lastOf_None in L. rewrite L. reflexivity.
Qed.

Lemma detect_window (now : number) (src : string) (d : AnomalyDetector) :
  window (fst (detect now src d)) = window d.
Proof.
  unfold detect. destruct (lastOf (window d)); [ | reflexivity ].
  destruct (length (window d) <? 8)%nat; [ reflexivity | ].
  rewrite detectRamLeak_spec.
  match goal with |- context [leakFire ?n ?x] => destruct (leakFire n x) end;
    reflexivity.
Qed.

Lemma detect_lastLeakAtMs (now : number) (src : string) (d : AnomalyDetector) :
  lastLeakAtMs (fst (detect now src d))
  = match leakEvents now d with [] => lastLeakAtMs d | _ => now end.
Proof.
  unfold detect, leakEvents.
  destruct (lastOf (window d)) as [last | ] eqn:L.
  - apply lastOf_Some in L.
    destruct (window d) as [ | m w] eqn:W; [ congruence | ]. rewrite <- W.
    destruct (length (window d) <? 8)%nat; [ reflexivity | ].
    rewrite !detectRamLeak_spec.
    match goal with
    | |- context [leakFire now (mkDetector ?w ?l ?t)] =>
        rewrite (leakFire_table now w l t (lastSpikeAtMs d))
    end.
    replace (mkDetector (window d) (lastLeakAtMs d) (lastSpikeAtMs d)) with d
      by (destruct d; reflexivity).
    destruct (leakFire now d); reflexivity.
  - apply lastOf_None in L. rewrite L. reflexivity.
Qed.

Lemma absoluteEvents_spec (now : number) (src : string) (d : AnomalyDetector)
    (last : MetricsSample) :
  lastOf (window d) = Some last ->
  absoluteEvents now src d
  = flat_map
      (fun t => if absFire now last (lastSpikeAtMs d) t then [absEvent src last t] else [])
      (spikeKinds ++ [disk_full]).
Proof.
  intros L. unfold absoluteEvents. rewrite L, absoluteLayer_snd. reflexivity.
Qed.

Lemma statisticalEvents_spec (now : number) (src : string) (d : AnomalyDetector)
    (last : MetricsSample) :
  lastOf (window d) = Some last ->
  (8 <= length (window d))%nat ->
  statisticalEvents now src d
  = flat_map
      (fun t => if statFire now last (baselineOf (window d)) (lastSpikeAtMs d) t
                then [statEvent src last t] else [])
      spikeKinds.
Proof.
  intros L H. unfold statisticalEvents. rewrite L.
  destruct (Nat.ltb_spec (length (window d)) 8) as [H' | _]; [ lia | ].
  rewrite statisticalLayer_snd. cbn [fst snd app].
  apply flat_map_ext. intros t. rewrite statFire_after_absolute. reflexivity.
Qed.

(* ================================================================== *)
(** * The bounded window *)
(* ================================================================== *)

Section Window.

Lemma shiftWhileOver_le (w : list MetricsSample) :
  (length (shiftWhileOver w) <= max)%nat.
Proof.
  induction w as [ | x w IH]; [ simpl; lia | ].
  cbn [shiftWhileOver].
  destruct (Nat.ltb_spec max (length (x :: w))); [ exact IH | lia ].
Qed.

Lemma shiftWhileOver_id (w : list MetricsSample) :
  (length w <= max)%nat -> shiftWhileOver w = w.
Proof.
  intros H. destruct w as [ | x w]; [ reflexivity | ].
  cbn [shiftWhileOver].
  destruct (Nat.ltb_spec max (length (x :: w))); [ lia | reflexivity ].
Qed.

Lemma shiftWhileOver_one (x : MetricsSample) (w : list MetricsSample) :
  length w = max -> shiftWhileOver (x :: w) = w.
Proof.
  intros H. cbn [shiftWhileOver].
  destruct (Nat.ltb_spec max (length (x :: w))) as [_ | H'];
    [ apply shiftWhileOver_id; lia | cbn [length] in H'; lia ].
Qed.

Lemma push_le (m : MetricsSample) (d : AnomalyDetector) :
  (length (window (push m d)) <= max)%nat.
Proof. apply shiftWhileOver_le. Qed.

Lemma push_below (m : MetricsSample) (d : AnomalyDetector) :
  (length (window d) < max)%nat -> window (push m d) = window d ++ [m].
Proof.
  intros H. unfold push. cbn [window]. apply shiftWhileOver_id.
  rewrite length_app. cbn [length]. lia.
Qed.

Lemma push_full (m : MetricsSample) (d : AnomalyDetector) :
  length (window d) = max -> window (push m d) = tl (window d) ++ [m].
Proof.
  intros H. unfold push. cbn [window].
  destruct (window d) as [ | x w]; [ discriminate | ].
  cbn [app tl]. apply shiftWhileOver_one.
  rewrite length_app. cbn [length] in *. lia.
Qed.

Lemma pushAll_snoc (ms : list MetricsSample) (m : MetricsSample) (d : AnomalyDetector) :
  pushAll (ms ++ [m]) d = push m (pushAll ms d).
Proof. unfold pushAll. rewrite fold_left_app. reflexivity. Qed.

Lemma pushAll_le (ms : list MetricsSample) (d : AnomalyDetector) :
  (length (window d) <= max)%nat -> (length (window (pushAll ms d)) <= max)%nat.
Proof.
  induction ms as [ | m ms IH] using rev_ind; intros H; [ exact H | ].
  rewrite pushAll_snoc. apply push_le.
Qed.

(** C1. After any sequence of [push] calls on a new detector the window
    holds at most 120 samples; a [push] on a window of 120 samples drops the
    oldest one and appends the new one behind the others, which keep their
    order; below 120 samples nothing is dropped. A [push] leaves at most 120
    samples on any detector at all. *)
Theorem push_ring_buffer (ms : list MetricsSample) (m : MetricsSample) :
  let d := pushAll ms newDetector in
  (length (window d) <= 120)%nat
  /\ (length (window d) = 120%nat -> window (push m d) = tl (window d) ++ [m])
  /\ ((length (window d) < 120)%nat -> window (push m d) = window d ++ [m])
  /\ (forall d' : AnomalyDetector, (length (window (push m d')) <= 120)%nat).
Proof.
  cbv zeta. split; [ | split; [ | split ] ].
  - apply (pushAll_le ms newDetector). simpl. unfold max. lia.
  - apply push_full.
  - apply push_below.
  - intros d'. apply push_le.
Qed.

(** The window holds exactly 120 numbered samples; the next [push] drops
    sample 0 and keeps samples 1 to 120 in order. *)
Lemma push_ring_buffer_witness :
  length (window (pushAll (map numbered (seq 0 120)) newDetector)) = 120%nat
  /\ window (push (numbered 120) (pushAll (map numbered (seq 0 120)) newDetector))
     = map numbered (seq 1 120).
Proof.
  destruct (push_ring_buffer (map numbered (seq 0 120)) (numbered 120))
    as [_ [H _]].
  split; [ vm_compute; reflexivity | ].
  rewrite H by (vm_compute; reflexivity). vm_compute. reflexivity.
Defined.

(** The loop of [push] keeps the last 120 entries. *)
Lemma shiftWhileOver_sliceLast (w : list MetricsSample) :
  shiftWhileOver w = sliceLast max w.
Proof.
  unfold sliceLast. induction w as [ | x w IH]; [ reflexivity | ].
  cbn [shiftWhileOver].
  destruct (Nat.ltb_spec max (length (x :: w))) as [H | H]; cbn [length] in *.
  - rewrite IH. replace (S (length w) - max)%nat with (S (length w - max)) by lia.
    reflexivity.
  - replace (S (length w) - max)%nat with 0%nat by lia. reflexivity.
Qed.

Lemma lastOf_snoc {A : Type} (l : list A) (x : A) : lastOf (l ++ [x]) = Some x.
Proof.
  unfold lastOf. rewrite length_app. cbn [length].
  replace (length l + 1 - 1)%nat with (length l) by lia.
  rewrite nth_error_app2 by lia. rewrite Nat.sub_diag. reflexivity.
Qed.

Lemma lastOf_skipn {A : Type} (k : nat) (l : list A) :
  (k < length l)%nat -> lastOf (skipn k l) = lastOf l.
Proof.
  intros H. unfold lastOf. rewrite length_skipn, nth_error_skipn.
  f_equal. lia.
Qed.

Lemma push_lastOf (m : MetricsSample) (d : AnomalyDetector) :
  lastOf (window (push m d)) = Some m.
Proof.
  unfold push. cbn [window]. rewrite shiftWhileOver_sliceLast. unfold sliceLast.
  rewrite lastOf_skipn; [ apply lastOf_snoc | ].
  rewrite length_app. cbn [length]. unfold max. lia.
Qed.

End Window.

(* ================================================================== *)
(** * The events of one kind in a result of [detect] *)
(* ================================================================== *)

Section PerKind.

Variables (now : number) (src : string) (d : AnomalyDetector) (last : MetricsSample).
Hypothesis Hlast : lastOf (window d) = Some last.

Lemma eventsOfKind_app (t : AiEventType) (l1 l2 : list AiEvent) :
  eventsOfKind t (l1 ++ l2) = eventsOfKind t l1 ++ eventsOfKind t l2.
Proof. apply filter_app. Qed.

Lemma eventsOfKind_absolute (t : AiEventType) :
  eventsOfKind t (absoluteEvents now src d)
  = if absFire now last (lastSpikeAtMs d) t then [absEvent src last t] else [].
Proof.
  rewrite (absoluteEvents_spec now src d last Hlast).
  unfold spikeKinds. cbn [app flat_map]. rewrite app_nil_r.
  destruct t; cbn [absFire absEvent];
    repeat match goal with
      | |- context [if ?c then [_] else []] => destruct c
      end; reflexivity.
Qed.

Lemma eventsOfKind_statistical (t : AiEventType) :
  eventsOfKind t (statisticalEvents now src d)
  = if statActive now d last t then [statEvent src last t] else [].
Proof.
  unfold statActive.
  destruct (Nat.leb_spec 8 (length (window d))) as [H | H].
  - rewrite (statisticalEvents_spec now src d last Hlast H).
    unfold spikeKinds. cbn [flat_map andb]. rewrite app_nil_r.
    destruct t; cbn [statFire statEvent];
      repeat match goal with
        | |- context [if ?c then [_] else []] => destruct c
        end; reflexivity.
  - unfold statisticalEvents. rewrite Hlast.
    destruct (Nat.ltb_spec (length (window d)) 8); [ reflexivity | lia ].
Qed.

Lemma leakEvents_spec :
  leakEvents now d
  = if (8 <=? length (window d))%nat && leakFire now d then [leakEvent d] else [].
Proof.
  unfold leakEvents. pose proof (lastOf_Some _ _ Hlast) as N.
  destruct (window d) as [ | m w] eqn:W; [ congruence | ]. rewrite <- W.
  destruct (Nat.leb_spec 8 (length (window d))) as [H | H];
    destruct (Nat.ltb_spec (length (window d)) 8) as [H' | H']; try lia;
    [ | reflexivity ].
  rewrite detectRamLeak_spec. cbn [andb].
  destruct (leakFire now d); reflexivity.
Qed.

Lemma eventsOfKind_leak (t : AiEventType) :
  eventsOfKind t (leakEvents now d)
  = if AiEventType_eqb ram_leak t then leakEvents now d else [].
Proof.
  rewrite leakEvents_spec.
  destruct ((8 <=? length (window d))%nat && leakFire now d);
    destruct t; reflexivity.
Qed.

(** At most one layer fires a kind. *)
Lemma absFire_statActive_excl (t : AiEventType) :
  absFire now last (lastSpikeAtMs d) t = true -> statActive now d last t = false.
Proof.
  intros H. unfold statActive.
  rewrite (absFire_statFire_excl now last _ _ _ t H). apply andb_false_r.
Qed.

(** The cooldown table [detect] leaves. *)
Lemma detect_lastSpikeAtMs (t : AiEventType) :
  lastSpikeAtMs (fst (detect now src d)) t
  = if absFire now last (lastSpikeAtMs d) t || statActive now d last t
    then Some now else lastSpikeAtMs d t.
Proof.
  unfold detect, statActive. rewrite Hlast. fold (baselineOf (window d)).
  destruct (Nat.leb_spec 8 (length (window d))) as [H | H];
    destruct (Nat.ltb_spec (length (window d)) 8) as [H' | H']; try lia.
  - rewrite detectRamLeak_spec.
    match goal with |- context [leakFire ?n ?x] => destruct (leakFire n x) end;
      cbn [fst lastSpikeAtMs andb];
      rewrite statisticalLayer_fst, statFire_after_absolute, absoluteLayer_fst;
      cbn [fst];
      destruct (absFire now last (lastSpikeAtMs d) t);
      destruct (statFire now last (baselineOf (window d)) (lastSpikeAtMs d) t);
      reflexivity.
  - cbn [fst lastSpikeAtMs andb]. rewrite absoluteLayer_fst, orb_false_r.
    reflexivity.
Qed.

End PerKind.

(** ** Subtracting zero *)

Lemma sub_zero_r (x : float) : x - 0 = x.
Proof.
  apply Prim2SF_inj. rewrite sub_spec.
  replace (Prim2SF 0) with (S754_zero false) by reflexivity.
  unfold SF64sub. destruct (Prim2SF x) as [[ | ] | [ | ] | | s m e]; reflexivity.
Qed.

Lemma cooldown_empty (now ms : number) (t : AiEventType) :
  cooldown now emptyTable t ms = (now <? ms).
Proof. unfold cooldown, emptyTable. cbn [nullish]. rewrite sub_zero_r. reflexivity. Qed.

Lemma eventsOfKind_detect (now : number) (src : string) (d : AnomalyDetector)
    (last : MetricsSample) (t : AiEventType) :
  lastOf (window d) = Some last ->
  eventsOfKind t (snd (detect now src d))
  = (if absFire now last (lastSpikeAtMs d) t then [absEvent src last t] else [])
    ++ (if statActive now d last t then [statEvent src last t] else [])
    ++ (if AiEventType_eqb ram_leak t then leakEvents now d else []).
Proof.
  intros L. rewrite detect_snd, !eventsOfKind_app.
  rewrite (eventsOfKind_absolute now src d last L),
    (eventsOfKind_statistical now src d last L),
    (eventsOfKind_leak now d last L).
  reflexivity.
Qed.

(* ================================================================== *)
(** * The CPU threshold and its cooldown *)
(* ================================================================== *)

Section CpuSpike.

(** With a latest CPU reading of 96 the cooldown alone decides. *)
Lemma detect_cpu_96 (now : number) (src : string) (d : AnomalyDetector)
    (last : MetricsSample) :
  lastOf (window d) = Some last ->
  cpu last = 96 ->
  eventsOfKind cpu_spike (snd (detect now src d))
  = (if cooldown now (lastSpikeAtMs d) cpu_spike 15000 then [] else [cpuCritical src last])
  /\ lastSpikeAtMs (fst (detect now src d)) cpu_spike
     = (if cooldown now (lastSpikeAtMs d) cpu_spike 15000
        then lastSpikeAtMs d cpu_spike else Some now).
Proof.
  intros L C.
  rewrite (eventsOfKind_detect now src d last cpu_spike L),
    (detect_lastSpikeAtMs now src d last L).
  unfold statActive. cbn [absFire statFire absEvent AiEventType_eqb]. rewrite C.
  replace (96 >=? 95) with true by reflexivity.
  replace (96 <? 95) with false by reflexivity.
  cbn [andb]. rewrite andb_false_r. cbn [app orb].
  destruct (cooldown now (lastSpikeAtMs d) cpu_spike 15000); split; reflexivity.
Qed.

(** C2. A new detector whose one sample has [cpu = 96] returns one
    [cpu_spike] event, of severity critical (the clock reads at least 15 s
    past the epoch). A [detect] on a further [cpu = 96] sample less than
    15 s after that event returns no [cpu_spike]; one on a [cpu = 96] sample
    at least 15 s after it returns the critical [cpu_spike] again. *)
Theorem cpu_spike_cooldown (m1 m2 m3 : MetricsSample) (src : string)
    (now1 now2 now3 : number)
    (H1 : cpu m1 = 96) (H2 : cpu m2 = 96) (H3 : cpu m3 = 96)
    (Hclock : (now1 >=? 15000) = true)
    (Hwithin : (now2 - now1 <? 15000) = true)
    (Hafter : (now3 - now1 >=? 15000) = true) :
  let r1 := detect now1 src (push m1 newDetector) in
  let r2 := detect now2 src (push m2 (fst r1)) in
  let r3 := detect now3 src (push m3 (fst r2)) in
  eventsOfKind cpu_spike (snd r1) = [cpuCritical src m1]
  /\ eventsOfKind cpu_spike (snd r2) = []
  /\ eventsOfKind cpu_spike (snd r3) = [cpuCritical src m3].
Proof.
  cbv zeta.
  destruct (detect_cpu_96 now1 src (push m1 newDetector) m1 (push_lastOf _ _) H1)
    as [E1 T1].
  cbn [push lastSpikeAtMs newDetector] in E1, T1.
  rewrite (cooldown_empty now1 15000 cpu_spike) in E1, T1.
  rewrite (geb_ltb_excl _ _ Hclock) in E1, T1.
  set (d1 := fst (detect now1 src (push m1 newDetector))) in *.
  destruct (detect_cpu_96 now2 src (push m2 d1) m2 (push_lastOf _ _) H2)
    as [E2 T2].
  assert (C2 : cooldown now2 (lastSpikeAtMs (push m2 d1)) cpu_spike 15000 = true).
  { unfold cooldown. cbn [push lastSpikeAtMs]. rewrite T1. exact Hwithin. }
  rewrite C2 in E2, T2. cbn [push lastSpikeAtMs] in T2. rewrite T1 in T2.
  set (d2 := fst (detect now2 src (push m2 d1))) in *.
  destruct (detect_cpu_96 now3 src (push m3 d2) m3 (push_lastOf _ _) H3)
    as [E3 _].
  assert (C3 : cooldown now3 (lastSpikeAtMs (push m3 d2)) cpu_spike 15000 = false).
  { unfold cooldown. cbn [push lastSpikeAtMs]. rewrite T2.
    apply geb_ltb_excl. exact Hafter. }
  rewrite C3 in E3.
  split; [ exact E1 | split; [ exact E2 | exact E3 ] ].
Qed.

(** The scenario at concrete readings of the clock: the first event at
    1.7e12 ms, the second call 10 s later, the third 15 s later. *)
Lemma cpu_spike_cooldown_witness :
  let m := sampleOf 96 40 10 in
  let r1 := detect 1700000000000 "local" (push m newDetector) in
  let r2 := detect 1700000010000 "local" (push m (fst r1)) in
  let r3 := detect 1700000015000 "local" (push m (fst r2)) in
  eventsOfKind cpu_spike (snd r1) = [cpuCritical "local" m]
  /\ eventsOfKind cpu_spike (snd r2) = []
  /\ eventsOfKind cpu_spike (snd r3) = [cpuCritical "local" m].
Proof.
  exact (cpu_spike_cooldown (sampleOf 96 40 10) (sampleOf 96 40 10)
           (sampleOf 96 40 10) "local"
           1700000000000 1700000010000 1700000015000
           eq_refl eq_refl eq_refl eq_refl eq_refl eq_refl).
Defined.

End CpuSpike.

(* ================================================================== *)
(** * One event per kind and tick *)
(* ================================================================== *)

Section Distinct.

Variables (now : number) (src : string) (d : AnomalyDetector).

Lemma statisticalEvents_active (last : MetricsSample) :
  lastOf (window d) = Some last ->
  statisticalEvents now src d
  = flat_map
      (fun t => if statActive now d last t then [statEvent src last t] else [])
      spikeKinds.
Proof.
  intros L. unfold statActive.
  destruct (Nat.leb_spec 8 (length (window d))) as [H | H].
  - rewrite (statisticalEvents_spec now src d last L H). reflexivity.
  - unfold statisticalEvents. rewrite L.
    destruct (Nat.ltb_spec (length (window d)) 8); [ reflexivity | lia ].
Qed.

Lemma detect_empty : lastOf (window d) = None -> snd (detect now src d) = [].
Proof. intros L. unfold detect. rewrite L. reflexivity. Qed.

Lemma In_eventsOfKind (t : AiEventType) (evs : list AiEvent) :
  In t (map type evs) -> eventsOfKind t evs <> [].
Proof.
  intros I. apply in_map_iff in I. destruct I as [e [T I]].
  assert (F : In e (eventsOfKind t evs)).
  { apply filter_In. split; [ exact I | ]. unfold AiEventType_eqb.
    destruct (AiEventType_eq_dec (type e) t); congruence. }
  intros N. rewrite N in F. exact F.
Qed.

(** C6. In the list one [detect] call returns no two events have the same
    kind: whatever the detector state and the clock, the kinds of the
    returned events are pairwise distinct, and every kind occurs at most
    once. Both layers read and write the one table [lastSpikeAtMs] (a
    returned spike or disk event of either layer leaves its kind marked at
    [now] there), and a reading that the absolute layer accepts, 95 or more,
    is outside the band of the statistical layer. *)
Theorem detect_kinds_distinct :
  NoDup (map type (snd (detect now src d)))
  /\ (forall t : AiEventType,
        (length (eventsOfKind t (snd (detect now src d))) <= 1)%nat)
  /\ (forall t : AiEventType,
        In t (map type (snd (detect now src d))) ->
        t = ram_leak \/ lastSpikeAtMs (fst (detect now src d)) t = Some now).
Proof.
  destruct (lastOf (window d)) as [last | ] eqn:L.
  - split; [ | split ].
    + rewrite detect_snd, (absoluteEvents_spec now src d last L),
        (statisticalEvents_active last L), (leakEvents_spec now d last L).
      pose proof (absFire_statActive_excl now d last cpu_spike) as Xc.
      pose proof (absFire_statActive_excl now d last ram_spike) as Xr.
      pose proof (absFire_statActive_excl now d last io_spike) as Xi.
      unfold spikeKinds. cbn [app flat_map]. rewrite !app_nil_r.
      destruct (absFire now last (lastSpikeAtMs d) cpu_spike);
        destruct (statActive now d last cpu_spike);
        try (specialize (Xc eq_refl); discriminate);
        destruct (absFire now last (lastSpikeAtMs d) ram_spike);
        destruct (statActive now d last ram_spike);
        try (specialize (Xr eq_refl); discriminate);
        destruct (absFire now last (lastSpikeAtMs d) io_spike);
        destruct (statActive now d last io_spike);
        try (specialize (Xi eq_refl); discriminate);
        destruct (absFire now last (lastSpikeAtMs d) disk_full);
        destruct ((8 <=? length (window d))%nat && leakFire now d);
        cbn; repeat constructor; cbn; intuition discriminate.
    + intros t. rewrite (eventsOfKind_detect now src d last t L).
      rewrite (leakEvents_spec now d last L).
      pose proof (absFire_statActive_excl now d last t) as X.
      destruct (absFire now last (lastSpikeAtMs d) t) eqn:A.
      * rewrite (X eq_refl).
        destruct t; try discriminate A; cbn; lia.
      * destruct (statActive now d last t) eqn:S.
        -- destruct t; try (unfold statActive in S; cbn in S;
             rewrite andb_false_r in S; discriminate S); cbn; lia.
        -- destruct (AiEventType_eqb ram_leak t);
           destruct ((8 <=? length (window d))%nat && leakFire now d); cbn; lia.
    + intros t I. apply In_eventsOfKind in I.
      rewrite (eventsOfKind_detect now src d last t L) in I.
      rewrite (detect_lastSpikeAtMs now src d last L).
      destruct (absFire now last (lastSpikeAtMs d) t); [ right; reflexivity | ].
      destruct (statActive now d last t); [ right; reflexivity | ].
      unfold AiEventType_eqb in I.
      destruct (AiEventType_eq_dec ram_leak t) as [E | E];
        [ left; symmetry; exact E | exfalso; apply I; reflexivity ].
  - rewrite (detect_empty L).
    split; [ constructor | split; [ intros t; cbn; lia | intros t [] ] ].
Qed.

End Distinct.

(* ================================================================== *)
(** * The statistical layer *)
(* ================================================================== *)

(** ** The code's statistics are those of the specification *)

Lemma fold_left_sumFrom (f : number -> number) (l : list number) (acc : number) :
  fold_left (fun a x => a + f x) l acc = sumFrom acc (map f l).
Proof.
  revert acc. induction l as [ | x l IH]; intros acc; [ reflexivity | ].
  cbn [fold_left map sumFrom]. apply IH.
Qed.

Lemma fold_left_add (l : list number) (acc : number) :
  fold_left (fun a b => a + b) l acc = sumFrom acc l.
Proof.
  revert acc. induction l as [ | x l IH]; intros acc; [ reflexivity | ].
  cbn [fold_left sumFrom]. apply IH.
Qed.

(** [meanStd] returns the mean and the standard deviation of a list that is
    not empty. *)
Lemma meanStd_spec (values : list number) :
  values <> [] -> meanStd values = mkStats (meanOf values) (stdOf values).
Proof.
  intros N. destruct values as [ | v values]; [ congruence | ].
  unfold meanStd, stdOf, meanOf, sumOf.
  rewrite fold_left_add, length_map.
  rewrite (fold_left_sumFrom
             (fun x => (x - sumFrom 0 (v :: values) / ofNat (length (v :: values)))
                       * (x - sumFrom 0 (v :: values) / ofNat (length (v :: values))))).
  reflexivity.
Qed.

(** The test of the code's [z] against a threshold between 0 and 999 is the
    test of the specification. *)
Lemma z_scoreMeets (x : number) (values : list number) (threshold : number) :
  values <> [] ->
  (999 >=? threshold) = true -> (0 >=? threshold) = false ->
  (z x (meanStd values) >=? threshold) = scoreMeets x values threshold.
Proof.
  intros N Hi Lo. rewrite (meanStd_spec values N).
  unfold z, scoreMeets. cbn [mean std].
  destruct (stdOf values >? 0.001); [ reflexivity | ].
  destruct (x >=? meanOf values + 5); assumption.
Qed.

Lemma dropLast_length {A : Type} (l : list A) :
  length (dropLast l) = (length l - 1)%nat.
Proof.
  unfold dropLast. induction l as [ | x [ | y l] IH]; [ reflexivity | reflexivity | ].
  change (removelast (x :: y :: l)) with (x :: removelast (y :: l)).
  cbn [length] in *. rewrite IH. lia.
Qed.

Section Statistical.

Variables (now : number) (src : string) (d : AnomalyDetector) (last : MetricsSample).
Hypothesis Hlast : lastOf (window d) = Some last.

Lemma hasKind_statistical (t : AiEventType) :
  hasKind t (statisticalEvents now src d) = statActive now d last t.
Proof.
  rewrite (statisticalEvents_active now src d last Hlast).
  unfold spikeKinds, hasKind. cbn [flat_map]. rewrite app_nil_r.
  assert (O : forall t', In t' [ram_leak; disk_full; agent_unreachable;
                rate_limit_enabled; node_isolated; selfheal_noop] ->
              statActive now d last t' = false).
  { intros t' I. unfold statActive.
    cbn in I; repeat destruct I as [<- | I]; try contradiction;
      apply andb_false_r. }
  destruct (statActive now d last cpu_spike) eqn:C;
    destruct (statActive now d last ram_spike) eqn:R;
    destruct (statActive now d last io_spike) eqn:I;
    destruct t; cbn; try rewrite O by (cbn; tauto); congruence.
Qed.

Lemma baselineOf_long :
  (8 <= length (window d))%nat ->
  baselineOf (window d) = dropLast (sliceLast 60 (window d)).
Proof.
  intros H. unfold baselineOf, sliceLast. rewrite length_skipn.
  destruct (Nat.leb_spec 2 (length (window d) - (length (window d) - 60)));
    [ reflexivity | lia ].
Qed.

Lemma severity_statistical (e : AiEvent) :
  In e (statisticalEvents now src d) -> severity e = warn /\ In (type e) spikeKinds.
Proof.
  rewrite (statisticalEvents_active now src d last Hlast).
  intros I. apply in_flat_map in I. destruct I as [t [It Ie]].
  unfold statActive in Ie.
  destruct ((8 <=? length (window d))%nat); cbn [andb] in Ie; [ | contradiction ].
  destruct (statFire now last (baselineOf (window d)) (lastSpikeAtMs d) t) eqn:F;
    [ | contradiction ].
  destruct Ie as [<- | []].
  unfold spikeKinds in *. cbn in It.
  destruct It as [<- | [<- | [<- | []]]]; cbn [statFire] in F;
    repeat (apply andb_true_iff in F; destruct F as [F ?]);
    apply ltb_geb_excl in F; cbn [statEvent severity type]; rewrite F;
    (split; [ reflexivity | cbn; tauto ]).
Qed.

Lemma baseline_nonempty (f : MetricsSample -> number) :
  (8 <= length (window d))%nat ->
  map f (dropLast (sliceLast 60 (window d))) <> [].
Proof.
  intros H E. apply (f_equal (@length number)) in E.
  rewrite length_map, dropLast_length in E.
  unfold sliceLast in E. rewrite length_skipn in E. cbn in E. lia.
Qed.

(** C7, with "at least [mean + 5]" for "exceeds [mean + 5]". From 8
    samples on, the statistical layer emits the spike of a gauge exactly
    when its latest value is in the band [85, 95), its z-score over the
    baseline meets 2.8 (CPU, RAM) or 2.6 (I/O), and the kind is not in
    cooldown. The baseline is the last 60 samples without the newest. The
    z-score is read in the words of the specification ([scoreMeets], over
    the mean [meanOf] and the standard deviation [stdOf] of the baseline):
    the quotient [(latest - mean) / std] when [std > 0.001], and saturated
    over a degenerate baseline when the value is at least [mean + 5]. Every
    event of the layer has severity warn. The events of the layer are those
    [detect] returns between the events of the absolute layer and the leak
    event. *)
Theorem statistical_layer_fires (Hlen : (8 <= length (window d))%nat) :
  let base := dropLast (sliceLast 60 (window d)) in
  let tbl := lastSpikeAtMs d in
  snd (detect now src d)
  = absoluteEvents now src d ++ statisticalEvents now src d ++ leakEvents now d
  /\ length base = (Nat.min 60 (length (window d)) - 1)%nat
  /\ hasKind cpu_spike (statisticalEvents now src d)
  = (cpu last >=? 85) && (cpu last <? 95)
    && scoreMeets (cpu last) (map cpu base) 2.8
    && negb (cooldown now tbl cpu_spike 15000)
  /\ hasKind ram_spike (statisticalEvents now src d)
     = (ram last >=? 85) && (ram last <? 95)
       && scoreMeets (ram last) (map ram base) 2.8
       && negb (cooldown now tbl ram_spike 15000)
  /\ hasKind io_spike (statisticalEvents now src d)
     = (io last >=? 85) && (io last <? 95)
       && scoreMeets (io last) (map io base) 2.6
       && negb (cooldown now tbl io_spike 12000)
  /\ (forall e, In e (statisticalEvents now src d) ->
        severity e = warn /\ In (type e) spikeKinds).
Proof.
  cbv zeta. split; [ apply detect_snd | ].
  split; [ rewrite dropLast_length; unfold sliceLast; rewrite length_skipn; lia | ].
  rewrite !hasKind_statistical. unfold statActive.
  rewrite (baselineOf_long Hlen).
  destruct (Nat.leb_spec 8 (length (window d))) as [_ | H]; [ | lia ].
  cbn [andb statFire].
  rewrite (z_scoreMeets (cpu last) _ 2.8 (baseline_nonempty cpu Hlen) eq_refl eq_refl).
  rewrite (z_scoreMeets (ram last) _ 2.8 (baseline_nonempty ram Hlen) eq_refl eq_refl).
  rewrite (z_scoreMeets (io last) _ 2.6 (baseline_nonempty io Hlen) eq_refl eq_refl).
  repeat split.
  - rewrite (andb_comm (cpu last >=? 85)). reflexivity.
  - rewrite (andb_comm (ram last >=? 85)). reflexivity.
  - rewrite (andb_comm (io last >=? 85)). reflexivity.
  - apply (severity_statistical e H).
  - apply (severity_statistical e H).
Qed.

End Statistical.

(** Seven readings around 40 and then 90: the layer fires [cpu_spike] below
    the absolute threshold of 95. *)
Lemma statistical_layer_fires_witness :
  hasKind cpu_spike
    (statisticalEvents 1700000000000 "local" (pushAll clusteredHistory newDetector))
  = true.
Proof.
  destruct (statistical_layer_fires 1700000000000 "local"
              (pushAll clusteredHistory newDetector) (sampleOf 90 40 10)
              eq_refl (le_n 8)) as [_ [_ [H _]]].
  rewrite H. vm_compute. reflexivity.
Defined.

(** C7 as stated fails on the boundary: over a baseline of seven readings of
    80 the mean is 80 and the standard deviation is 0, a latest value of 85
    does not exceed [mean + 5 = 85], and the layer emits [cpu_spike] all the
    same, which [detect] returns. *)
Lemma statistical_layer_boundary :
  let d := pushAll flatHistory newDetector in
  let base := map cpu (dropLast (sliceLast 60 (window d))) in
  lastOf (window d) = Some (sampleOf 85 40 10)
  /\ meanOf base = 80 /\ stdOf base = 0
  /\ (stdOf base >? 0.001) = false
  /\ (85 >? meanOf base + 5) = false
  /\ hasKind cpu_spike (statisticalEvents 1700000000000 "local" d) = true
  /\ hasKind cpu_spike (snd (detect 1700000000000 "local" d)) = true.
Proof. vm_compute. repeat split. Qed.

(* ================================================================== *)
(** * The memory-leak rule *)
(* ================================================================== *)

Section RamLeak.

Variables xMean yMean : number.

(** The [den] of the loop is the sum of the squared deviations of the
    indices, whatever the readings are. *)
Lemma leakLoop_snd (xs ys : list number) (acc : number * number) :
  length xs = length ys ->
  snd (fold_left
         (fun nd xy =>
            (fst nd + (fst xy - xMean) * (snd xy - yMean),
             snd nd + (fst xy - xMean) * (fst xy - xMean)))
         (combine xs ys) acc)
  = fold_left (fun den x => den + (x - xMean) * (x - xMean)) xs (snd acc).
Proof.
  revert ys acc.
  induction xs as [ | x xs IH]; intros [ | y ys] acc H; try discriminate;
    [ reflexivity | ].
  cbn [combine fold_left]. rewrite IH by (cbn in H; lia). reflexivity.
Qed.

Lemma leakSums_snd (xs ys : list number) :
  length xs = length ys ->
  snd (leakSums xMean yMean xs ys)
  = fold_left (fun den x => den + (x - xMean) * (x - xMean)) xs 0.
Proof. intros H. unfold leakSums. rewrite leakLoop_snd by exact H. reflexivity. Qed.

(** The [num] of the loop is the sum of the products of the deviations. *)
Lemma leakLoop_fst (l : list (number * number)) (acc : number * number) :
  fst (fold_left
         (fun nd xy =>
            (fst nd + (fst xy - xMean) * (snd xy - yMean),
             snd nd + (fst xy - xMean) * (fst xy - xMean)))
         l acc)
  = sumFrom (fst acc) (map (fun xy => (fst xy - xMean) * (snd xy - yMean)) l).
Proof.
  revert acc. induction l as [ | xy l IH]; intros acc; [ reflexivity | ].
  cbn [fold_left map sumFrom]. rewrite IH. reflexivity.
Qed.

(** The loop computes the two sums of the least-squares fit. *)
Lemma leakSums_spec (xs ys : list number) :
  length xs = length ys ->
  leakSums xMean yMean xs ys
  = (sumOf (map (fun xy => (fst xy - xMean) * (snd xy - yMean)) (combine xs ys)),
     sumOf (map (fun x => (x - xMean) * (x - xMean)) xs)).
Proof.
  intros H. rewrite (surjective_pairing (leakSums xMean yMean xs ys)).
  rewrite (leakSums_snd xs ys H). unfold leakSums. rewrite leakLoop_fst.
  rewrite (fold_left_sumFrom (fun x => (x - xMean) * (x - xMean))).
  reflexivity.
Qed.

End RamLeak.

(** The slope the code computes over 25 readings is the least-squares slope
    of the specification: the means and the two sums of the loop are those of
    the fit, and the sum of the squared deviations of the indices is 1300, so
    the guard [den > 0] of line 251 holds. *)
Lemma leakSlope_ols (ys : list number) :
  length ys = 25%nat -> leakSlope ys = olsSlope ys.
Proof.
  intros H. unfold leakSlope, olsSlope, meanOf, sumOf.
  rewrite !fold_left_add, length_map, length_seq, H.
  set (xs := map ofNat (seq 0 25)).
  set (xMean := sumFrom 0 xs / ofNat 25).
  set (yMean := sumFrom 0 ys / ofNat 25).
  rewrite (leakSums_spec xMean yMean xs ys) by (rewrite H; reflexivity).
  unfold sumOf.
  assert (D : sumFrom 0 (map (fun x => (x - xMean) * (x - xMean)) xs) = 1300)
    by (vm_compute; reflexivity).
  rewrite D. reflexivity.
Qed.

Lemma lastOf_nonempty {A : Type} (l : list A) :
  (0 < length l)%nat -> exists x, lastOf l = Some x.
Proof.
  intros H. unfold lastOf.
  destruct (nth_error l (length l - 1)) as [x | ] eqn:E; [ eauto | ].
  apply nth_error_None in E. lia.
Qed.

Lemma sliceLast_length {A : Type} (n : nat) (l : list A) :
  length (sliceLast n l) = Nat.min n (length l).
Proof. unfold sliceLast. rewrite length_skipn. lia. Qed.

Lemma sliceLast_all {A : Type} (n : nat) (l : list A) :
  (length l <= n)%nat -> sliceLast n l = l.
Proof.
  intros H. unfold sliceLast.
  replace (length l - n)%nat with 0%nat by lia. reflexivity.
Qed.

Section LeakRule.

Variables (now : number) (src : string) (d : AnomalyDetector).

(** Only [detectRamLeak] produces [ram_leak] events. *)
Lemma eventsOfKind_ram_leak :
  eventsOfKind ram_leak (snd (detect now src d)) = leakEvents now d.
Proof.
  destruct (lastOf (window d)) as [last | ] eqn:L.
  - rewrite (eventsOfKind_detect now src d last ram_leak L).
    unfold statActive. cbn [absFire statFire]. rewrite andb_false_r. reflexivity.
  - rewrite (detect_empty now src d L). apply lastOf_None in L.
    unfold leakEvents. rewrite L. reflexivity.
Qed.

Lemma leakEvents_short :
  (length (window d) < 25)%nat -> leakEvents now d = [].
Proof.
  intros H. unfold leakEvents. destruct (window d) as [ | m w] eqn:W;
    [ reflexivity | ]. rewrite <- W in *.
  destruct (length (window d) <? 8)%nat; [ reflexivity | ].
  rewrite detectRamLeak_spec.
  replace (leakFire now d) with false; [ reflexivity | ].
  unfold leakFire. rewrite sliceLast_length.
  destruct (Nat.ltb_spec (Nat.min 25 (length (window d))) 25); [ | lia ].
  rewrite andb_false_r. reflexivity.
Qed.

Lemma leakEvents_long :
  (25 <= length (window d))%nat ->
  (now - lastLeakAtMs d >=? 20000) = true ->
  leakEvents now d = if leakTest (leakSeries d) then [leakEvent d] else [].
Proof.
  intros H E.
  destruct (lastOf_nonempty (window d)) as [last L]; [ lia | ].
  rewrite (leakEvents_spec now d last L). unfold leakFire.
  rewrite (geb_ltb_excl _ _ E), sliceLast_length.
  destruct (Nat.leb_spec 8 (length (window d))); [ | lia ].
  destruct (Nat.ltb_spec (Nat.min 25 (length (window d))) 25); [ lia | ].
  reflexivity.
Qed.

End LeakRule.

Section LeakScenario.

Variable src : string.

Lemma feed_app (l1 l2 : list (number * MetricsSample)) (d : AnomalyDetector) :
  feed src (l1 ++ l2) d
  = (fst (feed src l2 (fst (feed src l1 d))),
     snd (feed src l1 d) ++ snd (feed src l2 (fst (feed src l1 d)))).
Proof.
  revert d. induction l1 as [ | [t m] l1 IH]; intros d.
  - cbn [app feed fst snd]. destruct (feed src l2 d); reflexivity.
  - cbn [app feed fst snd]. rewrite IH. reflexivity.
Qed.

(** While fewer than 25 samples have arrived no leak is reported and the
    time of the last leak stays as it was. *)
Lemma feed_short (inputs : list (number * MetricsSample)) (d : AnomalyDetector) :
  (length (window d) + length inputs < 25)%nat ->
  window (fst (feed src inputs d)) = window d ++ map snd inputs
  /\ lastLeakAtMs (fst (feed src inputs d)) = lastLeakAtMs d
  /\ map (eventsOfKind ram_leak) (snd (feed src inputs d))
     = repeat [] (length inputs).
Proof.
  revert d. induction inputs as [ | [t m] rest IH]; intros d H.
  - cbn. rewrite app_nil_r. auto.
  - cbn [length] in H. cbn [feed fst snd map length repeat].
    assert (W : window (push m d) = window d ++ [m])
      by (apply push_below; unfold max; lia).
    assert (S : (length (window (push m d)) < 25)%nat)
      by (rewrite W, length_app; cbn [length]; lia).
    destruct (IH (fst (detect t src (push m d)))) as [IW [IL IE]].
    { rewrite detect_window, W, length_app. cbn [length]. lia. }
    rewrite IW, IL, IE, detect_window, W, detect_lastLeakAtMs,
      eventsOfKind_ram_leak, (leakEvents_short t (push m d) S).
    rewrite <- app_assoc. auto.
Qed.

End LeakScenario.

Lemma ram_leak_general (now : number) (src : string) (d : AnomalyDetector) :
  (25 <= length (window d))%nat ->
  (now - lastLeakAtMs d >=? 20000) = true ->
  let ys := map ram (sliceLast 25 (window d)) in
  let latest := nth 24 ys nan in
  let rise := latest - nth 0 ys nan in
  map severity (eventsOfKind ram_leak (snd (detect now src d)))
  = if (latest >=? 80) && (rise >=? 8) && (olsSlope ys >=? 0.22)
    then [if latest >=? 92 then critical else warn] else [].
Proof.
  intros H E. cbv zeta.
  rewrite eventsOfKind_ram_leak, (leakEvents_long now d H E).
  unfold leakTest, leakEvent, leakSeries.
  assert (L : length (map ram (sliceLast 25 (window d))) = 25%nat)
    by (rewrite length_map, sliceLast_length; lia).
  rewrite (leakSlope_ols _ L), L. cbn [Nat.sub].
  match goal with |- context [if ?c then [_] else []] => destruct c end;
    reflexivity.
Qed.

(** C3. With at least 25 samples in the window and at least 20 s since the
    last leak event, [detect] returns a [ram_leak] event exactly when, over
    the last 25 RAM readings, the latest is at least 80, the latest minus
    the first is at least 8 and the least-squares slope against the index
    ([olsSlope], the slope of the fitted line as the specification words it)
    is at least 0.22; its severity is critical when the latest reading is at
    least 92 and warn otherwise, and there is never more than one. For 25
    readings rising linearly from 70 to 90, fed to a new detector one by one,
    the calls on samples 1 to 24 return no [ram_leak] and the call on sample
    25 returns exactly one, of severity warn (the clock reads at least 20 s
    past the epoch). *)
Theorem ram_leak_rule :
  (forall (now : number) (src : string) (d : AnomalyDetector),
     (25 <= length (window d))%nat ->
     (now - lastLeakAtMs d >=? 20000) = true ->
     let ys := map ram (sliceLast 25 (window d)) in
     let latest := nth 24 ys nan in
     let rise := latest - nth 0 ys nan in
     map severity (eventsOfKind ram_leak (snd (detect now src d)))
     = if (latest >=? 80) && (rise >=? 8) && (olsSlope ys >=? 0.22)
       then [if latest >=? 92 then critical else warn] else [])
  /\ (forall (src : string) (before : list (number * MetricsSample))
        (t25 : number) (m25 : MetricsSample),
        map (fun p => ram (snd p)) (before ++ [(t25, m25)]) = ramp70to90 ->
        (t25 >=? 20000) = true ->
        map (fun evs => map severity (eventsOfKind ram_leak evs))
          (snd (feed src (before ++ [(t25, m25)]) newDetector))
        = repeat [] 24 ++ [[warn]]).
Proof.
  split; [ exact ram_leak_general | ].
  intros src before t25 m25 R C.
  assert (N : length before = 24%nat).
  { apply (f_equal (@length number)) in R.
    rewrite length_map, length_app in R. cbn in R. lia. }
  destruct (feed_short src before newDetector) as [W [L O]];
    [ cbn; lia | ].
  cbn [newDetector window lastLeakAtMs app] in W, L.
  rewrite feed_app. cbn [snd feed fst]. rewrite map_app, <- map_map, O, N.
  f_equal. cbn [map]. f_equal.
  set (d24 := fst (feed src before newDetector)) in *.
  assert (W25 : window (push m25 d24) = map snd before ++ [m25]).
  { rewrite push_below by (rewrite W, length_map, N; unfold max; lia).
    rewrite W. reflexivity. }
  rewrite ram_leak_general.
  - rewrite W25, sliceLast_all
      by (rewrite length_app, length_map, N; cbn; lia).
    rewrite <- map_map in R. rewrite map_app in R. cbn [map snd] in R.
    rewrite R. vm_compute. reflexivity.
  - rewrite W25, length_app, length_map, N. cbn. lia.
  - cbn [push lastLeakAtMs]. rewrite L, sub_zero_r. exact C.
Qed.

(** The ramp at concrete clock readings: nothing on samples 1 to 24, one
    [ram_leak] of severity warn on sample 25. *)
Lemma ram_leak_rule_witness :
  map (fun evs => map severity (eventsOfKind ram_leak evs))
    (snd (feed "local" rampInputs newDetector))
  = repeat [] 24 ++ [[warn]].
Proof.
  exact (proj2 ram_leak_rule "local" (firstn 24 rampInputs)
           (1700000000000 + ofNat 24 * 1200)
           (sampleOf 40 (70 + ofNat 24 * 20 / 24) 10)
           eq_refl eq_refl).
Defined.

(* ================================================================== *)
(** * [Math.max], [Math.min] and [clamp] on numbers that are not NaN *)
(* ================================================================== *)

Section MaxMin.

Variables a b : number.

Lemma Math_max_not_nan :
  is_nan (Math_max a b) = false -> is_nan a = false /\ is_nan b = false.
Proof.
  unfold Math_max. destruct (is_nan a); destruct (is_nan b); cbn [orb];
    intros H; try (vm_compute in H; discriminate H); auto.
Qed.

Hypothesis Ha : is_nan a = false.
Hypothesis Hb : is_nan b = false.

Lemma Math_max_cases : Math_max a b = a \/ Math_max a b = b.
Proof.
  unfold Math_max. rewrite Ha, Hb. cbn [orb].
  destruct (a <? b); [ auto | ]. destruct (b <? a); [ auto | ].
  destruct (get_sign a); auto.
Qed.

Lemma Math_min_cases : Math_min a b = a \/ Math_min a b = b.
Proof.
  unfold Math_min. rewrite Ha, Hb. cbn [orb].
  destruct (a <? b); [ auto | ]. destruct (b <? a); [ auto | ].
  destruct (get_sign a); auto.
Qed.

Lemma Math_max_ge_l : (a <=? Math_max a b) = true.
Proof.
  unfold Math_max. rewrite Ha, Hb. cbn [orb].
  destruct (a <? b) eqn:L; [ apply ltb_leb; exact L | ].
  destruct (b <? a) eqn:G; [ apply leb_refl; exact Ha | ].
  destruct (get_sign a); [ apply nltb_leb; assumption | apply leb_refl; exact Ha ].
Qed.

Lemma Math_max_ge_r : (b <=? Math_max a b) = true.
Proof.
  unfold Math_max. rewrite Ha, Hb. cbn [orb].
  destruct (a <? b) eqn:L; [ apply leb_refl; exact Hb | ].
  destruct (b <? a) eqn:G; [ apply ltb_leb; exact G | ].
  destruct (get_sign a); [ apply leb_refl; exact Hb | apply nltb_leb; assumption ].
Qed.

Lemma Math_min_le_l : (Math_min a b <=? a) = true.
Proof.
  unfold Math_min. rewrite Ha, Hb. cbn [orb].
  destruct (a <? b) eqn:L; [ apply leb_refl; exact Ha | ].
  destruct (b <? a) eqn:G; [ apply ltb_leb; exact G | ].
  destruct (get_sign a); [ apply leb_refl; exact Ha | apply nltb_leb; assumption ].
Qed.

Lemma Math_max_is_number : is_nan (Math_max a b) = false.
Proof. destruct Math_max_cases as [-> | ->]; assumption. Qed.

Lemma Math_min_is_number : is_nan (Math_min a b) = false.
Proof. destruct Math_min_cases as [-> | ->]; assumption. Qed.

(** A later deadline that is below the current one leaves it in place. *)
Lemma Math_max_keeps : (b <? a) = true -> Math_max a b = a.
Proof.
  intros G. unfold Math_max. rewrite Ha, Hb, G. cbn [orb].
  replace (a <? b) with false; [ reflexivity | ].
  symmetry. apply geb_ltb_excl. unfold geb. apply ltb_leb. exact G.
Qed.

End MaxMin.

(** [clamp] of a number lies between its bounds. *)
Lemma clamp_range (n lo hi : number) :
  is_nan n = false -> (lo <=? hi) = true ->
  (lo <=? clamp n lo hi) = true /\ (clamp n lo hi <=? hi) = true.
Proof.
  intros Hn Hb. destruct (leb_not_nan _ _ Hb) as [Hlo Hhi]. unfold clamp.
  pose proof (Math_min_is_number hi n Hhi Hn) as Hm.
  split; [ apply Math_max_ge_l; assumption | ].
  destruct (Math_max_cases lo (Math_min hi n) Hlo Hm) as [-> | ->];
    [ exact Hb | apply Math_min_le_l; assumption ].
Qed.

(* ================================================================== *)
(** * The rate-limit window in armed mode *)
(* ================================================================== *)

Section RateLimit.

Variables (h : SelfHealing).
Hypothesis Henabled : enabled (cfg h) = true.
Hypothesis Harmed : mode (cfg h) = armed.

(** What [apply] does with one event that proposes one rate limit. *)
Lemma apply_enable_rate_limit (now : number) (ev : AiEvent) (reason : string)
    (s : number) :
  actions ev = Some [enable_rate_limit reason (Some s)] ->
  fst (apply now [ev] h)
  = mkSelfHealing (cfg h)
      (Math_max (rateLimitUntilMs h) (now + clamp s 5 300 * 1000))
      (isolated h).
Proof.
  intros A. unfold apply. rewrite Henabled. cbn [negb fold_left].
  unfold applyEvent. rewrite A. cbn [nullish fold_left fst snd].
  unfold applyAction. cbn [fst snd]. rewrite Harmed. reflexivity.
Qed.

End RateLimit.

(** ** The window never shortens *)

Section Monotone.

Variable now : number.

(** A run of steps, none of which lowers a reading that stays a number,
    does not lower it. *)
Lemma fold_left_mono {S A : Type} (f : S -> A -> S) (u : S -> number) :
  (forall s a, is_nan (u (f s a)) = false -> (u s <=? u (f s a)) = true) ->
  forall (l : list A) (s : S),
    is_nan (u (fold_left f l s)) = false -> (u s <=? u (fold_left f l s)) = true.
Proof.
  intros Step l. induction l as [ | a l IH]; intros s N; cbn [fold_left] in *.
  - apply leb_refl. exact N.
  - pose proof (IH (f s a) N) as L.
    destruct (leb_not_nan _ _ L) as [Na _].
    apply (leb_trans _ (u (f s a))); [ apply Step; exact Na | exact L ].
Qed.

Lemma applyAction_mono (st : SelfHealing * list AiAction) (a : AiAction) :
  is_nan (rateLimitUntilMs (fst (applyAction now a st))) = false ->
  (rateLimitUntilMs (fst st) <=? rateLimitUntilMs (fst (applyAction now a st))) = true.
Proof.
  unfold applyAction. destruct (mode (cfg (fst st)));
    [ cbn [fst]; apply leb_refl | ].
  destruct a; cbn [fst rateLimitUntilMs]; try apply leb_refl.
  intros N. destruct (Math_max_not_nan _ _ N) as [Na Nb].
  apply Math_max_ge_l; assumption.
Qed.

Lemma applyEvent_mono (st : SelfHealing * list AiEvent) (ev : AiEvent) :
  is_nan (rateLimitUntilMs (fst (applyEvent now ev st))) = false ->
  (rateLimitUntilMs (fst st) <=? rateLimitUntilMs (fst (applyEvent now ev st))) = true.
Proof.
  unfold applyEvent. destruct (actions ev ?? []) as [ | a acts];
    [ cbn [fst]; apply leb_refl | ].
  cbn [fst].
  apply (fold_left_mono (fun s a => applyAction now a s)
           (fun s => rateLimitUntilMs (fst s))
           (fun s a => applyAction_mono s a) (a :: acts) (fst st, [])).
Qed.

Lemma apply_mono (events : list AiEvent) (h : SelfHealing) :
  is_nan (rateLimitUntilMs (fst (apply now events h))) = false ->
  (rateLimitUntilMs h <=? rateLimitUntilMs (fst (apply now events h))) = true.
Proof.
  unfold apply. destruct (enabled (cfg h)); cbn [negb fst];
    [ | apply leb_refl ].
  apply (fold_left_mono (fun s ev => applyEvent now ev s)
           (fun s => rateLimitUntilMs (fst s))
           (fun s ev => applyEvent_mono s ev) events (h, [])).
Qed.

(** The deadline of an action is a number when the clock reading is finite
    and the seconds are a number. *)
Lemma deadline_is_number (s : number) :
  is_finite now = true -> is_nan s = false ->
  is_nan (now + clamp s 5 300 * 1000) = false.
Proof.
  intros F N. apply add_is_number; [ exact F | ].
  apply mul_1000_is_number. unfold clamp.
  apply Math_max_is_number; [ reflexivity | ].
  apply Math_min_is_number; [ reflexivity | exact N ].
Qed.

End Monotone.

(** X24. The rate-limit window for a [seconds] value that is a number. With
    the policy enabled and
    in armed mode, applying an [enable_rate_limit] action clamps its seconds
    into [5, 300] and sets [rateLimitUntilMs] to the maximum of its previous
    value and now plus the clamped seconds (in milliseconds), leaving the
    rest of the controller as it was; with a finite clock reading and a
    previous value that is a number, the new value is a number, at least the
    previous one and at least the new deadline. No call of [apply], whatever
    its events, lowers [rateLimitUntilMs] as long as it stays a number. With
    30 seconds the window reaches at least [now + 30000]; a following action
    with 10 seconds leaves it at least as long, and unchanged when its
    deadline falls inside it. *)
Theorem enable_rate_limit_extends :
  (forall (h : SelfHealing) (now : number) (ev : AiEvent) (reason : string)
      (s : number),
      enabled (cfg h) = true -> mode (cfg h) = armed ->
      actions ev = Some [enable_rate_limit reason (Some s)] ->
      is_nan s = false ->
      let sec := clamp s 5 300 in
      let h' := fst (apply now [ev] h) in
      (5 <=? sec) = true /\ (sec <=? 300) = true
      /\ rateLimitUntilMs h' = Math_max (rateLimitUntilMs h) (now + sec * 1000)
      /\ cfg h' = cfg h /\ isolated h' = isolated h
      /\ (is_finite now = true -> is_nan (rateLimitUntilMs h) = false ->
          is_nan (rateLimitUntilMs h') = false
          /\ (rateLimitUntilMs h <=? rateLimitUntilMs h') = true
          /\ (now + sec * 1000 <=? rateLimitUntilMs h') = true))
  /\ (forall (h : SelfHealing) (now : number) (events : list AiEvent),
        is_nan (rateLimitUntilMs (fst (apply now events h))) = false ->
        (rateLimitUntilMs h <=? rateLimitUntilMs (fst (apply now events h))) = true)
  /\ (forall (h : SelfHealing) (now1 now2 : number) (ev30 ev10 : AiEvent)
        (r30 r10 : string),
        enabled (cfg h) = true -> mode (cfg h) = armed ->
        actions ev30 = Some [enable_rate_limit r30 (Some 30)] ->
        actions ev10 = Some [enable_rate_limit r10 (Some 10)] ->
        is_nan (rateLimitUntilMs h) = false ->
        is_finite now1 = true ->
        is_finite now2 = true ->
        let h1 := fst (apply now1 [ev30] h) in
        let h2 := fst (apply now2 [ev10] h1) in
        (now1 + 30000 <=? rateLimitUntilMs h1) = true
        /\ (rateLimitUntilMs h1 <=? rateLimitUntilMs h2) = true
        /\ ((now2 + 10000 <? rateLimitUntilMs h1) = true ->
            rateLimitUntilMs h2 = rateLimitUntilMs h1)).
Proof.
  split; [ | split ].
  - intros h now ev reason s E M A N. cbv zeta.
    rewrite (apply_enable_rate_limit h E M now ev reason s A).
    cbn [rateLimitUntilMs cfg isolated].
    destruct (clamp_range s 5 300 N eq_refl) as [Lo Hi].
    repeat split; try assumption;
      pose proof (deadline_is_number now s H N) as D.
    + apply Math_max_is_number; assumption.
    + apply Math_max_ge_l; assumption.
    + apply Math_max_ge_r; assumption.
  - intros h now events. apply apply_mono.
  - intros h now1 now2 ev30 ev10 r30 r10 E M A30 A10 P F1 F2. cbv zeta.
    rewrite (apply_enable_rate_limit h E M now1 ev30 r30 30 A30).
    set (h1 := mkSelfHealing (cfg h)
                 (Math_max (rateLimitUntilMs h) (now1 + clamp 30 5 300 * 1000))
                 (isolated h)).
    rewrite (apply_enable_rate_limit h1 E M now2 ev10 r10 10 A10).
    subst h1. cbn [rateLimitUntilMs cfg isolated].
    pose proof (deadline_is_number now1 30 F1 eq_refl) as N1.
    pose proof (deadline_is_number now2 10 F2 eq_refl) as N2.
    replace (clamp 30 5 300 * 1000) with 30000 in * by reflexivity.
    replace (clamp 10 5 300 * 1000) with 10000 in * by reflexivity.
    pose proof (Math_max_is_number _ _ P N1) as P1.
    repeat split.
    + apply Math_max_ge_r; assumption.
    + apply Math_max_ge_l; assumption.
    + intros G. apply Math_max_keeps; assumption.
Qed.

(** The scenario at concrete readings: a first action of 30 s at 1.7e12 ms
    opens the window until 30 s later; an action of 10 s five seconds after
    the first leaves that end where it is. *)
Lemma enable_rate_limit_extends_witness :
  let h := controller armed 0 in
  let h1 := fst (apply 1700000000000
                   [proposing (enable_rate_limit "cpu_spike" (Some 30))] h) in
  let h2 := fst (apply 1700000005000
                   [proposing (enable_rate_limit "io_spike" (Some 10))] h1) in
  rateLimitUntilMs h1 = 1700000030000
  /\ (rateLimitUntilMs h1 <=? rateLimitUntilMs h2) = true
  /\ rateLimitUntilMs h2 = rateLimitUntilMs h1.
Proof.
  destruct (proj2 (proj2 enable_rate_limit_extends) (controller armed 0)
              1700000000000 1700000005000
              (proposing (enable_rate_limit "cpu_spike" (Some 30)))
              (proposing (enable_rate_limit "io_spike" (Some 10)))
              "cpu_spike" "io_spike"
              eq_refl eq_refl eq_refl eq_refl eq_refl eq_refl eq_refl)
    as [_ [H2 H3]].
  split; [ reflexivity | split; [ exact H2 | exact (H3 eq_refl) ] ].
Defined.


(* ================================================================== *)
(** * Dry-run mode *)
(* ================================================================== *)

Section DryRun.

Variables (now : number) (h : SelfHealing).
Hypothesis Hdry : mode (cfg h) = dry_run.

Lemma applyActions_dry_run (acts ex : list AiAction) :
  fold_left (fun s a => applyAction now a s) acts (h, ex) = (h, ex ++ acts).
Proof.
  revert ex. induction acts as [ | a acts IH]; intros ex.
  - cbn. rewrite app_nil_r. reflexivity.
  - cbn [fold_left]. unfold applyAction at 2. cbn [fst snd]. rewrite Hdry.
    rewrite IH, <- app_assoc. reflexivity.
Qed.

Lemma applyEvent_dry_run (ev : AiEvent) (out : list AiEvent) :
  applyEvent now ev (h, out) = (h, out ++ [recorded dry_run ev]).
Proof.
  unfold applyEvent, recorded. cbn [fst snd].
  destruct (actions ev ?? []) as [ | a acts]; [ reflexivity | ].
  rewrite applyActions_dry_run. cbn [fst snd app]. rewrite Hdry. reflexivity.
Qed.

Lemma applyEvents_dry_run (evs out : list AiEvent) :
  fold_left (fun s ev => applyEvent now ev s) evs (h, out)
  = (h, out ++ map (recorded dry_run) evs).
Proof.
  revert out. induction evs as [ | ev evs IH]; intros out.
  - cbn. rewrite app_nil_r. reflexivity.
  - cbn [fold_left map]. rewrite applyEvent_dry_run, IH, <- app_assoc.
    reflexivity.
Qed.

End DryRun.

(** C5. In dry-run mode [apply] returns the controller it was given, for
    every list of events: [isRateLimited] (at any reading of the clock) and
    [isIsolated] answer after the call as before it. With the policy enabled
    every event that proposes actions comes back with all of them in its
    [executed] field, in order; with the policy disabled the events come
    back as they are. *)
Theorem apply_dry_run_frame (now : number) (events : list AiEvent) (h : SelfHealing)
    (Hdry : mode (cfg h) = dry_run) :
  fst (apply now events h) = h
  /\ (forall t : number,
        isRateLimited t (fst (apply now events h)) = isRateLimited t h)
  /\ isIsolated (fst (apply now events h)) = isIsolated h
  /\ snd (apply now events h)
     = if enabled (cfg h) then map (recorded dry_run) events else events.
Proof.
  assert (E : apply now events h
              = (h, if enabled (cfg h) then map (recorded dry_run) events else events)).
  { unfold apply. destruct (enabled (cfg h)); cbn [negb]; [ | reflexivity ].
    rewrite (applyEvents_dry_run now h Hdry). reflexivity. }
  rewrite E. cbn [fst snd]. auto.
Qed.

(** A dry-run controller with an open window is handed an isolation and a
    rate limit of 300 s: it stays as it was, and the event records both. *)
Lemma apply_dry_run_frame_witness :
  let h := controller dry_run 1700000030000 in
  let ev := mkEvent cpu_spike critical "local" None
              (Some [ isolate_node "cpu_spike";
                      enable_rate_limit "cpu_spike" (Some 300) ]) None in
  let r := apply 1700000000000 [ev] h in
  fst r = h
  /\ isIsolated (fst r) = false
  /\ isRateLimited 1700000000000 (fst r) = true
  /\ map executed (snd r)
     = [Some (dry_run, [ isolate_node "cpu_spike";
                         enable_rate_limit "cpu_spike" (Some 300) ])].
Proof.
  cbv zeta.
  destruct (apply_dry_run_frame 1700000000000
              [mkEvent cpu_spike critical "local" None
                 (Some [ isolate_node "cpu_spike";
                         enable_rate_limit "cpu_spike" (Some 300) ]) None]
              (controller dry_run 1700000030000) eq_refl)
    as [H1 [H2 [H3 H4]]].
  rewrite H1, H4. repeat split.
Defined.

(* ================================================================== *)
(** * The range of [rateLimitSeconds] *)
(* ================================================================== *)

Section ConfigRange.

(** [setConfig] stores a finite [rateLimitSeconds] clamped into [5, 300]. *)
Lemma setConfig_clamps (next : PartialConfig) (h : SelfHealing) (x : number) :
  p_rateLimitSeconds next = Some x ->
  isFinite x = true ->
  rateLimitSeconds (getConfig (setConfig next h)) = clamp x 5 300
  /\ inRange (rateLimitSeconds (getConfig (setConfig next h))) = true.
Proof.
  intros P F. unfold getConfig, setConfig. cbn [cfg rateLimitSeconds].
  rewrite P, F. split; [ reflexivity | ].
  destruct (clamp_range x 5 300 (is_finite_not_nan x F) eq_refl) as [Lo Hi].
  unfold inRange. rewrite Lo, Hi. reflexivity.
Qed.

(** [setConfig] keeps a value that is in range in range. *)
Lemma setConfig_keeps_range (next : PartialConfig) (h : SelfHealing) :
  inRange (rateLimitSeconds (getConfig h)) = true ->
  inRange (rateLimitSeconds (getConfig (setConfig next h))) = true.
Proof.
  intros R. destruct (p_rateLimitSeconds next) as [x | ] eqn:P.
  - destruct (isFinite x) eqn:F.
    + apply (setConfig_clamps next h x P F).
    + unfold getConfig, setConfig. cbn [cfg rateLimitSeconds].
      rewrite P, F. exact R.
  - unfold getConfig, setConfig. cbn [cfg rateLimitSeconds]. rewrite P. exact R.
Qed.

(** C10 on the code: the constructor stores the [rateLimitSeconds] it is
    given without clamping it, so a controller built with 1000 reports 1000,
    outside [5, 300], and keeps reporting it after a [setConfig] that gives
    no new value. *)
Theorem constructor_keeps_rateLimitSeconds :
  let h := newSelfHealing (Some (mkPartial (Some true) (Some armed) (Some 1000))) in
  let h' := setConfig (mkPartial (Some false) (Some dry_run) None) h in
  rateLimitSeconds (getConfig h) = 1000
  /\ inRange (rateLimitSeconds (getConfig h)) = false
  /\ rateLimitSeconds (getConfig h') = 1000
  /\ inRange (rateLimitSeconds (getConfig h')) = false.
Proof. vm_compute. repeat split. Qed.

End ConfigRange.

(* ================================================================== *)
(** * The session tick *)
(* ================================================================== *)

Section Session.

Variable isValidHttpUrl : string -> bool.

(** A tick that collects a sample runs [onSample]. *)
Lemma tick_resolved (now : number) (m : MetricsSample) (s : Ops.Session)
    (h : SelfHealing) :
  collects isValidHttpUrl s h = true ->
  Ops.tick isValidHttpUrl now (Ops.resolved m) s h = Ops.onSample now (sourceName s) m s h.
Proof.
  unfold collects, Ops.tick, Ops.tickTry, sourceName.
  intros C. apply andb_true_iff in C. destruct C as [I U].
  apply negb_true_iff in I. rewrite I.
  destruct (Ops.source s); [ reflexivity | ].
  apply negb_true_iff in U. rewrite U. reflexivity.
Qed.

(** A tick whose collection fails runs the [catch] block. *)
Lemma tick_rejected (now : number) (e : string) (s : Ops.Session) (h : SelfHealing) :
  collects isValidHttpUrl s h = true ->
  Ops.tick isValidHttpUrl now (Ops.rejected e) s h = Ops.tickCatch e s h.
Proof.
  unfold collects, Ops.tick, Ops.tickTry.
  intros C. apply andb_true_iff in C. destruct C as [I U].
  apply negb_true_iff in I. rewrite I.
  destruct (Ops.source s); [ reflexivity | ].
  apply negb_true_iff in U. rewrite U. reflexivity.
Qed.

(** A tick that does not reach its collector sends one status message. *)
Lemma tick_skipped (now : number) (c : Ops.Collected) (s : Ops.Session)
    (h : SelfHealing) :
  collects isValidHttpUrl s h = false ->
  exists s' t, Ops.tick isValidHttpUrl now c s h = (s', h, [Ops.status Ops.level_error t]).
Proof.
  unfold collects, Ops.tick, Ops.tickTry. intros C.
  destruct (isIsolated h); [ eauto | ]. cbn [negb andb] in C.
  destruct (Ops.source s); [ discriminate | ].
  apply negb_false_iff in C. rewrite C. eauto.
Qed.

Lemma snapshots_ai (evs : list AiEvent) : snapshots (map Ops.ai evs) = [].
Proof. induction evs as [ | e evs IH]; [ reflexivity | exact IH ]. Qed.

Lemma tickCatch_snapshots (e : string) (s : Ops.Session) (h : SelfHealing) :
  snd (fst (Ops.tickCatch e s h)) = h /\ snapshots (snd (Ops.tickCatch e s h)) = [].
Proof.
  unfold Ops.tickCatch. destruct (Ops.source s); [ split; reflexivity | ].
  destruct (3 <=? S (Ops.errorStreak s))%nat; split; reflexivity.
Qed.

Lemma apply_nil (now : number) (h : SelfHealing) : fst (apply now [] h) = h.
Proof. unfold apply. destruct (enabled (cfg h)); reflexivity. Qed.

(** C9. The controller a tick leaves is the one [apply] returns for the
    events [detect] returned in that tick. When there is at least one such
    event the tick sends the sample, then the events as [apply] returned
    them, then one policy snapshot, and the snapshot reads [enabled],
    [mode], [isRateLimited] and [isIsolated] off the controller after
    [apply]. When there is none (also when the tick collected nothing) the
    tick sends no policy snapshot. *)
Theorem policy_snapshot_after_apply (now : number) (c : Ops.Collected)
    (s : Ops.Session) (h : SelfHealing) :
  let r := Ops.tick isValidHttpUrl now c s h in
  let h' := snd (fst r) in
  let events := detected isValidHttpUrl now c s h in
  h' = fst (apply now events h)
  /\ snapshots (snd r)
     = match events with
       | [] => []
       | _ => [ Ops.selfheal (enabled (getConfig h')) (mode (getConfig h'))
                  (isRateLimited now h') (isIsolated h') ]
       end
  /\ (events <> [] ->
      exists m, c = Ops.resolved m
        /\ snd r = [Ops.metricsMsg m] ++ map Ops.ai (snd (apply now events h))
                   ++ [ Ops.selfheal (enabled (getConfig h')) (mode (getConfig h'))
                          (isRateLimited now h') (isIsolated h') ]).
Proof.
  cbv zeta. unfold detected.
  destruct (collects isValidHttpUrl s h) eqn:C.
  - destruct c as [m | e].
    + rewrite (tick_resolved now m s h C). unfold Ops.onSample, Ops.sampleSource.
      cbn [fst snd].
      generalize (snd (detect now (source m ?? sourceName s)
                         (push m (Ops.detector s)))).
      intros events. split; [ reflexivity | ].
      assert (F : forall tail,
                 snapshots ([Ops.metricsMsg m]
                            ++ map Ops.ai (snd (apply now events h)) ++ tail)
                 = snapshots tail).
      { intros tail. unfold snapshots. cbn [app filter]. rewrite filter_app.
        fold (snapshots (map Ops.ai (snd (apply now events h)))).
        rewrite snapshots_ai. reflexivity. }
      rewrite F. destruct events as [ | ev evs].
      * split; [ reflexivity | intros N; congruence ].
      * cbn [length Nat.ltb Nat.leb].
        split; [ reflexivity | intros _; exists m; split; reflexivity ].
    + rewrite (tick_rejected now e s h C).
      destruct (tickCatch_snapshots e s h) as [H O]. rewrite H, O, apply_nil.
      split; [ reflexivity | split; [ reflexivity | intros N; congruence ] ].
  - destruct (tick_skipped now c s h C) as [s' [t T]]. rewrite T. cbn [fst snd].
    replace (match c with Ops.resolved _ => [] | Ops.rejected _ => [] end)
      with (@nil AiEvent) by (destruct c; reflexivity).
    rewrite apply_nil.
    split; [ reflexivity | split; [ reflexivity | intros N; congruence ] ].
Qed.

End Session.

(** An armed controller outside any window collects a sample with
    [cpu = 96]: the snapshot of that tick says rate limited, which is the
    state after [apply]; the state before it was not rate limited. *)
Lemma policy_snapshot_after_apply_witness :
  let now := 1700000000000 in
  let h := controller armed 0 in
  let r := Ops.tick startsWithHttp now (Ops.resolved (sampleOf 96 40 10))
             localSession h in
  snapshots (snd r) = [Ops.selfheal true armed true false]
  /\ Ops.policySnapshot now h = Ops.selfheal true armed false false.
Proof.
  cbv zeta.
  destruct (policy_snapshot_after_apply startsWithHttp 1700000000000
              (Ops.resolved (sampleOf 96 40 10)) localSession (controller armed 0))
    as [_ [H _]].
  rewrite H. vm_compute. split; reflexivity.
Defined.

(* ================================================================== *)
(** * Collection failures and the fall back to the local source *)
(* ================================================================== *)

Section Fallback.

Variable isValidHttpUrl : string -> bool.

(** A failed tick changes the streak and, on the fall back, the source; the
    tick after it reaches its collector again. *)
Lemma tickCatch_collects (e : string) (s : Ops.Session) (h : SelfHealing) :
  collects isValidHttpUrl s h = true ->
  collects isValidHttpUrl (fst (fst (Ops.tickCatch e s h)))
    (snd (fst (Ops.tickCatch e s h))) = true.
Proof.
  unfold collects, Ops.tickCatch. intros C.
  apply andb_true_iff in C. destruct C as [I U].
  destruct (Ops.source s) eqn:Src.
  - cbn [fst snd Ops.source]. rewrite I. reflexivity.
  - destruct (3 <=? S (Ops.errorStreak s))%nat;
      cbn [fst snd Ops.source Ops.monitorUrl]; rewrite I;
      [ reflexivity | exact U ].
Qed.

(** C8. A tick on the monitor source whose collection fails adds one to
    [errorStreak] and sends an error status that carries the new streak;
    when the streak reaches 3 it also switches the source to local, sets the
    streak to 0 and sends one [agent_unreachable] event of severity warn.
    Three failures in a row from a streak of 0 end on the local source with
    a streak of 0, and the three ticks together send that event once. The
    failure never leaves the tick: the tick returns a session, and the next
    tick collects again, sends its sample and sets the streak to 0. *)
Theorem collection_failure_fallback :
  (forall (now : number) (e : string) (s : Ops.Session) (h : SelfHealing),
      Ops.source s = Ops.monitor ->
      collects isValidHttpUrl s h = true ->
      let streak := S (Ops.errorStreak s) in
      Ops.tick isValidHttpUrl now (Ops.rejected e) s h
      = if (3 <=? streak)%nat then
          (Ops.mkSession Ops.local (Ops.monitorUrl s) 0 (Ops.detector s), h,
           [ Ops.status Ops.level_error (Ops.collectFailed streak e);
             Ops.status Ops.level_error Ops.switchedToLocal;
             Ops.ai (mkEvent agent_unreachable warn "monitor" None None None) ])
        else
          (Ops.mkSession Ops.monitor (Ops.monitorUrl s) streak (Ops.detector s), h,
           [ Ops.status Ops.level_error (Ops.collectFailed streak e) ]))
  /\ (forall (n1 n2 n3 : number) (e1 e2 e3 : string) (s : Ops.Session)
         (h : SelfHealing),
         Ops.source s = Ops.monitor ->
         Ops.errorStreak s = 0%nat ->
         collects isValidHttpUrl s h = true ->
         let r := Ops.ticks isValidHttpUrl
                    [ (n1, Ops.rejected e1); (n2, Ops.rejected e2);
                      (n3, Ops.rejected e3) ] s h in
         fst (fst r) = Ops.mkSession Ops.local (Ops.monitorUrl s) 0 (Ops.detector s)
         /\ snd (fst r) = h
         /\ map published (snd r)
            = [ []; []; [mkEvent agent_unreachable warn "monitor" None None None] ]
         /\ map (map (fun m => match m with
                               | Ops.status _ (Ops.collectFailed k _) => Some k
                               | _ => None
                               end)) (snd r)
            = [ [Some 1%nat]; [Some 2%nat]; [Some 3%nat; None; None] ])
  /\ (forall (now now' : number) (e : string) (m : MetricsSample)
         (s : Ops.Session) (h : SelfHealing),
         collects isValidHttpUrl s h = true ->
         let r := Ops.tick isValidHttpUrl now (Ops.rejected e) s h in
         let r' := Ops.tick isValidHttpUrl now' (Ops.resolved m)
                     (fst (fst r)) (snd (fst r)) in
         hd_error (snd r') = Some (Ops.metricsMsg m)
         /\ Ops.errorStreak (fst (fst r')) = 0%nat).
Proof.
  split; [ | split ].
  - intros now e s h M C. cbv zeta. rewrite (tick_rejected _ now e s h C).
    unfold Ops.tickCatch, Ops.unreachableEvent. rewrite M.
    destruct (3 <=? S (Ops.errorStreak s))%nat; reflexivity.
  - intros n1 n2 n3 e1 e2 e3 s h M Z C. cbv zeta.
    destruct s as [src url streak det]. cbn [Ops.source Ops.errorStreak] in M, Z.
    subst src streak. cbn [Ops.monitorUrl Ops.detector].
    assert (C1 : collects isValidHttpUrl (Ops.mkSession Ops.monitor url 1 det) h = true)
      by exact C.
    assert (C2 : collects isValidHttpUrl (Ops.mkSession Ops.monitor url 2 det) h = true)
      by exact C.
    assert (R : Ops.ticks isValidHttpUrl
                  [ (n1, Ops.rejected e1); (n2, Ops.rejected e2);
                    (n3, Ops.rejected e3) ]
                  (Ops.mkSession Ops.monitor url 0 det) h
                = (Ops.mkSession Ops.local url 0 det, h,
                   [ [ Ops.status Ops.level_error (Ops.collectFailed 1 e1) ];
                     [ Ops.status Ops.level_error (Ops.collectFailed 2 e2) ];
                     [ Ops.status Ops.level_error (Ops.collectFailed 3 e3);
                       Ops.status Ops.level_error Ops.switchedToLocal;
                       Ops.ai Ops.unreachableEvent ] ])).
    { cbn [Ops.ticks].
      rewrite (tick_rejected _ n1 e1 _ h C). unfold Ops.tickCatch at 1.
      cbn [Ops.source Ops.errorStreak Ops.monitorUrl Ops.detector Nat.leb].
      rewrite (tick_rejected _ n2 e2 _ h C1). unfold Ops.tickCatch at 1.
      cbn [Ops.source Ops.errorStreak Ops.monitorUrl Ops.detector Nat.leb].
      rewrite (tick_rejected _ n3 e3 _ h C2). unfold Ops.tickCatch.
      cbn [Ops.source Ops.errorStreak Ops.monitorUrl Ops.detector Nat.leb].
      reflexivity. }
    rewrite R. cbn. repeat split.
  - intros now now' e m s h C. cbv zeta.
    rewrite (tick_rejected _ now e s h C).
    rewrite (tick_resolved _ now' m _ _ (tickCatch_collects e s h C)).
    unfold Ops.onSample. cbn [fst snd app hd_error Ops.errorStreak].
    split; reflexivity.
Qed.

End Fallback.

(** Three failed ticks of a session on the monitor source. *)
Lemma collection_failure_fallback_witness :
  let h := controller dry_run 0 in
  let r := Ops.ticks startsWithHttp
             [ (1700000000000, Ops.rejected "HTTP 503");
               (1700000001200, Ops.rejected "HTTP 503");
               (1700000002400, Ops.rejected "HTTP 503") ] monitorSession h in
  Ops.source (fst (fst r)) = Ops.local
  /\ Ops.errorStreak (fst (fst r)) = 0%nat
  /\ map published (snd r)
     = [ []; []; [mkEvent agent_unreachable warn "monitor" None None None] ].
Proof.
  cbv zeta.
  destruct (proj1 (proj2 (collection_failure_fallback startsWithHttp))
              1700000000000 1700000001200 1700000002400
              "HTTP 503" "HTTP 503" "HTTP 503" monitorSession
              (controller dry_run 0) eq_refl eq_refl eq_refl)
    as [H1 [_ [H3 _]]].
  split; [ exact (f_equal Ops.source H1) | ].
  split; [ exact (f_equal Ops.errorStreak H1) | exact H3 ].
Defined.

(* ================================================================== *)
(** * Further properties of the detector *)
(* ================================================================== *)

Section WindowClosedForm.

Lemma sliceLast_snoc {A : Type} (n : nat) (l : list A) (x : A) :
  (1 <= n)%nat -> sliceLast n (sliceLast n l ++ [x]) = sliceLast n (l ++ [x]).
Proof.
  intros H. unfold sliceLast.
  rewrite !length_app, length_skipn. cbn [length].
  destruct (Nat.le_gt_cases (length l) n) as [L | L].
  - replace (length l - n)%nat with 0%nat by lia. cbn [skipn].
    f_equal. lia.
  - assert (E : skipn (length l - n) (l ++ [x]) = skipn (length l - n) l ++ [x]).
    { rewrite skipn_app.
      replace (length l - n - length l)%nat with 0%nat by lia. reflexivity. }
    rewrite <- E, skipn_skipn. f_equal. lia.
Qed.

(** X1. The window after any sequence of [push] calls on a new detector is
    the last 120 of the pushed samples, in the order they were pushed. *)
Theorem pushAll_window (ms : list MetricsSample) :
  window (pushAll ms newDetector) = sliceLast 120 ms.
Proof.
  change 120%nat with max.
  induction ms as [ | m ms IH] using rev_ind; [ reflexivity | ].
  rewrite pushAll_snoc. unfold push. cbn [window].
  rewrite shiftWhileOver_sliceLast, IH.
  apply sliceLast_snoc. unfold max. lia.
Qed.

End WindowClosedForm.

Section Frame.

Variables (now : number) (src : string) (d : AnomalyDetector).

Lemma hasKind_eventsOfKind (t : AiEventType) (evs : list AiEvent) :
  hasKind t evs = match eventsOfKind t evs with [] => false | _ => true end.
Proof.
  unfold hasKind, eventsOfKind. induction evs as [ | e evs IH]; [ reflexivity | ].
  cbn [existsb filter]. destruct (AiEventType_eqb (type e) t); [ reflexivity | exact IH ].
Qed.

Lemma AiEventType_eqb_refl (t : AiEventType) : AiEventType_eqb t t = true.
Proof. unfold AiEventType_eqb. destruct (AiEventType_eq_dec t t); congruence. Qed.

Lemma AiEventType_eqb_eq (a b : AiEventType) : AiEventType_eqb a b = true -> a = b.
Proof.
  unfold AiEventType_eqb. destruct (AiEventType_eq_dec a b); [ auto | discriminate ].
Qed.

(** Whether [detect] returns kind [t], from the conditions of the layers. *)
Lemma hasKind_detect (last : MetricsSample) (t : AiEventType) :
  lastOf (window d) = Some last ->
  hasKind t (snd (detect now src d))
  = absFire now last (lastSpikeAtMs d) t || statActive now d last t
    || (AiEventType_eqb ram_leak t
        && match leakEvents now d with [] => false | _ => true end).
Proof.
  intros L. rewrite hasKind_eventsOfKind, (eventsOfKind_detect now src d last t L).
  destruct (absFire now last (lastSpikeAtMs d) t); [ reflexivity | ].
  destruct (statActive now d last t); [ reflexivity | ].
  destruct (AiEventType_eqb ram_leak t); reflexivity.
Qed.

Lemma detect_marks (t : AiEventType) :
  lastSpikeAtMs (fst (detect now src d)) t
  = if hasKind t (snd (detect now src d)) && negb (AiEventType_eqb t ram_leak)
    then Some now else lastSpikeAtMs d t.
Proof.
  destruct (lastOf (window d)) as [last | ] eqn:L.
  - rewrite (detect_lastSpikeAtMs now src d last L t), (hasKind_detect last t L).
    destruct t; cbn [AiEventType_eqb negb andb]; unfold AiEventType_eqb;
      cbn; rewrite ?orb_false_r, ?andb_true_r, ?andb_false_r; try reflexivity.
    unfold statActive. cbn [absFire statFire]. rewrite andb_false_r. reflexivity.
  - unfold detect. rewrite L. reflexivity.
Qed.

Lemma detect_marks_leak :
  lastLeakAtMs (fst (detect now src d))
  = (if hasKind ram_leak (snd (detect now src d)) then now else lastLeakAtMs d).
Proof.
  rewrite detect_lastLeakAtMs, hasKind_eventsOfKind, eventsOfKind_ram_leak.
  destruct (leakEvents now d); reflexivity.
Qed.

(** X2. [detect] never changes the window. It sets the cooldown entry of a
    kind to [now] exactly when it returns a spike or disk event of that kind,
    and [lastLeakAtMs] to [now] exactly when it returns a [ram_leak] event;
    everything else in the detector stays as it was. On a detector without
    samples it returns no event and the detector itself. *)
Theorem detect_frame :
  window (fst (detect now src d)) = window d
  /\ (forall t : AiEventType,
        lastSpikeAtMs (fst (detect now src d)) t
        = if hasKind t (snd (detect now src d)) && negb (AiEventType_eqb t ram_leak)
          then Some now else lastSpikeAtMs d t)
  /\ lastLeakAtMs (fst (detect now src d))
     = (if hasKind ram_leak (snd (detect now src d)) then now else lastLeakAtMs d)
  /\ (window d = [] -> detect now src d = (d, [])).
Proof.
  split; [ apply detect_window | ].
  split; [ exact detect_marks | split; [ exact detect_marks_leak | ] ].
  intros W. unfold detect. rewrite W. reflexivity.
Qed.

End Frame.

Section Cooldown.

Variable src : string.

(** Inside its cooldown a kind is not returned, and its entry stays. *)
Lemma detect_in_cooldown (now : number) (d : AnomalyDetector) (t : AiEventType)
    (ms : number) :
  cooldownMs t = Some ms ->
  cooldown now (lastSpikeAtMs d) t ms = true ->
  eventsOfKind t (snd (detect now src d)) = []
  /\ lastSpikeAtMs (fst (detect now src d)) t = lastSpikeAtMs d t.
Proof.
  intros M C. destruct (lastOf (window d)) as [last | ] eqn:L.
  - rewrite (eventsOfKind_detect now src d last t L),
      (detect_lastSpikeAtMs now src d last L t).
    unfold statActive.
    destruct t; try discriminate M; injection M as <-;
      cbn [absFire statFire AiEventType_eqb]; rewrite C;
      cbn [negb]; rewrite ?andb_false_r; split; reflexivity.
  - unfold detect. rewrite L. split; reflexivity.
Qed.

Lemma feed_in_cooldown (t : AiEventType) (ms t0 : number)
    (inputs : list (number * MetricsSample)) (d : AnomalyDetector) :
  cooldownMs t = Some ms ->
  lastSpikeAtMs d t = Some t0 ->
  Forall (fun p => (fst p - t0 <? ms) = true) inputs ->
  Forall (fun evs => eventsOfKind t evs = []) (snd (feed src inputs d))
  /\ lastSpikeAtMs (fst (feed src inputs d)) t = Some t0.
Proof.
  intros M. revert d. induction inputs as [ | [now m] rest IH]; intros d T F.
  - cbn. split; [ constructor | exact T ].
  - inversion F as [ | p ps Hp Hrest ]; subst. cbn [fst] in Hp.
    cbn [feed fst snd].
    destruct (detect_in_cooldown now (push m d) t ms M) as [E K].
    { unfold cooldown. cbn [push lastSpikeAtMs]. rewrite T. exact Hp. }
    cbn [push lastSpikeAtMs] in K. rewrite T in K.
    destruct (IH (fst (detect now src (push m d))) K Hrest) as [IF IT].
    split; [ constructor; assumption | exact IT ].
Qed.

(** X3. After [detect] has returned an event of a kind with a cooldown at
    [now1] (15 s for CPU and RAM spikes, 12 s for I/O spikes, 30 s for a full
    disk), no later [detect] returns that kind, from either layer and
    whatever the samples, as long as its clock is less than the cooldown past
    [now1]. *)
Theorem no_repeat_within_cooldown (now1 : number) (d : AnomalyDetector)
    (t : AiEventType) (ms : number) (inputs : list (number * MetricsSample))
    (Hms : cooldownMs t = Some ms)
    (Hfired : hasKind t (snd (detect now1 src d)) = true)
    (Hwithin : Forall (fun p => (fst p - now1 <? ms) = true) inputs) :
  Forall (fun evs => eventsOfKind t evs = [])
    (snd (feed src inputs (fst (detect now1 src d)))).
Proof.
  apply (feed_in_cooldown t ms now1 inputs _ Hms); [ | exact Hwithin ].
  rewrite detect_marks, Hfired.
  destruct t; try discriminate Hms; reflexivity.
Qed.

Lemma feed_leak_cooldown (t0 : number) (inputs : list (number * MetricsSample))
    (d : AnomalyDetector) :
  lastLeakAtMs d = t0 ->
  Forall (fun p => (fst p - t0 <? 20000) = true) inputs ->
  Forall (fun evs => eventsOfKind ram_leak evs = []) (snd (feed src inputs d))
  /\ lastLeakAtMs (fst (feed src inputs d)) = t0.
Proof.
  revert d. induction inputs as [ | [now m] rest IH]; intros d T F.
  - cbn. split; [ constructor | exact T ].
  - inversion F as [ | p ps Hp Hrest ]; subst. cbn [fst] in Hp.
    cbn [feed fst snd].
    assert (E : leakEvents now (push m d) = []).
    { unfold leakEvents. destruct (window (push m d)); [ reflexivity | ].
      destruct (length _ <? 8)%nat; [ reflexivity | ].
      rewrite detectRamLeak_spec. unfold leakFire.
      cbn [push lastLeakAtMs]. rewrite Hp. reflexivity. }
    assert (K : lastLeakAtMs (fst (detect now src (push m d))) = lastLeakAtMs d)
      by (rewrite detect_lastLeakAtMs, E; reflexivity).
    destruct (IH (fst (detect now src (push m d))) K Hrest) as [IF IT].
    split; [ constructor; [ rewrite eventsOfKind_ram_leak; exact E | exact IF ]
           | exact IT ].
Qed.

(** X4. After [detect] has returned a [ram_leak] event at [now1], no later
    [detect] returns one while its clock is less than 20 s past [now1],
    whatever the samples. *)
Theorem no_leak_within_cooldown (now1 : number) (d : AnomalyDetector)
    (inputs : list (number * MetricsSample))
    (Hfired : hasKind ram_leak (snd (detect now1 src d)) = true)
    (Hwithin : Forall (fun p => (fst p - now1 <? 20000) = true) inputs) :
  Forall (fun evs => eventsOfKind ram_leak evs = [])
    (snd (feed src inputs (fst (detect now1 src d)))).
Proof.
  apply (feed_leak_cooldown now1 inputs _); [ | exact Hwithin ].
  rewrite detect_marks_leak, Hfired. reflexivity.
Qed.

End Cooldown.

(** A CPU spike, then two samples 5 s and 14.999 s later with a CPU reading
    above 95: no second [cpu_spike]. *)
Lemma no_repeat_within_cooldown_witness :
  Forall (fun evs => eventsOfKind cpu_spike evs = [])
    (snd (feed "local"
            [ (1700000005000, sampleOf 97 40 10);
              (1700000014999, sampleOf 99 40 10) ]
            (fst (detect 1700000000000 "local"
                    (push (sampleOf 96 40 10) newDetector))))).
Proof.
  apply (no_repeat_within_cooldown "local" 1700000000000
           (push (sampleOf 96 40 10) newDetector) cpu_spike 15000);
    [ reflexivity | reflexivity | repeat constructor ].
Defined.

(** The ramp of 25 readings has raised a leak; 19.999 s later the window
    still holds a rising ramp, and no second leak is returned. *)
Lemma no_leak_within_cooldown_witness :
  Forall (fun evs => eventsOfKind ram_leak evs = [])
    (snd (feed "local"
            [ (1700000049999, sampleOf 40 91 10) ]
            (fst (detect 1700000030000 "local"
                    (pushAll (map snd rampInputs) newDetector))))).
Proof.
  apply (no_leak_within_cooldown "local" 1700000030000
           (pushAll (map snd rampInputs) newDetector));
    [ vm_compute; reflexivity | repeat constructor ].
Defined.

(** ** Comparisons with NaN *)

Lemma is_nan_true_spec (x : float) : is_nan x = true -> Prim2SF x = S754_nan.
Proof.
  intros H. destruct (Prim2SF x) eqn:E; try reflexivity;
    rewrite is_nan_spec_false in H by (rewrite E; discriminate); discriminate.
Qed.

Lemma nan_geb (x y : float) : is_nan x = true -> (x >=? y) = false.
Proof.
  intros H. unfold geb. rewrite FloatAxioms.leb_spec, (is_nan_true_spec x H).
  unfold SFleb. destruct (Prim2SF y); reflexivity.
Qed.

Lemma nan_ltb (x y : float) : is_nan x = true -> (x <? y) = false.
Proof.
  intros H. rewrite FloatAxioms.ltb_spec, (is_nan_true_spec x H). reflexivity.
Qed.

Section Rules.

Variables (now : number) (src : string) (d : AnomalyDetector) (last : MetricsSample).
Hypothesis Hlast : lastOf (window d) = Some last.

Lemma lastOf_sliceLast {A : Type} (n : nat) (l : list A) :
  (1 <= n)%nat -> lastOf (sliceLast n l) = lastOf l.
Proof.
  intros H. destruct l as [ | x l]; [ reflexivity | ].
  unfold sliceLast. apply lastOf_skipn. cbn [length]. lia.
Qed.

(** The latest RAM reading of the series is that of the latest sample. *)
Lemma leakSeries_last :
  nth (length (leakSeries d) - 1) (leakSeries d) nan = ram last.
Proof.
  unfold leakSeries.
  pose proof (lastOf_sliceLast 25 (window d) ltac:(lia)) as L.
  rewrite Hlast in L. unfold lastOf in L.
  rewrite length_map.
  apply (map_nth_error ram) in L.
  apply (nth_error_nth _ _ nan) in L. exact L.
Qed.

(** X5. A CPU, RAM or I/O reading of 95 or more makes [detect] return
    exactly one event of its kind, the critical one of the absolute layer,
    unless the kind is in cooldown, whatever the history. A disk reading
    of 90 or more makes it return one [disk_full] event, critical from 97
    and warn below, unless [disk_full] is in its cooldown of 30 s, and a
    lower one none. With fewer than 8 samples these are all the events that
    [detect] returns. *)
Theorem absolute_layer_rule :
  (forall (t : AiEventType) (ms : number),
      In t spikeKinds -> cooldownMs t = Some ms ->
      (gauge t last >=? 95) = true ->
      eventsOfKind t (snd (detect now src d))
      = if cooldown now (lastSpikeAtMs d) t ms then []
        else [ mkEvent t critical src (Some last) (actions (absEvent src last t)) None ])
  /\ eventsOfKind disk_full (snd (detect now src d))
     = (if (disk last >=? 90) && negb (cooldown now (lastSpikeAtMs d) disk_full 30000)
        then [ mkEvent disk_full (if disk last >=? 97 then critical else warn) src
                 (Some last) (Some [load_balance_hint diskHint]) None ]
        else [])
  /\ ((length (window d) < 8)%nat ->
      snd (detect now src d)
      = flat_map
          (fun t => if absFire now last (lastSpikeAtMs d) t
                    then [absEvent src last t] else [])
          [cpu_spike; ram_spike; io_spike; disk_full]).
Proof.
  split; [ | split ].
  - intros t ms I M G.
    rewrite (eventsOfKind_detect now src d last t Hlast).
    unfold statActive, spikeKinds in *. cbn in I.
    destruct I as [<- | [<- | [<- | []]]]; injection M as <-;
      cbn [gauge] in G; cbn [absFire statFire absEvent AiEventType_eqb actions];
      rewrite G, (geb_ltb_excl _ _ G); cbn [andb]; rewrite andb_false_r;
      match goal with |- context [cooldown ?a ?b ?c ?e] => destruct (cooldown a b c e) end;
      reflexivity.
  - rewrite (eventsOfKind_detect now src d last disk_full Hlast).
    unfold statActive. cbn [absFire statFire absEvent AiEventType_eqb].
    rewrite andb_false_r.
    destruct ((disk last >=? 90) && negb (cooldown now (lastSpikeAtMs d) disk_full 30000));
      reflexivity.
  - intros S. rewrite detect_snd, (absoluteEvents_spec now src d last Hlast).
    unfold statisticalEvents, leakEvents. rewrite Hlast.
    destruct (Nat.ltb_spec (length (window d)) 8) as [_ | H]; [ | lia ].
    destruct (window d); cbn [app]; rewrite app_nil_r; reflexivity.
Qed.

(** X6. A latest sample whose CPU, RAM, I/O and disk readings are all NaN
    triggers nothing: [detect] returns no event and the detector as it
    was. *)
Theorem detect_nan_sample
    (Hcpu : is_nan (cpu last) = true) (Hram : is_nan (ram last) = true)
    (Hio : is_nan (io last) = true) (Hdisk : is_nan (disk last) = true) :
  detect now src d = (d, []).
Proof.
  assert (A : forall t, absFire now last (lastSpikeAtMs d) t = false).
  { intros t. destruct t; cbn [absFire]; rewrite ?nan_geb by assumption;
      reflexivity. }
  assert (S : forall t, statActive now d last t = false).
  { intros t. unfold statActive. destruct t; cbn [statFire];
      rewrite ?nan_ltb by assumption; cbn [andb]; rewrite ?andb_false_r;
      reflexivity. }
  assert (K : leakFire now d = false).
  { unfold leakFire, leakTest. rewrite leakSeries_last, (nan_geb _ 80 Hram).
    cbn [andb]. rewrite !andb_false_r. reflexivity. }
  assert (E : snd (detect now src d) = []).
  { rewrite detect_snd, (absoluteEvents_spec now src d last Hlast),
      (statisticalEvents_active now src d last Hlast),
      (leakEvents_spec now d last Hlast), K, andb_false_r.
    unfold spikeKinds. cbn [app flat_map]. rewrite !A, !S. reflexivity. }
  assert (W : window (fst (detect now src d)) = window d) by apply detect_window.
  assert (L : lastLeakAtMs (fst (detect now src d)) = lastLeakAtMs d).
  { rewrite detect_marks_leak, E. reflexivity. }
  assert (T : lastSpikeAtMs (fst (detect now src d)) = lastSpikeAtMs d).
  { unfold detect. rewrite Hlast.
    assert (F : fst (absoluteLayer now src last (lastSpikeAtMs d, [])) = lastSpikeAtMs d).
    { unfold absoluteLayer, emit. cbn [fst snd].
      pose proof (A cpu_spike) as A1. pose proof (A ram_spike) as A2.
      pose proof (A io_spike) as A3. pose proof (A disk_full) as A4.
      cbn [absFire] in A1, A2, A3, A4.
      rewrite A1. cbn [fst snd]. rewrite A2. cbn [fst snd].
      rewrite A3. cbn [fst snd]. rewrite A4. reflexivity. }
    destruct (length (window d) <? 8)%nat eqn:N; [ exact F | ].
    rewrite detectRamLeak_spec.
    match goal with |- context [leakFire now ?x] =>
      replace (leakFire now x) with (leakFire now d) by reflexivity end.
    rewrite K. cbn [fst lastSpikeAtMs].
    fold (baselineOf (window d)).
    unfold statisticalLayer, emit.
    pose proof (S cpu_spike) as S1. pose proof (S ram_spike) as S2.
    pose proof (S io_spike) as S3.
    unfold statActive in S1, S2, S3.
    assert (N8 : (8 <=? length (window d))%nat = true).
    { apply Nat.leb_le. apply Nat.ltb_ge in N. exact N. }
    rewrite N8 in S1, S2, S3. cbn [andb statFire] in S1, S2, S3.
    rewrite !nan_ltb by assumption. cbn [andb fst snd]. exact F. }
  destruct (detect now src d) as [d' evs]. cbn [fst snd] in *.
  subst evs. f_equal. destruct d', d. cbn in *. congruence.
Qed.

End Rules.

(** A disk reading of 98 on the first sample: one critical [disk_full], and
    nothing else. *)
Lemma absolute_layer_rule_witness :
  snd (detect 1700000000000 "local"
         (push (mkSample 10 20 98 5 0 "t" (Some "local")) newDetector))
  = [ mkEvent disk_full critical "local"
        (Some (mkSample 10 20 98 5 0 "t" (Some "local")))
        (Some [load_balance_hint diskHint]) None ].
Proof.
  destruct (absolute_layer_rule 1700000000000 "local"
              (push (mkSample 10 20 98 5 0 "t" (Some "local")) newDetector)
              (mkSample 10 20 98 5 0 "t" (Some "local")) eq_refl)
    as [_ [_ H]].
  rewrite H by (cbn; lia). reflexivity.
Defined.

(** A sample of NaN readings behind a history of 30 samples. *)
Lemma detect_nan_sample_witness :
  let d := push (mkSample nan nan nan nan 0 "t" None)
             (pushAll (map numbered (seq 0 30)) newDetector) in
  detect 1700000000000 "monitor" d = (d, []).
Proof.
  exact (detect_nan_sample 1700000000000 "monitor"
           (push (mkSample nan nan nan nan 0 "t" None)
              (pushAll (map numbered (seq 0 30)) newDetector))
           (mkSample nan nan nan nan 0 "t" None)
           eq_refl eq_refl eq_refl eq_refl eq_refl).
Defined.

Section Proposals.

Variables (now : number) (src : string) (d : AnomalyDetector) (last : MetricsSample).
Hypothesis Hlast : lastOf (window d) = Some last.

Lemma absEvent_wellProposed (t : AiEventType) : wellProposed last (absEvent src last t).
Proof.
  unfold wellProposed.
  destruct t; cbn [absEvent severity metrics executed actions];
    (split; [ try discriminate; destruct (disk last >=? 97); discriminate | ]);
    (split; [ reflexivity | split; [ reflexivity | ] ]);
    eexists; eexists; (split; [ reflexivity | reflexivity ]).
Qed.

Lemma statEvent_wellProposed (t : AiEventType) : wellProposed last (statEvent src last t).
Proof.
  unfold wellProposed.
  destruct t; cbn [statEvent severity metrics executed actions];
    (split; [ match goal with |- context [if ?c then _ else _] => destruct c end;
              discriminate | ]);
    (split; [ reflexivity | split; [ reflexivity | ] ]);
    eexists; eexists; (split; [ reflexivity | reflexivity ]).
Qed.

Lemma leakEvent_wellProposed : wellProposed last (leakEvent d).
Proof.
  unfold wellProposed, leakEvent. cbn [severity metrics executed actions].
  split; [ match goal with |- context [if ?c then _ else _] => destruct c end;
           discriminate | ].
  split.
  - pose proof (lastOf_sliceLast 25 (window d) ltac:(lia)) as L.
    rewrite Hlast in L. exact L.
  - split; [ reflexivity | ].
    eexists; eexists; (split; [ reflexivity | reflexivity ]).
Qed.

Lemma detect_events_cases (e : AiEvent) :
  In e (snd (detect now src d)) ->
  (exists t, e = absEvent src last t) \/ (exists t, e = statEvent src last t)
  \/ e = leakEvent d.
Proof.
  rewrite detect_snd, (absoluteEvents_spec now src d last Hlast),
    (statisticalEvents_active now src d last Hlast),
    (leakEvents_spec now d last Hlast).
  intros I. apply in_app_or in I. destruct I as [I | I].
  - apply in_flat_map in I. destruct I as [t [_ I]].
    destruct (absFire now last (lastSpikeAtMs d) t); [ | contradiction ].
    destruct I as [<- | []]. left. now exists t.
  - apply in_app_or in I. destruct I as [I | I].
    + apply in_flat_map in I. destruct I as [t [_ I]].
      destruct (statActive now d last t); [ | contradiction ].
      destruct I as [<- | []]. right. left. now exists t.
    + destruct ((8 <=? length (window d))%nat && leakFire now d); [ | contradiction ].
      destruct I as [<- | []]. right. right. reflexivity.
Qed.

(** X7. Every event [detect] returns is about the latest sample, has
    severity warn or critical, carries no [executed] record, and proposes at
    least one action; the actions it proposes are rate limits of 20, 30 or
    45 seconds and load-balance hints, never an isolation or a restart. *)
Theorem detect_proposals (e : AiEvent) :
  In e (snd (detect now src d)) -> wellProposed last e.
Proof.
  intros I. destruct (detect_events_cases e I) as [[t ->] | [[t ->] | ->]].
  - apply absEvent_wellProposed.
  - apply statEvent_wellProposed.
  - apply leakEvent_wellProposed.
Qed.

End Proposals.

(** The actions of the events [detect] returns, whatever the detector. *)
Lemma detect_limitOrHint (now : number) (src : string) (d : AnomalyDetector) :
  Forall (fun e => forallb limitOrHint (actions e ?? []) = true)
    (snd (detect now src d)).
Proof.
  destruct (lastOf (window d)) as [last | ] eqn:L.
  - apply Forall_forall. intros e I.
    assert (W : wellProposed last e).
    { destruct (detect_events_cases now src d last L e I) as [[t ->] | [[t ->] | ->]].
      - apply absEvent_wellProposed.
      - apply statEvent_wellProposed.
      - apply leakEvent_wellProposed. exact L. }
    destruct W as (_ & _ & _ & a & acts & -> & F). exact F.
  - rewrite (detect_empty now src d L). constructor.
Qed.

(** The events of the first tick on a sample with every gauge at 99. *)
Lemma detect_proposals_witness :
  Forall (wellProposed (mkSample 99 99 99 99 0 "t" (Some "local")))
    (snd (detect 1700000000000 "local"
            (push (mkSample 99 99 99 99 0 "t" (Some "local")) newDetector))).
Proof.
  apply Forall_forall. intros e.
  exact (detect_proposals 1700000000000 "local"
           (push (mkSample 99 99 99 99 0 "t" (Some "local")) newDetector)
           (mkSample 99 99 99 99 0 "t" (Some "local")) eq_refl e).
Defined.

(** ** The standard deviation *)

Section Sqrt.

Lemma binary_round_aux_sign (prec emax : Z) (sx : bool) (mx ex : Z) (lx : location) :
  match binary_round_aux prec emax sx mx ex lx with
  | S754_zero s | S754_infinity s | S754_finite s _ _ => s = sx
  | S754_nan => True
  end.
Proof.
  unfold binary_round_aux.
  destruct (shr_fexp prec emax mx ex lx) as [mrs' e'].
  destruct (shr_fexp prec emax _ e' loc_Exact) as [mrs'' e''].
  destruct (shr_m mrs''); try exact I; try reflexivity.
  destruct (e'' <=? emax - prec)%Z; reflexivity.
Qed.

(** A square root is NaN or not below zero. *)
Lemma sqrt_nonneg (x : float) :
  (0 <=? sqrt x) = true \/ is_nan (sqrt x) = true.
Proof.
  destruct (is_nan (sqrt x)) eqn:N; [ right; reflexivity | left ].
  apply is_nan_false_spec in N.
  rewrite FloatAxioms.leb_spec. rewrite sqrt_spec in *.
  replace (Prim2SF 0) with (S754_zero false) by reflexivity.
  unfold SF64sqrt, SFsqrt in *.
  destruct (Prim2SF x) as [s | [ | ] | | [ | ] m e]; try congruence; try reflexivity.
  destruct (SFsqrt_core_binary prec emax (Z.pos m) e) as [[mz ez] lz].
  pose proof (binary_round_aux_sign prec emax false mz ez lz) as S.
  destruct (binary_round_aux prec emax false mz ez lz) as [s | s | | s m' e'];
    try congruence; subst s; reflexivity.
Qed.

(** X8. The standard deviation [meanStd] returns is never negative: it is
    at least 0, or NaN when the values do not give a number. Of no values
    the mean and the standard deviation are 0. *)
Theorem meanStd_std_nonneg (values : list number) :
  ((0 <=? std (meanStd values)) = true \/ is_nan (std (meanStd values)) = true)
  /\ (values = [] -> meanStd values = mkStats 0 0).
Proof.
  split; [ | intros ->; reflexivity ].
  destruct values as [ | v values]; [ left; reflexivity | ].
  cbn [meanStd std]. apply sqrt_nonneg.
Qed.

End Sqrt.

(** ** What [apply] records and what it changes *)

Section ApplyRecords.

Variable now : number.

Lemma applyAction_spec (a : AiAction) (st : SelfHealing * list AiAction) :
  let r := applyAction now a st in
  cfg (fst r) = cfg (fst st)
  /\ snd r = snd st ++ [recordOf (mode (cfg (fst st))) a]
  /\ isolated (fst r)
     = isolated (fst st) || (isArmed (mode (cfg (fst st))) && isolates a).
Proof.
  unfold applyAction. cbn zeta.
  destruct (mode (cfg (fst st))); cbn [recordOf isArmed andb].
  - rewrite orb_false_r. auto.
  - destruct a; cbn [fst snd cfg isolated isolates];
      rewrite ?orb_false_r, ?orb_true_r; auto.
Qed.

Lemma applyActions_spec (acts : list AiAction) (st : SelfHealing * list AiAction) :
  let r := fold_left (fun s a => applyAction now a s) acts st in
  cfg (fst r) = cfg (fst st)
  /\ snd r = snd st ++ map (recordOf (mode (cfg (fst st)))) acts
  /\ isolated (fst r)
     = isolated (fst st) || (isArmed (mode (cfg (fst st))) && existsb isolates acts).
Proof.
  revert st. induction acts as [ | a acts IH]; intros st; cbn zeta.
  - cbn. rewrite app_nil_r, andb_false_r, orb_false_r. auto.
  - cbn [fold_left map existsb].
    destruct (applyAction_spec a st) as (C & R & I).
    destruct (IH (applyAction now a st)) as (C' & R' & I'). cbn zeta in *.
    rewrite C', R', I', C, R, I. repeat split.
    + now rewrite <- app_assoc.
    + rewrite andb_orb_distrib_r, orb_assoc. reflexivity.
Qed.

Lemma applyEvent_spec (ev : AiEvent) (st : SelfHealing * list AiEvent) :
  let r := applyEvent now ev st in
  cfg (fst r) = cfg (fst st)
  /\ snd r = snd st ++ [enriched (mode (cfg (fst st))) ev]
  /\ isolated (fst r)
     = isolated (fst st) || (isArmed (mode (cfg (fst st))) && proposesIsolation ev).
Proof.
  unfold applyEvent, enriched, proposesIsolation. cbn zeta.
  destruct (actions ev ?? []) as [ | a acts] eqn:A.
  - cbn. rewrite andb_false_r, orb_false_r. auto.
  - destruct (applyActions_spec (a :: acts) (fst st, [])) as (C & R & I).
    cbn zeta in *. cbn [fst snd] in *.
    rewrite C, R, I. cbn [app]. auto.
Qed.

Lemma applyEvents_spec (events : list AiEvent) (st : SelfHealing * list AiEvent) :
  let r := fold_left (fun s ev => applyEvent now ev s) events st in
  cfg (fst r) = cfg (fst st)
  /\ snd r = snd st ++ map (enriched (mode (cfg (fst st)))) events
  /\ isolated (fst r)
     = isolated (fst st)
       || (isArmed (mode (cfg (fst st))) && existsb proposesIsolation events).
Proof.
  revert st. induction events as [ | ev events IH]; intros st; cbn zeta.
  - cbn. rewrite app_nil_r, andb_false_r, orb_false_r. auto.
  - cbn [fold_left map existsb].
    destruct (applyEvent_spec ev st) as (C & R & I).
    destruct (IH (applyEvent now ev st)) as (C' & R' & I'). cbn zeta in *.
    rewrite C', R', I', C, R, I. repeat split.
    + now rewrite <- app_assoc.
    + rewrite andb_orb_distrib_r, orb_assoc. reflexivity.
Qed.

Lemma apply_cfg (events : list AiEvent) (h : SelfHealing) :
  cfg (fst (apply now events h)) = cfg h.
Proof.
  unfold apply. destruct (enabled (cfg h)); cbn [negb]; [ | reflexivity ].
  apply (applyEvents_spec events (h, [])).
Qed.

Lemma apply_snd (events : list AiEvent) (h : SelfHealing) :
  snd (apply now events h)
  = if enabled (cfg h) then map (enriched (mode (cfg h))) events else events.
Proof.
  unfold apply. destruct (enabled (cfg h)); cbn [negb]; [ | reflexivity ].
  apply (applyEvents_spec events (h, [])).
Qed.

Lemma apply_isolated (events : list AiEvent) (h : SelfHealing) :
  isolated (fst (apply now events h))
  = isolated h
    || (enabled (cfg h) && isArmed (mode (cfg h)) && existsb proposesIsolation events).
Proof.
  unfold apply. destruct (enabled (cfg h)); cbn [negb andb].
  - apply (applyEvents_spec events (h, [])).
  - cbn. now rewrite orb_false_r.
Qed.

(** X9. The events [apply] returns are the given events, in order, each with
    its [executed] record: all proposed actions in dry-run mode; in armed
    mode the rate-limit and isolation actions as proposed and a
    not-executable hint in the place of every other action. The record
    depends on the mode alone, not on the clock or on the rate-limit window
    and the isolation flag of the controller; with the policy off the events
    are returned untouched. [apply] never changes the policy itself. *)
Theorem apply_records (events : list AiEvent) (h : SelfHealing) :
  snd (apply now events h)
  = (if enabled (cfg h) then map (enriched (mode (cfg h))) events else events)
  /\ length (snd (apply now events h)) = length events
  /\ map type (snd (apply now events h)) = map type events
  /\ map actions (snd (apply now events h)) = map actions events
  /\ getConfig (fst (apply now events h)) = getConfig h.
Proof.
  rewrite apply_snd. split; [ reflexivity | ].
  assert (P : forall (A : Type) (f : AiEvent -> A) m,
             (forall e, f (enriched m e) = f e) ->
             map f (map (enriched m) events) = map f events).
  { intros A f m F. rewrite map_map. apply map_ext. exact F. }
  assert (T : forall m e, type (enriched m e) = type e).
  { intros m e. unfold enriched. destruct (actions e ?? []); reflexivity. }
  assert (Ac : forall m e, actions (enriched m e) = actions e).
  { intros m e. unfold enriched. destruct (actions e ?? []); reflexivity. }
  destruct (enabled (cfg h)).
  - rewrite length_map, (P _ type _ (T _)), (P _ actions _ (Ac _)).
    repeat split. apply apply_cfg.
  - repeat split. apply apply_cfg.
Qed.

End ApplyRecords.

(** ** Isolation *)

Lemma call_isolated (c : Call) (h : SelfHealing) :
  isolated h = true -> isolated (call h c) = true.
Proof.
  intros I. destruct c as [now events | next]; cbn [call].
  - rewrite apply_isolated, I. reflexivity.
  - exact I.
Qed.

Lemma calls_isolated (cs : list Call) (h : SelfHealing) :
  isolated h = true -> isolated (calls cs h) = true.
Proof.
  unfold calls. revert h. induction cs as [ | c cs IH]; intros h I; cbn.
  - exact I.
  - apply IH, call_isolated, I.
Qed.

(** X10. Isolation is a one-way latch. One [apply] call sets it exactly when
    the policy is enabled in armed mode and some event proposes
    [isolate_node]; once set, no run of [apply] and [setConfig] calls clears
    it, and [setConfig] leaves both the latch and the rate-limit window as
    they are. *)
Theorem isolation_latch (cs : list Call) (h : SelfHealing)
    (Hisolated : isIsolated h = true) :
  isIsolated (calls cs h) = true
  /\ (forall now events h0,
        isIsolated (fst (apply now events h0))
        = isIsolated h0
          || (enabled (getConfig h0) && isArmed (mode (getConfig h0))
              && existsb proposesIsolation events))
  /\ (forall next h0,
        isIsolated (setConfig next h0) = isIsolated h0
        /\ rateLimitUntilMs (setConfig next h0) = rateLimitUntilMs h0).
Proof.
  split; [ apply calls_isolated, Hisolated | ].
  split; [ intros; apply apply_isolated | ].
  intros next h0. split; reflexivity.
Qed.

Lemma isolation_latch_witness :
  isIsolated
    (calls [call_setConfig (mkPartial (Some false) (Some dry_run) (Some 5));
            call_apply 1700000000000 [proposing (enable_rate_limit "cpu_spike" (Some 30))];
            call_setConfig (mkPartial (Some true) (Some armed) None)]
       (fst (apply 1700000000000 [proposing (isolate_node "manual")]
               (controller armed 0)))) = true.
Proof.
  refine (proj1 (isolation_latch _ _ _)). reflexivity.
Defined.

(** ** More on the order of binary64 *)

Lemma lexCompare_lt_le_trans (a b c : Z * Z * Z) :
  lexCompare a b = Lt -> lexCompare b c <> Gt -> lexCompare a c = Lt.
Proof.
  destruct a as [[a1 a2] a3], b as [[b1 b2] b3], c as [[c1 c2] c3].
  unfold lexCompare. cbn [fst snd].
  destruct (Z.compare_spec a1 b1), (Z.compare_spec b1 c1); try congruence;
    destruct (Z.compare_spec a2 b2), (Z.compare_spec b2 c2); try congruence;
    destruct (Z.compare_spec a3 b3), (Z.compare_spec b3 c3); try congruence;
    intros _ _;
    repeat match goal with
           | |- context [(?x ?= ?y)%Z] => destruct (Z.compare_spec x y)
           end; try reflexivity; lia.
Qed.

(** [t < a] and [a <= b] give [t < b]. *)
Lemma ltb_leb_trans (t a b : float) :
  (t <? a) = true -> (a <=? b) = true -> (t <? b) = true.
Proof.
  intros L M.
  pose proof (leb_not_nan _ _ (ltb_leb _ _ L)) as [Nt _].
  pose proof (leb_not_nan _ _ M) as [_ Nb].
  rewrite FloatAxioms.ltb_spec in *. rewrite FloatAxioms.leb_spec in M.
  unfold SFltb, SFleb in *.
  destruct (SFcompare (Prim2SF t) (Prim2SF a)) as [c1 | ] eqn:C1; [ | discriminate ].
  destruct (SFcompare (Prim2SF a) (Prim2SF b)) as [c2 | ] eqn:C2; [ | discriminate ].
  destruct (SFcompare_total (Prim2SF t) (Prim2SF b)) as [c3 C3];
    [ apply is_nan_false_spec; exact Nt | apply is_nan_false_spec; exact Nb | ].
  rewrite C3.
  apply SFcompare_rank in C1, C2, C3.
  assert (E : c3 = Lt).
  { rewrite C3. apply (lexCompare_lt_le_trans _ (rank (Prim2SF a))).
    - rewrite <- C1. destruct c1; try discriminate; reflexivity.
    - rewrite <- C2. destruct c2; try discriminate; congruence. }
  rewrite E. reflexivity.
Qed.

(** A value that compares equal to a finite value other than zero is that
    value. *)
Lemma SFcompare_Eq_finite (x : spec_float) (s : bool) (m : positive) (e : Z) :
  SFcompare (S754_finite s m e) x = Some Eq -> x = S754_finite s m e.
Proof.
  destruct x as [s' | s' | | s' m' e']; cbn [SFcompare].
  - destruct s; discriminate.
  - destruct s'; discriminate.
  - discriminate.
  - destruct s, s'; try discriminate;
      destruct (Z.compare_spec e e'); try discriminate; subst e';
      intros H; injection H as H;
      [ apply (f_equal CompOpp) in H; rewrite CompOpp_involutive in H; cbn in H | ];
      change (PosDef.Pos.compare_cont Eq m m') with (Pos.compare m m') in H;
      apply Pos.compare_eq in H; subst m'; reflexivity.
Qed.

(** A number in [5, 300] is finite and [clamp] returns it. *)
Lemma inRange_clamp (x : number) :
  inRange x = true -> isFinite x = true /\ clamp x 5 300 = x.
Proof.
  unfold inRange. intros H. apply andb_true_iff in H. destruct H as [Lo Hi].
  pose proof (leb_not_nan _ _ Lo) as [_ Nx].
  split.
  - unfold isFinite, is_finite. rewrite Nx. cbn [orb].
    unfold is_infinity. rewrite FloatAxioms.eqb_spec, abs_spec.
    rewrite FloatAxioms.leb_spec in Lo, Hi.
    destruct (Prim2SF x) as [s | [ | ] | | s m e]; try reflexivity;
      vm_compute in Lo, Hi; discriminate.
  - unfold clamp, Math_min, Math_max.
    change (is_nan 300) with false. change (is_nan 5) with false. rewrite Nx.
    cbn [orb].
    assert (G : (300 <? x) = false) by (apply geb_ltb_excl; exact Hi).
    rewrite G. change (get_sign 300) with false. cbv iota.
    assert (M : (if x <? 300 then x else x) = x) by (destruct (x <? 300); reflexivity).
    cbv iota. rewrite !M, Nx.
    destruct (5 <? x) eqn:L; [ reflexivity | ].
    assert (G' : (x <? 5) = false) by (apply geb_ltb_excl; exact Lo).
    rewrite G'. change (get_sign 5) with false.
    apply Prim2SF_inj. symmetry.
    rewrite FloatAxioms.leb_spec in Lo. rewrite FloatAxioms.ltb_spec in L.
    unfold SFleb, SFltb in *.
    assert (F : exists s m e, Prim2SF 5 = S754_finite s m e)
      by (vm_compute; eauto).
    destruct F as (s & m & e & F). rewrite F in *.
    apply SFcompare_Eq_finite.
    destruct (SFcompare (S754_finite s m e) (Prim2SF x)) as [[ | | ] | ];
      try discriminate; reflexivity.
Qed.

(** ** [setConfig] *)

(** X11. [setConfig] stores a [rateLimitSeconds] in [5, 300] as it is given,
    and keeps the stored value when the field is absent, NaN or infinite;
    [enabled] and [mode] are replaced where given and kept where absent.
    Setting the same fields twice is the same as setting them once. *)
Theorem setConfig_stores (next : PartialConfig) (h : SelfHealing) :
  (forall x, p_rateLimitSeconds next = Some x -> inRange x = true ->
             rateLimitSeconds (getConfig (setConfig next h)) = x)
  /\ (forall x, p_rateLimitSeconds next = Some x -> isFinite x = false ->
                rateLimitSeconds (getConfig (setConfig next h))
                = rateLimitSeconds (getConfig h))
  /\ (p_rateLimitSeconds next = None ->
      rateLimitSeconds (getConfig (setConfig next h)) = rateLimitSeconds (getConfig h))
  /\ enabled (getConfig (setConfig next h)) = p_enabled next ?? enabled (getConfig h)
  /\ mode (getConfig (setConfig next h)) = p_mode next ?? mode (getConfig h)
  /\ setConfig next (setConfig next h) = setConfig next h.
Proof.
  unfold setConfig, getConfig. cbn [cfg enabled mode rateLimitSeconds
                                    rateLimitUntilMs isolated].
  split; [ | split; [ | split; [ | split; [ | split ] ] ] ].
  - intros x -> R. destruct (inRange_clamp x R) as [F C]. rewrite F. exact C.
  - intros x -> F. rewrite F. reflexivity.
  - intros ->. reflexivity.
  - destruct (p_enabled next); reflexivity.
  - destruct (p_mode next); reflexivity.
  - destruct (p_enabled next), (p_mode next), (p_rateLimitSeconds next) as [x | ];
      try reflexivity; destruct (isFinite x); reflexivity.
Qed.

(** ** From a detected anomaly to rejected requests *)

Section RateLimit.

Variable now : number.
Hypothesis Hnow : is_finite now = true.

Lemma applyAction_number (a : AiAction) (st : SelfHealing * list AiAction) :
  limitOrHint a = true ->
  is_nan (rateLimitUntilMs (fst st)) = false ->
  is_nan (rateLimitUntilMs (fst (applyAction now a st))) = false.
Proof.
  intros L N. unfold applyAction. cbn zeta.
  destruct (mode (cfg (fst st))); [ exact N | ].
  destruct a as [r [s | ] | r | r sv | r c | r]; try discriminate; cbn [fst rateLimitUntilMs];
    try exact N.
  apply Math_max_is_number; [ exact N | ].
  apply deadline_is_number; [ exact Hnow | ].
  cbn [limitOrHint] in L.
  apply orb_true_iff in L. destruct L as [L | L];
    [ apply orb_true_iff in L; destruct L as [L | L] | ];
    apply Leibniz.eqb_spec in L; subst s; reflexivity.
Qed.

Lemma applyActions_number (acts : list AiAction) (st : SelfHealing * list AiAction) :
  forallb limitOrHint acts = true ->
  is_nan (rateLimitUntilMs (fst st)) = false ->
  is_nan (rateLimitUntilMs (fst (fold_left (fun s a => applyAction now a s) acts st))) = false.
Proof.
  revert st. induction acts as [ | a acts IH]; intros st F N; [ exact N | ].
  cbn [forallb] in F. apply andb_true_iff in F. destruct F as [Fa F].
  cbn [fold_left]. apply IH; [ exact F | ]. apply applyAction_number; assumption.
Qed.

Lemma applyEvent_fst (ev : AiEvent) (st : SelfHealing * list AiEvent) :
  fst (applyEvent now ev st)
  = fst (fold_left (fun s a => applyAction now a s) (actions ev ?? []) (fst st, [])).
Proof.
  unfold applyEvent. destruct (actions ev ?? []); reflexivity.
Qed.

Lemma applyEvents_number (events : list AiEvent) (st : SelfHealing * list AiEvent) :
  Forall (fun e => forallb limitOrHint (actions e ?? []) = true) events ->
  is_nan (rateLimitUntilMs (fst st)) = false ->
  is_nan (rateLimitUntilMs (fst (fold_left (fun s ev => applyEvent now ev s) events st))) = false.
Proof.
  revert st. induction events as [ | ev events IH]; intros st F N; [ exact N | ].
  inversion F as [ | ? ? Fe F']; subst.
  cbn [fold_left]. apply IH; [ exact F' | ].
  rewrite applyEvent_fst. apply applyActions_number; [ exact Fe | exact N ].
Qed.

Lemma applyActions_floor (r : string) (s : number) (acts : list AiAction)
    (st : SelfHealing * list AiAction) :
  mode (cfg (fst st)) = armed ->
  In (enable_rate_limit r (Some s)) acts ->
  is_nan (rateLimitUntilMs (fst (fold_left (fun s a => applyAction now a s) acts st))) = false ->
  (now + clamp s 5 300 * 1000
   <=? rateLimitUntilMs (fst (fold_left (fun s a => applyAction now a s) acts st))) = true.
Proof.
  revert st. induction acts as [ | a acts IH]; intros st M I N; [ contradiction | ].
  cbn [fold_left] in *.
  assert (M' : mode (cfg (fst (applyAction now a st))) = armed).
  { destruct (applyAction_spec now a st) as (C & _). cbn zeta in C.
    rewrite C. exact M. }
  destruct I as [-> | I]; [ | apply IH; assumption ].
  pose proof (fold_left_mono (fun s a => applyAction now a s)
                (fun st => rateLimitUntilMs (fst st))
                (fun s a => applyAction_mono now s a) acts _ N) as Mono.
  cbn beta in Mono.
  pose proof (leb_not_nan _ _ Mono) as [N1 _].
  assert (E : rateLimitUntilMs (fst (applyAction now (enable_rate_limit r (Some s)) st))
              = Math_max (rateLimitUntilMs (fst st)) (now + clamp s 5 300 * 1000)).
  { unfold applyAction. cbn zeta. rewrite M. reflexivity. }
  rewrite E in Mono, N1.
  apply Math_max_not_nan in N1. destruct N1 as [Na Nb].
  eapply leb_trans; [ | exact Mono ].
  apply Math_max_ge_r; assumption.
Qed.

Lemma applyEvents_floor (r : string) (s : number) (ev : AiEvent)
    (events : list AiEvent) (st : SelfHealing * list AiEvent) :
  mode (cfg (fst st)) = armed ->
  In ev events ->
  In (enable_rate_limit r (Some s)) (actions ev ?? []) ->
  is_nan (rateLimitUntilMs (fst (fold_left (fun s ev => applyEvent now ev s) events st))) = false ->
  (now + clamp s 5 300 * 1000
   <=? rateLimitUntilMs (fst (fold_left (fun s ev => applyEvent now ev s) events st))) = true.
Proof.
  revert st. induction events as [ | e events IH]; intros st M I A N; [ contradiction | ].
  cbn [fold_left] in *.
  assert (M' : mode (cfg (fst (applyEvent now e st))) = armed).
  { destruct (applyEvent_spec now e st) as (C & _). cbn zeta in C.
    rewrite C. exact M. }
  destruct I as [-> | I]; [ | apply IH; assumption ].
  clear IH.
  pose proof (fold_left_mono (fun s ev => applyEvent now ev s)
                (fun st => rateLimitUntilMs (fst st))
                (fun s a => applyEvent_mono now s a) events _ N) as Mono.
  cbn beta in Mono.
  pose proof (leb_not_nan _ _ Mono) as [N1 _].
  eapply leb_trans; [ | exact Mono ].
  rewrite applyEvent_fst in *.
  apply (applyActions_floor r); assumption.
Qed.

(** Armed and enabled, [apply] leaves a window that ends no earlier than
    the deadline of any rate limit among the proposals. *)
Lemma apply_floor (r : string) (s : number) (ev : AiEvent) (events : list AiEvent)
    (h : SelfHealing) :
  enabled (cfg h) = true -> mode (cfg h) = armed ->
  is_nan (rateLimitUntilMs h) = false ->
  Forall (fun e => forallb limitOrHint (actions e ?? []) = true) events ->
  In ev events ->
  In (enable_rate_limit r (Some s)) (actions ev ?? []) ->
  (now + clamp s 5 300 * 1000 <=? rateLimitUntilMs (fst (apply now events h))) = true.
Proof.
  intros E M N F I A. unfold apply. rewrite E. cbn [negb].
  apply (applyEvents_floor r s ev); try assumption.
  apply applyEvents_number; assumption.
Qed.

End RateLimit.

(** The events of kind [t] that [detect] returns propose the rate limit of
    [limitSeconds t]. *)
Lemma detect_limitSeconds (now : number) (src : string) (d : AnomalyDetector)
    (t : AiEventType) (secs : number) (e : AiEvent) :
  limitSeconds t = Some secs ->
  In e (snd (detect now src d)) -> type e = t ->
  exists r, In (enable_rate_limit r (Some secs)) (actions e ?? []).
Proof.
  intros L I T.
  destruct (lastOf (window d)) as [last | ] eqn:La;
    [ | rewrite (detect_empty now src d La) in I; contradiction ].
  destruct (detect_events_cases now src d last La e I) as [[k ->] | [[k ->] | ->]].
  - destruct k; cbn [absEvent type] in T; subst t; cbn in L; try discriminate;
      injection L as <-; eexists; cbn; eauto.
  - destruct k; cbn [statEvent type] in T; subst t; cbn in L; try discriminate;
      injection L as <-; eexists; cbn; eauto.
  - cbn [leakEvent type] in T; subst t; cbn in L.
    injection L as <-; eexists; cbn; eauto.
Qed.

Section EndToEnd.

Variable isValidHttpUrl : string -> bool.

(** X12. From detection to rejected requests. When a tick of a session
    detects an anomaly of a kind that proposes a rate limit (30 s for a CPU
    or RAM spike, 20 s for an I/O spike, 45 s for a RAM leak) and the policy
    is enabled in armed mode, then until that many seconds after the tick a
    request that reaches the rate-limit middleware is answered 429 when its
    path is [/] or starts with [/api/], [/ws/], [/vendor/] or [/dist/], and
    goes on to the routes otherwise. A request that [express.json] or
    [express.static] answers first, such as one for a file of the frontend
    directory, is not touched by the rate limit. *)
Theorem anomaly_rate_limits_requests (now t : number) (c : Ops.Collected)
    (s : Ops.Session) (h : SelfHealing) (k : AiEventType) (secs : number)
    (answeredBefore : bool) (path : string)
    (Henabled : enabled (getConfig h) = true)
    (Harmed : mode (getConfig h) = armed)
    (Hclock : isFinite now = true)
    (Hwindow : is_nan (rateLimitUntilMs h) = false)
    (Hdetected : hasKind k (detected isValidHttpUrl now c s h) = true)
    (Hsecs : limitSeconds k = Some secs)
    (Hbefore : (t <? now + secs * 1000) = true) :
  request answeredBefore t path (snd (fst (Ops.tick isValidHttpUrl now c s h)))
  = if answeredBefore then answeredEarlier
    else if limited path then rejected429 else reachesRoutes.
Proof.
  unfold detected in Hdetected.
  destruct c as [m | err]; [ | discriminate ].
  destruct (collects isValidHttpUrl s h) eqn:Co; [ | discriminate ].
  rewrite (tick_resolved isValidHttpUrl now m s h Co).
  unfold Ops.onSample. cbn zeta. cbn [fst snd]. unfold Ops.sampleSource.
  set (events := snd (detect now (source m ?? sourceName s) (push m (Ops.detector s)))) in *.
  unfold hasKind in Hdetected. apply existsb_exists in Hdetected.
  destruct Hdetected as (e & I & T).
  unfold AiEventType_eqb in T. destruct (AiEventType_eq_dec (type e) k) as [T' | ];
    [ | discriminate ].
  destruct (detect_limitSeconds _ _ _ k secs e Hsecs I T') as [r A].
  assert (C : clamp secs 5 300 = secs).
  { destruct k; cbn in Hsecs; try discriminate; injection Hsecs as <-; reflexivity. }
  pose proof (apply_floor now Hclock r secs e events h Henabled Harmed Hwindow
                (detect_limitOrHint _ _ _) I A) as Fl.
  rewrite C in Fl.
  unfold request, rateLimitMiddleware, isRateLimited.
  rewrite (ltb_leb_trans _ _ _ Hbefore Fl). cbn [negb].
  destruct answeredBefore; [ reflexivity | ].
  unfold limited, limitedPrefixes, pathOk. cbn [existsb].
  destruct (String.prefix "/api/" path), (String.prefix "/ws/" path),
    (String.prefix "/vendor/" path), (String.prefix "/dist/" path),
    (path =? "/")%string; reflexivity.
Qed.

End EndToEnd.

(** A CPU reading of 96 on an armed controller: a request for [/api/metrics]
    that reaches the middleware 29 s later is rejected, one for
    [/favicon.ico] goes on to the routes. *)
Lemma anomaly_rate_limits_requests_witness :
  let h := snd (fst (Ops.tick startsWithHttp 1700000000000
                       (Ops.resolved (sampleOf 96 40 10)) localSession
                       (controller armed 0))) in
  request false 1700000029000 "/api/metrics" h = rejected429
  /\ request false 1700000029000 "/favicon.ico" h = reachesRoutes.
Proof.
  cbv zeta. split.
  - apply (anomaly_rate_limits_requests startsWithHttp 1700000000000 1700000029000
             (Ops.resolved (sampleOf 96 40 10)) localSession (controller armed 0)
             cpu_spike 30 false "/api/metrics");
      reflexivity.
  - apply (anomaly_rate_limits_requests startsWithHttp 1700000000000 1700000029000
             (Ops.resolved (sampleOf 96 40 10)) localSession (controller armed 0)
             cpu_spike 30 false "/favicon.ico");
      reflexivity.
Defined.

(** ** Sessions: ticks and client messages *)

Lemma limitOrHint_isolates (a : AiAction) : limitOrHint a = true -> isolates a = false.
Proof. destruct a; try discriminate; reflexivity. Qed.

Lemma detect_no_isolation (now : number) (src : string) (d : AnomalyDetector) :
  existsb proposesIsolation (snd (detect now src d)) = false.
Proof.
  pose proof (detect_limitOrHint now src d) as F.
  induction F as [ | e evs Fe _ IH]; [ reflexivity | ].
  cbn [existsb]. rewrite IH, orb_false_r.
  unfold proposesIsolation.
  induction (actions e ?? []) as [ | a acts IHa]; [ reflexivity | ].
  cbn [forallb existsb] in *. apply andb_true_iff in Fe. destruct Fe as [Fa Fe].
  rewrite (limitOrHint_isolates a Fa), (IHa Fe). reflexivity.
Qed.

Lemma existsb_map_wire (f : OpsClient.Sent -> bool) (out : list Ops.OpsWsMsg) :
  existsb f (map OpsClient.wire out) = existsb (fun m => f (OpsClient.wire m)) out.
Proof.
  induction out as [ | m out IH]; [ reflexivity | ]. cbn. now rewrite IH.
Qed.

Lemma existsb_map_ai (f : Ops.OpsWsMsg -> bool) (evs : list AiEvent) :
  (forall e, f (Ops.ai e) = false) -> existsb f (map Ops.ai evs) = false.
Proof.
  intros F. induction evs as [ | e evs IH]; [ reflexivity | ].
  cbn. now rewrite F, IH.
Qed.

Section Session.

Variable isValidHttpUrl : string -> bool.
Variable trim : string -> string.
Variable numberToString : number -> string.

(** *** One tick *)

Lemma onSample_isolated (now : number) (dflt : string) (m : MetricsSample)
    (s : Ops.Session) (h : SelfHealing) :
  isolated (snd (fst (Ops.onSample now dflt m s h))) = isolated h.
Proof.
  unfold Ops.onSample. cbn zeta. cbn [fst snd].
  rewrite apply_isolated, detect_no_isolation, andb_false_r, orb_false_r.
  reflexivity.
Qed.

Lemma tick_isolated (now : number) (c : Ops.Collected) (s : Ops.Session)
    (h : SelfHealing) :
  isolated (snd (fst (Ops.tick isValidHttpUrl now c s h))) = isolated h.
Proof.
  unfold Ops.tick, Ops.tickTry, isIsolated.
  destruct (isolated h) eqn:I; [ exact I | ].
  destruct (Ops.source s);
    [ | destruct (_ || _); [ exact I | ] ];
    destruct c as [m | e];
    try (rewrite onSample_isolated; exact I);
    unfold Ops.tickCatch; cbn zeta;
    destruct (Ops.source s); try destruct (3 <=? _)%nat; exact I.
Qed.

Lemma tick_halted (now : number) (c : Ops.Collected) (s : Ops.Session)
    (h : SelfHealing) :
  isolated h = true ->
  Ops.tick isValidHttpUrl now c s h = (s, h, [Ops.status Ops.level_error Ops.nodeIsolated]).
Proof.
  intros I. unfold Ops.tick, Ops.tickTry, isIsolated. rewrite I. reflexivity.
Qed.

Lemma tick_monitorReady (now : number) (c : Ops.Collected) (s : Ops.Session)
    (h : SelfHealing) :
  monitorReady isValidHttpUrl s ->
  monitorReady isValidHttpUrl (fst (fst (Ops.tick isValidHttpUrl now c s h))).
Proof.
  intros R. unfold Ops.tick, Ops.tickTry.
  destruct (isIsolated h); [ exact R | ].
  destruct (Ops.source s) eqn:Src.
  - destruct c as [m | e]; cbn [fst]; intros M.
    + cbn in M. congruence.
    + unfold Ops.tickCatch in M. cbn zeta in M. rewrite Src in M. cbn in M.
      congruence.
  - destruct (R Src) as [V E].
    destruct (_ || _); [ intros M; discriminate M | ].
    destruct c as [m | e]; cbn [fst]; intros M.
    + cbn. split; [ exact V | lia ].
    + unfold Ops.tickCatch in *. cbn zeta in *. rewrite Src in *.
      destruct (3 <=? S (Ops.errorStreak s))%nat eqn:T; [ discriminate M | ].
      cbn. apply Nat.leb_gt in T. split; [ exact V | lia ].
Qed.

Lemma tick_urlInvalid (now : number) (c : Ops.Collected) (s : Ops.Session)
    (h : SelfHealing) :
  isValidHttpUrl EmptyString = false ->
  monitorReady isValidHttpUrl s ->
  existsb (fun m => saysUrlInvalid (OpsClient.wire m)) (snd (Ops.tick isValidHttpUrl now c s h)) = false.
Proof.
  intros Em R. unfold Ops.tick, Ops.tickTry.
  destruct (isIsolated h); [ reflexivity | ].
  assert (OS : forall dflt m,
             existsb (fun m => saysUrlInvalid (OpsClient.wire m))
               (snd (Ops.onSample now dflt m s h)) = false).
  { intros dflt m. unfold Ops.onSample. cbn zeta. cbn [snd].
    rewrite !existsb_app, existsb_map_ai by reflexivity.
    destruct (0 <? _)%nat; reflexivity. }
  assert (OC : forall e,
             existsb (fun m => saysUrlInvalid (OpsClient.wire m))
               (snd (Ops.tickCatch e s h)) = false).
  { intros e. unfold Ops.tickCatch. cbn zeta.
    destruct (Ops.source s); try destruct (3 <=? _)%nat; reflexivity. }
  destruct (Ops.source s) eqn:Src.
  - destruct c; [ apply OS | apply OC ].
  - destruct (R Src) as [V _].
    destruct (Ops.monitorUrl s =? EmptyString)%string eqn:Eq.
    + apply String.eqb_eq in Eq. rewrite Eq in V. congruence.
    + rewrite V. cbn [orb negb]. destruct c; [ apply OS | apply OC ].
Qed.

Lemma tick_detector_halted (now : number) (c : Ops.Collected) (s : Ops.Session)
    (h : SelfHealing) :
  isolated h = true -> Ops.detector (fst (fst (Ops.tick isValidHttpUrl now c s h))) = Ops.detector s.
Proof. intros I. rewrite (tick_halted now c s h I). reflexivity. Qed.

(** *** One input *)

Lemma step_isolated (i : OpsClient.Input) (s : Ops.Session) (h : SelfHealing) :
  isolated (snd (fst (OpsClient.step isValidHttpUrl trim numberToString i s h))) = isolated h.
Proof.
  destruct i as [now c | now [ | msg] c]; cbn [OpsClient.step fst snd].
  - apply tick_isolated.
  - reflexivity.
  - unfold OpsClient.onMessage.
    destruct (_ && _); [ reflexivity | ].
    destruct (_ && _).
    + cbn zeta. destruct (negb _); [ reflexivity | ]. cbn [fst snd].
      apply tick_isolated.
    + destruct (OpsClient.isString _ _); reflexivity.
Qed.

Lemma step_monitorReady (i : OpsClient.Input) (s : Ops.Session) (h : SelfHealing) :
  monitorReady isValidHttpUrl s ->
  monitorReady isValidHttpUrl (fst (fst (OpsClient.step isValidHttpUrl trim numberToString i s h))).
Proof.
  intros R. destruct i as [now c | now [ | msg] c]; cbn [OpsClient.step fst snd].
  - apply tick_monitorReady, R.
  - exact R.
  - unfold OpsClient.onMessage.
    destruct (_ && _); [ intros M; discriminate M | ].
    destruct (_ && _).
    + cbn zeta. destruct (negb _) eqn:V; [ exact R | ]. cbn [fst snd].
      apply tick_monitorReady. intros _. cbn.
      apply negb_false_iff in V. split; [ exact V | lia ].
    + destruct (OpsClient.isString _ _); exact R.
Qed.

Lemma step_urlInvalid (i : OpsClient.Input) (s : Ops.Session) (h : SelfHealing) :
  isValidHttpUrl EmptyString = false ->
  monitorReady isValidHttpUrl s ->
  existsb saysUrlInvalid (snd (OpsClient.step isValidHttpUrl trim numberToString i s h)) = false.
Proof.
  intros Em R. destruct i as [now c | now [ | msg] c]; cbn [OpsClient.step fst snd].
  - rewrite existsb_map_wire. apply tick_urlInvalid; assumption.
  - reflexivity.
  - unfold OpsClient.onMessage.
    destruct (_ && _); [ reflexivity | ].
    destruct (_ && _).
    + cbn zeta. destruct (negb _) eqn:V; [ reflexivity | ]. cbn [fst snd existsb].
      rewrite existsb_map_wire. cbn [saysUrlInvalid orb].
      apply tick_urlInvalid; [ exact Em | ]. intros _. cbn.
      apply negb_false_iff in V. split; [ exact V | lia ].
    + destruct (OpsClient.isString _ _); reflexivity.
Qed.

Lemma step_halted (i : OpsClient.Input) (s : Ops.Session) (h : SelfHealing) :
  isolated h = true ->
  Ops.detector (fst (fst (OpsClient.step isValidHttpUrl trim numberToString i s h))) = Ops.detector s
  /\ existsb reportsMonitoring (snd (OpsClient.step isValidHttpUrl trim numberToString i s h)) = false.
Proof.
  intros I. destruct i as [now c | now [ | msg] c]; cbn [OpsClient.step fst snd].
  - rewrite (tick_halted now c s h I). split; reflexivity.
  - split; reflexivity.
  - unfold OpsClient.onMessage.
    destruct (_ && _); [ split; reflexivity | ].
    destruct (_ && _).
    + cbn zeta. destruct (negb _); [ split; reflexivity | ].
      rewrite (tick_halted now c _ h I). split; reflexivity.
    + destruct (OpsClient.isString _ _); split; reflexivity.
Qed.

Lemma step_saysIsolated (i : OpsClient.Input) (s : Ops.Session) (h : SelfHealing) :
  isolated h = false -> existsb saysIsolated (snd (OpsClient.step isValidHttpUrl trim numberToString i s h)) = false.
Proof.
  intros I.
  assert (T : forall now c s,
             existsb (fun m => saysIsolated (OpsClient.wire m)) (snd (Ops.tick isValidHttpUrl now c s h))
             = false).
  { intros now c s0. unfold Ops.tick, Ops.tickTry, isIsolated. rewrite I.
    assert (OS : forall dflt m,
               existsb (fun m => saysIsolated (OpsClient.wire m))
                 (snd (Ops.onSample now dflt m s0 h)) = false).
    { intros dflt m. unfold Ops.onSample. cbn zeta. cbn [snd].
      rewrite !existsb_app, existsb_map_ai by reflexivity.
      destruct (0 <? _)%nat; reflexivity. }
    assert (OC : forall e,
               existsb (fun m => saysIsolated (OpsClient.wire m))
                 (snd (Ops.tickCatch e s0 h)) = false).
    { intros e. unfold Ops.tickCatch. cbn zeta.
      destruct (Ops.source s0); try destruct (3 <=? _)%nat; reflexivity. }
    destruct (Ops.source s0);
      [ | destruct (_ || _); [ reflexivity | ] ];
      destruct c; first [ apply OS | apply OC ]. }
  destruct i as [now c | now [ | msg] c]; cbn [OpsClient.step fst snd].
  - rewrite existsb_map_wire. apply T.
  - reflexivity.
  - unfold OpsClient.onMessage.
    destruct (_ && _); [ reflexivity | ].
    destruct (_ && _).
    + cbn zeta. destruct (negb _); [ reflexivity | ]. cbn [fst snd existsb].
      rewrite existsb_map_wire. apply T.
    + destruct (OpsClient.isString _ _); reflexivity.
Qed.

(** *** Runs *)

(** X13. A session on the monitor source always has a URL that
    [isValidHttpUrl] accepts and at most two failures in a row behind it:
    this holds when the connection opens and after every run of timer ticks
    and client messages. When the empty string is no valid URL, no tick of
    such a run finds the monitor URL unusable, so the status of lines
    340-345 is never sent. *)
Theorem monitor_source_stays_ready (inputs : list OpsClient.Input)
    (s : Ops.Session) (h : SelfHealing)
    (Hempty : isValidHttpUrl EmptyString = false)
    (Hready : monitorReady isValidHttpUrl s) :
  monitorReady isValidHttpUrl (fst (fst (OpsClient.run isValidHttpUrl trim numberToString inputs s h)))
  /\ Forall (fun out => existsb saysUrlInvalid out = false) (snd (OpsClient.run isValidHttpUrl trim numberToString inputs s h))
  /\ (forall now envUrl h0,
        monitorReady isValidHttpUrl
          (fst (OpsClient.connect now envUrl h0))).
Proof.
  split; [ | split ].
  - revert s h Hready. induction inputs as [ | i inputs IH]; intros s h R; [ exact R | ].
    cbn [OpsClient.run]. cbn zeta. cbn [fst snd].
    apply IH, step_monitorReady, R.
  - revert s h Hready. induction inputs as [ | i inputs IH]; intros s h R;
      [ constructor | ].
    cbn [OpsClient.run]. cbn zeta. cbn [fst snd]. constructor.
    + apply step_urlInvalid; assumption.
    + apply IH, step_monitorReady, R.
  - intros now envUrl h0 M. discriminate M.
Qed.

(** X14. While the node is isolated the session stands still: whatever
    timer ticks and client messages arrive, no sample is collected or pushed
    to the detector, no metrics and no event are sent, each timer tick sends
    the isolation status alone, and the node stays isolated. *)
Theorem isolated_session_halts (inputs : list OpsClient.Input)
    (s : Ops.Session) (h : SelfHealing)
    (Hisolated : isIsolated h = true) :
  Ops.detector (fst (fst (OpsClient.run isValidHttpUrl trim numberToString inputs s h))) = Ops.detector s
  /\ isIsolated (snd (fst (OpsClient.run isValidHttpUrl trim numberToString inputs s h))) = true
  /\ Forall (fun out => existsb reportsMonitoring out = false) (snd (OpsClient.run isValidHttpUrl trim numberToString inputs s h))
  /\ (forall now c,
        Ops.tick isValidHttpUrl now c s h = (s, h, [Ops.status Ops.level_error Ops.nodeIsolated])).
Proof.
  unfold isIsolated in *.
  split; [ | split; [ | split ] ].
  - revert s h Hisolated. induction inputs as [ | i inputs IH]; intros s h I;
      [ reflexivity | ].
    cbn [OpsClient.run]. cbn zeta. cbn [fst snd].
    rewrite IH by (rewrite step_isolated; exact I).
    apply step_halted, I.
  - revert s h Hisolated. induction inputs as [ | i inputs IH]; intros s h I;
      [ exact I | ].
    cbn [OpsClient.run]. cbn zeta. cbn [fst snd].
    apply IH. rewrite step_isolated. exact I.
  - revert s h Hisolated. induction inputs as [ | i inputs IH]; intros s h I;
      [ constructor | ].
    cbn [OpsClient.run]. cbn zeta. cbn [fst snd]. constructor.
    + apply step_halted, I.
    + apply IH. rewrite step_isolated. exact I.
  - intros now c. apply tick_halted, Hisolated.
Qed.

(** X15. No session isolates the node: after any run of timer ticks and
    client messages the isolation flag of the controller is what it was,
    because no event the detector builds proposes an isolation. A node that
    is not isolated therefore never gets the isolation status from a tick. *)
Theorem session_never_isolates (inputs : list OpsClient.Input)
    (s : Ops.Session) (h : SelfHealing) :
  isIsolated (snd (fst (OpsClient.run isValidHttpUrl trim numberToString inputs s h))) = isIsolated h
  /\ (isIsolated h = false ->
      Forall (fun out => existsb saysIsolated out = false) (snd (OpsClient.run isValidHttpUrl trim numberToString inputs s h))).
Proof.
  unfold isIsolated. split.
  - revert s h. induction inputs as [ | i inputs IH]; intros s h; [ reflexivity | ].
    cbn [OpsClient.run]. cbn zeta. cbn [fst snd].
    rewrite IH. apply step_isolated.
  - revert s h. induction inputs as [ | i inputs IH]; intros s h I; [ constructor | ].
    cbn [OpsClient.run]. cbn zeta. cbn [fst snd]. constructor.
    + apply step_saysIsolated, I.
    + apply IH. rewrite step_isolated. exact I.
Qed.

End Session.

(** A client selects the monitor source, three collections fail and the
    session is back on the local source. *)
Lemma monitor_source_stays_ready_witness :
  let r := OpsClient.run startsWithHttp (fun u => u) (fun _ => "NaN")
             [ OpsClient.clientMessage 1700000000000
                 (setSourceMonitor "http://10.0.0.5:8000/monitor") (Ops.rejected "timeout");
               OpsClient.timerTick 1700000001200 (Ops.rejected "timeout");
               OpsClient.timerTick 1700000002400 (Ops.rejected "timeout");
               OpsClient.timerTick 1700000003600 (Ops.resolved (sampleOf 40 40 10)) ]
             (fst (OpsClient.connect 1700000000000 None
                     (newSelfHealing None)))
             (newSelfHealing None) in
  monitorReady startsWithHttp (fst (fst r))
  /\ Forall (fun out => existsb saysUrlInvalid out = false) (snd r)
  /\ (forall now envUrl h0,
        monitorReady startsWithHttp (fst (OpsClient.connect now envUrl h0))).
Proof.
  cbv zeta. apply monitor_source_stays_ready; [ reflexivity | ].
  intros M. discriminate M.
Defined.

(** An isolated controller: a sample that would raise every alarm is not
    even collected. *)
Lemma isolated_session_halts_witness :
  let h := fst (apply 1700000000000 [proposing (isolate_node "manual")]
                  (controller armed 0)) in
  let r := OpsClient.run startsWithHttp (fun u => u) (fun _ => "NaN")
             [ OpsClient.timerTick 1700000001200 (Ops.resolved (sampleOf 99 99 99));
               OpsClient.clientMessage 1700000002400
                 (setSourceMonitor "http://10.0.0.5:8000/monitor")
                 (Ops.resolved (sampleOf 99 99 99)) ]
             localSession h in
  Ops.detector (fst (fst r)) = Ops.detector localSession
  /\ isIsolated (snd (fst r)) = true
  /\ Forall (fun out => existsb reportsMonitoring out = false) (snd r)
  /\ (forall now c,
        Ops.tick startsWithHttp now c localSession h
        = (localSession, h, [Ops.status Ops.level_error Ops.nodeIsolated])).
Proof.
  cbv zeta. apply isolated_session_halts. reflexivity.
Defined.

(** ** The [setSelfHeal] message *)

Lemma isString_setSelfHeal (v : OpsClient.JsValue) :
  OpsClient.isString v "setSelfHeal" = true -> OpsClient.isString v "setSource" = false.
Proof.
  destruct v; try discriminate. cbn [OpsClient.isString]. intros E.
  apply String.eqb_eq in E. subst s. reflexivity.
Qed.

Section SetSelfHeal.

Variable isValidHttpUrl : string -> bool.
Variable trim : string -> string.
Variable numberToString : number -> string.

(** X16. A [setSelfHeal] message replaces [enabled] and [mode] every time:
    [enabled] becomes the truthiness of the field and [mode] becomes armed
    only for the string [armed], so a message that leaves them out turns the
    policy off and back to dry-run. [rateLimitSeconds] changes only for a
    finite number, clamped to [5, 300]. The session, the rate-limit window
    and the isolation flag are untouched, and the one reply is the snapshot
    of the new policy. *)
Theorem setSelfHeal_replaces_policy (now : number) (msg : OpsClient.ClientMsg)
    (c : Ops.Collected) (s : Ops.Session) (h : SelfHealing)
    (Htype : OpsClient.isString (OpsClient.msg_type msg) "setSelfHeal" = true) :
  let r := OpsClient.onMessage isValidHttpUrl trim numberToString now
             (OpsClient.parsed msg) c s h in
  let h' := snd (fst r) in
  fst (fst r) = s
  /\ enabled (getConfig h') = OpsClient.Boolean (OpsClient.msg_enabled msg)
  /\ mode (getConfig h')
     = (if OpsClient.isString (OpsClient.msg_mode msg) "armed" then armed else dry_run)
  /\ rateLimitSeconds (getConfig h')
     = match OpsClient.msg_rateLimitSeconds msg with
       | OpsClient.js_number x =>
           if isFinite x then clamp x 5 300 else rateLimitSeconds (getConfig h)
       | _ => rateLimitSeconds (getConfig h)
       end
  /\ rateLimitUntilMs h' = rateLimitUntilMs h
  /\ isIsolated h' = isIsolated h
  /\ snd r
     = [OpsClient.wire
          (Ops.selfheal (OpsClient.Boolean (OpsClient.msg_enabled msg))
             (if OpsClient.isString (OpsClient.msg_mode msg) "armed" then armed
              else dry_run)
             (isRateLimited now h) (isIsolated h))]
  /\ (OpsClient.msg_enabled msg = OpsClient.js_undefined ->
      OpsClient.msg_mode msg = OpsClient.js_undefined ->
      enabled (getConfig h') = false /\ mode (getConfig h') = dry_run).
Proof.
  cbv zeta. unfold OpsClient.onMessage.
  rewrite (isString_setSelfHeal _ Htype), Htype. cbn [andb fst snd].
  unfold setConfig, getConfig, Ops.policySnapshot, getConfig, isRateLimited, isIsolated.
  cbn [cfg enabled mode rateLimitSeconds rateLimitUntilMs isolated
       p_enabled p_mode p_rateLimitSeconds].
  repeat (split; [ reflexivity | ]).
  split.
  - destruct (OpsClient.msg_rateLimitSeconds msg); reflexivity.
  - repeat (split; [ reflexivity | ]).
    intros -> ->. split; reflexivity.
Qed.

End SetSelfHeal.

(** A message that only asks for a rate limit of 60 seconds switches an
    armed policy off. *)
Lemma setSelfHeal_replaces_policy_witness :
  getConfig
    (snd (fst (OpsClient.onMessage startsWithHttp (fun u => u) (fun _ => "NaN")
                 1700000000000
                 (OpsClient.parsed
                    (setSelfHeal OpsClient.js_undefined OpsClient.js_undefined
                       (OpsClient.js_number 60)))
                 (Ops.rejected "unused") localSession (controller armed 0))))
  = mkConfig false dry_run 60.
Proof.
  pose proof (setSelfHeal_replaces_policy startsWithHttp (fun u => u) (fun _ => "NaN")
                1700000000000
                (setSelfHeal OpsClient.js_undefined OpsClient.js_undefined
                   (OpsClient.js_number 60))
                (Ops.rejected "unused") localSession (controller armed 0) eq_refl) as T.
  cbv zeta in T. destruct T as (_ & E & M & R & _).
  destruct (getConfig _) as [e m r]. cbn in E, M, R. rewrite E, M, R. reflexivity.
Defined.

(** ** Failures on the local source *)

Lemma combine_seq_shift {A B : Type} (g : nat -> A -> B) (l : list A) (a : nat) :
  map (fun p => g (fst p) (snd p)) (combine (seq (S a) (length l)) l)
  = map (fun p => g (S (fst p)) (snd p)) (combine (seq a (length l)) l).
Proof.
  revert a. induction l as [ | x l IH]; intros a; [ reflexivity | ].
  cbn [length seq combine map fst snd]. f_equal. apply IH.
Qed.

Section LocalFailures.

Variable isValidHttpUrl : string -> bool.

Lemma tick_local_failure (now : number) (e : string) (s : Ops.Session)
    (h : SelfHealing) :
  Ops.source s = Ops.local -> isIsolated h = false ->
  Ops.tick isValidHttpUrl now (Ops.rejected e) s h
  = (Ops.mkSession Ops.local (Ops.monitorUrl s) (S (Ops.errorStreak s)) (Ops.detector s),
     h,
     [Ops.status Ops.level_error (Ops.collectFailed (S (Ops.errorStreak s)) e)]).
Proof.
  intros Src I. unfold Ops.tick, Ops.tickTry, Ops.tickCatch. rewrite I, Src.
  cbn zeta. reflexivity.
Qed.

(** X17. On the local source a failed collection is only counted and
    reported: every failing tick sends one status with the number of
    failures in a row, which grows without a bound; the session never leaves
    the local source, sends no event, and the detector and the controller
    are left as they were. *)
Theorem local_failures_only_count (inputs : list (number * string))
    (s : Ops.Session) (h : SelfHealing)
    (Hlocal : Ops.source s = Ops.local)
    (Hrunning : isIsolated h = false) :
  let r := Ops.ticks isValidHttpUrl (failures inputs) s h in
  fst (fst r)
  = Ops.mkSession Ops.local (Ops.monitorUrl s)
      (Ops.errorStreak s + length inputs) (Ops.detector s)
  /\ snd (fst r) = h
  /\ snd r
     = map (fun p => [Ops.status Ops.level_error
                        (Ops.collectFailed (Ops.errorStreak s + S (fst p)) (snd (snd p)))])
         (combine (seq 0 (length inputs)) inputs).
Proof.
  cbv zeta. revert s Hlocal.
  induction inputs as [ | [now e] inputs IH]; intros s Src.
  - cbn. rewrite Nat.add_0_r. destruct s; cbn in *; subst; auto.
  - cbn [failures map fst snd Ops.ticks length].
    rewrite (tick_local_failure now e s h Src Hrunning).
    specialize (IH (Ops.mkSession Ops.local (Ops.monitorUrl s) (S (Ops.errorStreak s))
                      (Ops.detector s)) eq_refl).
    cbn [Ops.monitorUrl Ops.errorStreak Ops.detector] in IH.
    fold (failures inputs).
    destruct (Ops.ticks isValidHttpUrl (failures inputs) _ h) as [[s2 h2] outs].
    cbn [fst snd] in *. destruct IH as (E1 & E2 & E3).
    split; [ | split ].
    + rewrite E1. f_equal. lia.
    + exact E2.
    + cbn [seq combine map fst snd]. f_equal.
      * repeat f_equal. lia.
      * rewrite E3.
        rewrite (combine_seq_shift
                   (fun i p => [Ops.status Ops.level_error
                                  (Ops.collectFailed (Ops.errorStreak s + S i) (snd p))])).
        apply map_ext. intros [i [n e']]. cbn [fst snd].
        replace (S (Ops.errorStreak s) + S i)%nat
          with (Ops.errorStreak s + S (S i))%nat by lia.
        reflexivity.
Qed.

End LocalFailures.

Lemma local_failures_only_count_witness :
  let r := Ops.ticks startsWithHttp
             (failures [(1700000000000, "EPERM"); (1700000001200, "EPERM");
                        (1700000002400, "EPERM"); (1700000003600, "EPERM")])
             localSession (newSelfHealing None) in
  fst (fst r) = Ops.mkSession Ops.local EmptyString 4 newDetector
  /\ snd (fst r) = newSelfHealing None
  /\ snd r
     = map (fun p => [Ops.status Ops.level_error
                        (Ops.collectFailed (0 + S (fst p)) (snd (snd p)))])
         (combine (seq 0 4)
            [(1700000000000, "EPERM"); (1700000001200, "EPERM");
             (1700000002400, "EPERM"); (1700000003600, "EPERM")]).
Proof.
  cbv zeta.
  apply (local_failures_only_count startsWithHttp
           [(1700000000000, "EPERM"); (1700000001200, "EPERM");
            (1700000002400, "EPERM"); (1700000003600, "EPERM")]
           localSession (newSelfHealing None)); reflexivity.
Defined.

(** ** The tokenizer *)

Section TokenizerFacts.

Import Tokenizer.

Lemma scan_out (n : nat) :
  forall line out cur quote, (length line <= n)%nat ->
    scan line out cur quote = out ++ scan line [] cur quote.
Proof.
  induction n as [ | n IH]; intros line out cur quote L.
  - destruct line; [ | cbn in L; lia ]. cbn. destruct (truthy cur); [ reflexivity | ].
    now rewrite app_nil_r.
  - destruct line as [ | ch rest].
    + cbn. destruct (truthy cur); [ reflexivity | ]. now rewrite app_nil_r.
    + cbn [length] in L. cbn [scan].
      destruct quote as [q | ].
      * destruct (ch =? q)%N; [ apply IH; lia | ].
        destruct ((ch =? backslash)%N && (q =? doubleQuote)%N).
        -- destruct rest as [ | next rest']; [ apply IH; cbn; lia | ].
           apply IH. cbn [length] in L. lia.
        -- apply IH. lia.
      * destruct ((ch =? doubleQuote)%N || (ch =? singleQuote)%N); [ apply IH; lia | ].
        destruct (isSpace ch); [ | apply IH; lia ].
        destruct (truthy cur); [ | apply IH; lia ].
        rewrite (IH rest (out ++ [cur])), (IH rest [cur]) by lia.
        now rewrite app_assoc.
Qed.

Lemma scan_app_out (line : JsString) (out : list JsString) (cur : JsString)
    (quote : option CodeUnit) :
  scan line out cur quote = out ++ scan line [] cur quote.
Proof. apply (scan_out (length line)). lia. Qed.

Lemma truthy_app_r (cur : JsString) (c : CodeUnit) : truthy (cur ++ [c]) = true.
Proof. destruct cur; reflexivity. Qed.

Lemma scan_nonempty (n : nat) :
  forall line cur quote, (length line <= n)%nat ->
    Forall (fun t => t <> []) (scan line [] cur quote).
Proof.
  induction n as [ | n IH]; intros line cur quote L.
  - destruct line; [ | cbn in L; lia ]. cbn.
    destruct cur; cbn; repeat constructor; discriminate.
  - destruct line as [ | ch rest].
    + cbn. destruct cur; cbn; repeat constructor; discriminate.
    + cbn [length] in L. cbn [scan].
      destruct quote as [q | ].
      * destruct (ch =? q)%N; [ apply IH; lia | ].
        destruct ((ch =? backslash)%N && (q =? doubleQuote)%N).
        -- destruct rest as [ | next rest']; [ apply IH; cbn; lia | ].
           apply IH. cbn [length] in L. lia.
        -- apply IH. lia.
      * destruct ((ch =? doubleQuote)%N || (ch =? singleQuote)%N); [ apply IH; lia | ].
        destruct (isSpace ch); [ | apply IH; lia ].
        destruct cur as [ | c cur]; cbn [truthy]; [ apply IH; lia | ].
        rewrite scan_app_out. apply Forall_app. split.
        -- repeat constructor. discriminate.
        -- apply IH. lia.
Qed.

Lemma forallb_eq {A : Type} (f g : A -> bool) (l : list A) :
  (forall x, f x = g x) -> forallb f l = forallb g l.
Proof.
  intros E. induction l as [ | x l IH]; [ reflexivity | ]. cbn. now rewrite E, IH.
Qed.

(** Plain units extend the current token. *)
Lemma scan_plain (w rest : JsString) (out : list JsString) (cur : JsString) :
  forallb plain w = true ->
  scan (w ++ rest) out cur None = scan rest out (cur ++ w) None.
Proof.
  revert cur. induction w as [ | c w IH]; intros cur P.
  - now rewrite app_nil_r.
  - cbn [forallb] in P. apply andb_true_iff in P. destruct P as [Pc P].
    unfold plain in Pc. apply andb_true_iff in Pc. destruct Pc as [Pc Q1].
    apply andb_true_iff in Pc. destruct Pc as [Sp Q2].
    apply negb_true_iff in Sp, Q1, Q2.
    cbn [app scan]. rewrite Q1, Q2, Sp. cbn [orb].
    rewrite IH by exact P. now rewrite <- app_assoc.
Qed.

(** Units other than the quote extend the current token inside single
    quotes, and so do units other than the quote and the backslash inside
    double quotes. *)
Lemma scan_quoted (q : CodeUnit) (body rest : JsString) (out : list JsString)
    (cur : JsString) :
  forallb (fun c => negb (c =? q)%N
                    && negb ((c =? backslash)%N && (q =? doubleQuote)%N)) body = true ->
  scan (body ++ rest) out cur (Some q) = scan rest out (cur ++ body) (Some q).
Proof.
  revert cur. induction body as [ | c body IH]; intros cur P.
  - now rewrite app_nil_r.
  - cbn [forallb] in P. apply andb_true_iff in P. destruct P as [Pc P].
    apply andb_true_iff in Pc. destruct Pc as [Q B].
    apply negb_true_iff in Q, B.
    cbn [app scan]. rewrite Q, B.
    rewrite IH by exact P. now rewrite <- app_assoc.
Qed.

Lemma tokenize_space (sp : CodeUnit) (rest : JsString) :
  isSpace sp = true -> tokenize (sp :: rest) = tokenize rest.
Proof.
  intros S. unfold tokenize. cbn [scan].
  replace ((sp =? doubleQuote)%N || (sp =? singleQuote)%N) with false.
  - rewrite S. reflexivity.
  - symmetry. apply orb_false_iff.
    split; apply N.eqb_neq; intros ->; discriminate.
Qed.

Lemma plainWord_spec (w : JsString) :
  plainWord w = true -> truthy w = true /\ forallb plain w = true.
Proof. unfold plainWord. intros H. apply andb_true_iff in H. exact H. Qed.

Lemma tokenize_word (w : JsString) (sp : CodeUnit) (rest : JsString) :
  plainWord w = true -> isSpace sp = true ->
  tokenize (w ++ sp :: rest) = w :: tokenize rest.
Proof.
  intros W S. destruct (plainWord_spec w W) as [T P].
  unfold tokenize. rewrite (scan_plain w _ [] [] P). cbn [app scan].
  replace ((sp =? doubleQuote)%N || (sp =? singleQuote)%N) with false.
  - rewrite S, T. now rewrite scan_app_out.
  - symmetry. apply orb_false_iff.
    split; apply N.eqb_neq; intros ->; discriminate.
Qed.

Lemma tokenize_last (w : JsString) : plainWord w = true -> tokenize w = [w].
Proof.
  intros W. destruct (plainWord_spec w W) as [T P].
  unfold tokenize. rewrite <- (app_nil_r w) at 1.
  rewrite (scan_plain w [] [] [] P). cbn. rewrite T. reflexivity.
Qed.

(** X18. [tokenize] never returns an empty token, whatever the line: white
    space alone gives no token, and neither does an empty pair of quotes
    that stands alone. *)
Theorem tokenize_no_empty_token (line : JsString) :
  Forall (fun t => t <> []) (tokenize line)
  /\ (forallb isSpace line = true -> tokenize line = [])
  /\ tokenize [singleQuote; singleQuote] = []
  /\ tokenize [doubleQuote; doubleQuote] = [].
Proof.
  split; [ apply (scan_nonempty (length line)); lia | ].
  split; [ | split; reflexivity ].
  induction line as [ | c line IH]; intros S; [ reflexivity | ].
  cbn [forallb] in S. apply andb_true_iff in S. destruct S as [Sc S].
  rewrite (tokenize_space c line Sc). apply IH, S.
Qed.

(** X19. Words of units that are neither white space nor quotes, joined by
    single spaces, are tokenized back to the same words; more generally a
    word followed by white space is the first token, and white space before
    a token is skipped. *)
Theorem tokenize_join (words : list JsString)
    (Hwords : forallb plainWord words = true) :
  tokenize (join words) = words
  /\ (forall w sp rest, plainWord w = true -> isSpace sp = true ->
        tokenize (w ++ sp :: rest) = w :: tokenize rest)
  /\ (forall sp rest, isSpace sp = true -> tokenize (sp :: rest) = tokenize rest).
Proof.
  split; [ | split; [ exact tokenize_word | exact tokenize_space ] ].
  induction words as [ | w words IH]; [ reflexivity | ].
  cbn [forallb] in Hwords. apply andb_true_iff in Hwords. destruct Hwords as [W Ws].
  destruct words as [ | w' words]; [ apply tokenize_last, W | ].
  change (join (w :: w' :: words)) with (w ++ space :: join (w' :: words)).
  rewrite (tokenize_word w space _ W eq_refl), (IH Ws). reflexivity.
Qed.

(** X20. Quoting. A stretch between single quotes is taken as it stands,
    white space, double quotes and backslashes included, and joins the text
    before it in one token; a quote left open is closed by the end of the
    line. Between double quotes the same holds for a stretch without
    backslash, and a backslash makes the unit after it literal there. *)
Theorem tokenize_quoted (w body : JsString)
    (Hword : forallb plain w = true)
    (Hbody : forallb (fun c => negb (c =? singleQuote)%N) body = true) :
  tokenize (w ++ singleQuote :: body ++ [singleQuote]) = token (w ++ body)
  /\ tokenize (w ++ singleQuote :: body) = token (w ++ body)
  /\ (forall inner,
        forallb (fun c => negb (c =? doubleQuote)%N && negb (c =? backslash)%N) inner
        = true ->
        tokenize (w ++ doubleQuote :: inner ++ [doubleQuote]) = token (w ++ inner))
  /\ (forall c, tokenize (w ++ [doubleQuote; backslash; c; doubleQuote]) = [w ++ [c]]).
Proof.
  assert (Q1 : forallb (fun c => negb (c =? singleQuote)%N
                          && negb ((c =? backslash)%N && (singleQuote =? doubleQuote)%N))
                 body = true).
  { rewrite <- Hbody. apply forallb_eq.
    intros c. cbn. now rewrite andb_false_r, andb_true_r. }
  unfold tokenize, token.
  split; [ | split; [ | split ] ].
  - rewrite (scan_plain w _ [] [] Hword). cbn [app scan N.eqb orb doubleQuote singleQuote].
    cbn [Pos.eqb].
    rewrite (scan_quoted singleQuote body [singleQuote] [] w Q1).
    cbn [scan]. rewrite N.eqb_refl. cbn [scan]. reflexivity.
  - rewrite (scan_plain w _ [] [] Hword). cbn [app scan N.eqb orb doubleQuote singleQuote].
    cbn [Pos.eqb].
    rewrite <- (app_nil_r body) at 1.
    rewrite (scan_quoted singleQuote body [] [] w Q1). reflexivity.
  - intros inner B.
    rewrite (scan_plain w _ [] [] Hword). cbn [app scan].
    rewrite N.eqb_refl. cbn [orb].
    etransitivity; [ apply scan_quoted | ].
    + rewrite <- B. apply forallb_eq.
      intros c. now rewrite N.eqb_refl, andb_true_r.
    + cbn [scan]. rewrite N.eqb_refl. cbn [scan]. reflexivity.
  - intros c.
    rewrite (scan_plain w _ [] [] Hword). cbn [app scan].
    change (backslash =? doubleQuote)%N with false.
    rewrite !N.eqb_refl. cbn [orb andb scan].
    rewrite truthy_app_r. reflexivity.
Qed.

End TokenizerFacts.

(** The words [aws], [s3] and [ls]. *)
Lemma tokenize_join_witness :
  Tokenizer.tokenize
    (Tokenizer.join [[97; 119; 115]; [115; 51]; [108; 115]])%N
  = [[97; 119; 115]; [115; 51]; [108; 115]]%N.
Proof.
  apply (proj1 (tokenize_join [[97; 119; 115]; [115; 51]; [108; 115]]%N
                  eq_refl)).
Defined.

(** [echo 'a b'], with the word [echo] left out: the text [x'a b'] is one
    token. *)
Lemma tokenize_quoted_witness :
  Tokenizer.tokenize [120; 39; 97; 32; 98; 39]%N = [[120; 97; 32; 98]]%N.
Proof.
  apply (proj1 (tokenize_quoted [120]%N [97; 32; 98]%N eq_refl eq_refl)).
Defined.

(** ** The sample of the monitor source *)



Section MonitorSample.

Variable stringToNumber : string -> number.




End MonitorSample.

(** ** The configured [rateLimitSeconds] and the session *)

Section ConfiguredSeconds.

Variable now : number.
Variable x : number.

Lemma applyAction_withSeconds (a : AiAction) (h : SelfHealing) (ex : list AiAction) :
  limitOrHint a = true ->
  applyAction now a (withSeconds x h, ex)
  = (withSeconds x (fst (applyAction now a (h, ex))), snd (applyAction now a (h, ex))).
Proof.
  intros L. unfold applyAction. cbn zeta. cbn [fst snd withSeconds cfg mode].
  destruct (mode (cfg h)) eqn:M; [ reflexivity | ].
  destruct a as [r [s | ] | r | r sv | r c | r]; try discriminate;
    unfold withSeconds; cbn; rewrite ?M; reflexivity.
Qed.

Lemma applyActions_withSeconds (acts : list AiAction) (h : SelfHealing)
    (ex : list AiAction) :
  forallb limitOrHint acts = true ->
  fold_left (fun s a => applyAction now a s) acts (withSeconds x h, ex)
  = (withSeconds x (fst (fold_left (fun s a => applyAction now a s) acts (h, ex))),
     snd (fold_left (fun s a => applyAction now a s) acts (h, ex))).
Proof.
  revert h ex. induction acts as [ | a acts IH]; intros h ex F; [ reflexivity | ].
  cbn [forallb] in F. apply andb_true_iff in F. destruct F as [Fa F].
  cbn [fold_left]. rewrite (applyAction_withSeconds a h ex Fa).
  rewrite (IH _ _ F). now rewrite <- surjective_pairing.
Qed.

Lemma applyEvent_withSeconds (ev : AiEvent) (h : SelfHealing) (out : list AiEvent) :
  forallb limitOrHint (actions ev ?? []) = true ->
  applyEvent now ev (withSeconds x h, out)
  = (withSeconds x (fst (applyEvent now ev (h, out))), snd (applyEvent now ev (h, out))).
Proof.
  intros F. unfold applyEvent. cbn [fst snd].
  destruct (actions ev ?? []) as [ | a acts] eqn:A; [ reflexivity | ].
  rewrite (applyActions_withSeconds (a :: acts) h [] F). reflexivity.
Qed.

Lemma applyEvents_withSeconds (events : list AiEvent) (h : SelfHealing)
    (out : list AiEvent) :
  Forall (fun e => forallb limitOrHint (actions e ?? []) = true) events ->
  fold_left (fun s ev => applyEvent now ev s) events (withSeconds x h, out)
  = (withSeconds x (fst (fold_left (fun s ev => applyEvent now ev s) events (h, out))),
     snd (fold_left (fun s ev => applyEvent now ev s) events (h, out))).
Proof.
  revert h out. induction events as [ | ev events IH]; intros h out F; [ reflexivity | ].
  inversion F as [ | ? ? Fe F']; subst.
  cbn [fold_left]. rewrite (applyEvent_withSeconds ev h out Fe).
  rewrite (IH _ _ F'). now rewrite <- surjective_pairing.
Qed.

Lemma apply_withSeconds (events : list AiEvent) (h : SelfHealing) :
  Forall (fun e => forallb limitOrHint (actions e ?? []) = true) events ->
  apply now events (withSeconds x h)
  = (withSeconds x (fst (apply now events h)), snd (apply now events h)).
Proof.
  intros F. unfold apply. cbn [withSeconds cfg enabled].
  destruct (enabled (cfg h)); cbn [negb]; [ | reflexivity ].
  apply applyEvents_withSeconds, F.
Qed.

End ConfiguredSeconds.

Section SessionSeconds.

Variable isValidHttpUrl : string -> bool.

Lemma tick_withSeconds (now x : number) (c : Ops.Collected) (s : Ops.Session)
    (h : SelfHealing) :
  Ops.tick isValidHttpUrl now c s (withSeconds x h)
  = (fst (fst (Ops.tick isValidHttpUrl now c s h)),
     withSeconds x (snd (fst (Ops.tick isValidHttpUrl now c s h))),
     snd (Ops.tick isValidHttpUrl now c s h)).
Proof.
  assert (OS : forall dflt m,
             Ops.onSample now dflt m s (withSeconds x h)
             = (fst (fst (Ops.onSample now dflt m s h)),
                withSeconds x (snd (fst (Ops.onSample now dflt m s h))),
                snd (Ops.onSample now dflt m s h))).
  { intros dflt m. unfold Ops.onSample. cbn zeta.
    rewrite (apply_withSeconds now x _ h (detect_limitOrHint _ _ _)).
    reflexivity. }
  unfold Ops.tick, Ops.tickTry, isIsolated. cbn [withSeconds isolated].
  destruct (isolated h); [ reflexivity | ].
  destruct (Ops.source s) eqn:Src;
    [ | destruct (_ || _); [ reflexivity | ] ];
    destruct c as [m | e]; try apply OS;
    unfold Ops.tickCatch; cbn zeta; rewrite Src;
    try destruct (3 <=? _)%nat; reflexivity.
Qed.

(** X22. The configured [rateLimitSeconds] has no effect on a session. It is
    read only for a rate-limit action without [seconds], and every rate
    limit the detector proposes carries its own: two controllers that differ
    in [rateLimitSeconds] alone go through any run of ticks with the same
    messages sent, the same session state, and the same rate-limit window
    and isolation flag. *)
Theorem rateLimitSeconds_unused (inputs : list (number * Ops.Collected))
    (x : number) (s : Ops.Session) (h : SelfHealing) :
  Ops.ticks isValidHttpUrl inputs s (withSeconds x h)
  = (fst (fst (Ops.ticks isValidHttpUrl inputs s h)),
     withSeconds x (snd (fst (Ops.ticks isValidHttpUrl inputs s h))),
     snd (Ops.ticks isValidHttpUrl inputs s h)).
Proof.
  revert s h. induction inputs as [ | [now c] inputs IH]; intros s h; [ reflexivity | ].
  cbn [Ops.ticks]. rewrite tick_withSeconds.
  destruct (Ops.tick isValidHttpUrl now c s h) as [[s1 h1] out]. cbn [fst snd].
  rewrite IH.
  destruct (Ops.ticks isValidHttpUrl inputs s1 h1) as [[s2 h2] outs]. reflexivity.
Qed.

(** X23. The events a tick sends are about the sample it has just
    collected: each carries that sample as its [metrics] and has severity
    warn or critical, in dry-run and in armed mode alike; a tick whose
    collection fails sends no event with metrics. *)
Theorem tick_events_about_sample (now : number) (c : Ops.Collected)
    (s : Ops.Session) (h : SelfHealing) :
  Forall (fun e => match c with
                   | Ops.resolved m => metrics e = Some m /\ severity e <> info
                   | Ops.rejected _ => metrics e = None
                   end)
    (published (snd (Ops.tick isValidHttpUrl now c s h))).
Proof.
  unfold Ops.tick, Ops.tickTry.
  destruct (isIsolated h); [ constructor | ].
  assert (OS : forall dflt m,
             Forall (fun e => metrics e = Some m /\ severity e <> info)
               (published (snd (Ops.onSample now dflt m s h)))).
  { intros dflt m. unfold Ops.onSample. cbn zeta. cbn [snd].
    unfold published. rewrite !flat_map_app. cbn [flat_map app].
    apply Forall_app. split.
    - rewrite apply_snd.
      set (d := push m (Ops.detector s)).
      set (src := Ops.sampleSource m ?? dflt).
      assert (W : Forall (wellProposed m) (snd (detect now src d))).
      { apply Forall_forall. intros e I.
        assert (L : lastOf (window d) = Some m) by apply push_lastOf.
        destruct (detect_events_cases now src d m L e I) as [[t ->] | [[t ->] | ->]].
        - apply absEvent_wellProposed.
        - apply statEvent_wellProposed.
        - apply leakEvent_wellProposed. exact L. }
      induction W as [ | e evs We _ IH]; [ destruct (enabled (cfg h)); constructor | ].
      destruct We as (Sv & Me & _).
      destruct (enabled (cfg h)); cbn [map flat_map app] in *.
      + constructor; [ | exact IH ].
        unfold enriched. destruct (actions e ?? []); cbn; auto.
      + constructor; [ auto | exact IH ].
    - destruct (0 <? _)%nat; constructor. }
  assert (OC : forall e0,
             Forall (fun e => metrics e = None)
               (published (snd (Ops.tickCatch e0 s h)))).
  { intros e0. unfold Ops.tickCatch. cbn zeta.
    destruct (Ops.source s); try destruct (3 <=? _)%nat; cbn;
      repeat constructor. }
  destruct (Ops.source s);
    [ | destruct (_ || _); [ constructor | ] ];
    destruct c as [m | e0]; first [ apply OS | apply OC ].
Qed.

End SessionSeconds.
